(** * Verification model of the channel-controller bot (src/bot.py)

    The bot keeps an in-memory [Database] of users, channels and posts, a
    per-user session dictionary ([context.user_data]) and talks to the
    messaging platform.  The handlers of [TelegramChannelBot] are embedded
    as computations in a small state-and-exception monad over a [World]
    that holds the database, the sessions, a log of what was shown to the
    user and a log of the transport calls made with a channel's bot.

    Conventions.
    - A Python [str] is a [string]; one element stands for one Python
      character, so the texts modelled are those of characters below 256.
      The emoji of the source's literals are written as the characters of
      their UTF-8 encoding; they only decorate fixed texts.  The line feed
      is [nl].
    - A value that may be [None] is an [option]; a dictionary key that may
      be absent is an [option] too.  Where the source distinguishes an
      absent key from a key holding [None] the field is an
      [option (option _)].
    - [datetime.now()] reads the oracle [clock] at the world's tick counter
      and advances the counter.
    - Calls that talk to the user ([reply_text], [edit_message_text],
      [answer]) and [logger.error] are appended to the [ui] log and do not
      fail; inline keyboards are not part of the log (what building one
      can raise is modelled).
    - Building the channel bot ([TelegramBot(token=...)]) runs the check
      python-telegram-bot makes on a token and raises [InvalidToken], a
      [TelegramError], for a token that fails it; the token of a bot that
      was built travels with each transport call.
    - A transport call of the channel bot asks the oracle [transport] of
      the environment, which sees the calls attempted before it and answers
      with the new message id or with the text of a [TelegramError]. *)

From Stdlib Require Import Ascii.
From stdpp Require Import gmap strings list pretty.

Local Open Scope string_scope.
Local Open Scope list_scope.

(** ** Strings as Python uses them *)

Definition nl : string := String "010"%char "".

(** Truth value of a [str]: the empty string is false. *)
Definition str_truthy (s : string) : bool :=
  match s with EmptyString => false | String _ _ => true end.

(** [x if x else None] for a [str] that may be [None]: the string when it
    is truthy. *)
Definition truthy (o : option string) : option string :=
  match o with
  | Some s => if str_truthy s then Some s else None
  | None => None
  end.

(** [a if a else b] on values that may be [None]. *)
Definition or_else (a b : option string) : option string :=
  match truthy a with Some s => Some s | None => b end.

(** [s[:n]] *)
Definition py_take (n : nat) (s : string) : string := String.substring 0 n s.

(** [s.split(sep)] for a one-character separator. *)
Fixpoint split_on (sep : ascii) (s : string) : list string :=
  match s with
  | EmptyString => [EmptyString]
  | String c s' =>
      if Ascii.eqb c sep then EmptyString :: split_on sep s'
      else match split_on sep s' with
           | [] => [String c EmptyString]
           | seg :: segs => String c seg :: segs
           end
  end.

Definition is_digit (c : ascii) : bool :=
  let n := nat_of_ascii c in (48 <=? n)%nat && (n <=? 57)%nat.

Fixpoint digits_value (acc : Z) (s : string) : option Z :=
  match s with
  | EmptyString => Some acc
  | String c s' =>
      if is_digit c
      then digits_value (10 * acc + Z.of_nat (nat_of_ascii c - 48))%Z s'
      else None
  end.

(** [c.isspace()] for the characters a [string] element can stand for. *)
Definition is_space (c : ascii) : bool :=
  let n := nat_of_ascii c in
  ((9 <=? n)%nat && (n <=? 13)%nat) || ((28 <=? n)%nat && (n <=? 32)%nat) ||
  (n =? 133)%nat || (n =? 160)%nat.

Fixpoint lstrip (s : string) : string :=
  match s with
  | EmptyString => EmptyString
  | String c s' => if is_space c then lstrip s' else s
  end.

(** [s.strip()] *)
Definition strip (s : string) : string :=
  String.rev (lstrip (String.rev (lstrip s))).

(** [int(s)] for a text without underscore, as the segments of a split on
    ["_"] are: blanks around the numeral are dropped, then an optional sign
    and at least one decimal digit are read; every other text is a
    [ValueError] ([None] here). *)
Definition py_int (s : string) : option Z :=
  match strip s with
  | EmptyString => None
  | String c s' =>
      if Ascii.eqb c "-"%char then
        (if str_truthy s' then Z.opp <$> digits_value 0 s' else None)
      else if Ascii.eqb c "+"%char then
        (if str_truthy s' then digits_value 0 s' else None)
      else digits_value 0 (String c s')
  end.

(** Every character of a text satisfies [P]. *)
Fixpoint all_chars (P : ascii → bool) (s : string) : bool :=
  match s with
  | EmptyString => true
  | String c s' => P c && all_chars P s'
  end.

(** [c.isdigit()] for the characters a [string] element can stand for: the
    decimal digits and the superscripts two, three and one. *)
Definition py_isdigit (c : ascii) : bool :=
  let n := nat_of_ascii c in
  is_digit c || (n =? 178)%nat || (n =? 179)%nat || (n =? 185)%nat.

(** The check [telegram.Bot.__init__] makes on its token
    ([Bot._validate_token] of python-telegram-bot 13):
    [[
      if any(x.isspace() for x in token): raise InvalidToken()
      left, sep, _right = token.partition(':')
      if (not sep) or (not left.isdigit()) or (len(left) < 3):
          raise InvalidToken()
    ]]
    A token passes when it has no blank and a colon after at least three
    digits. *)
Definition valid_token (token : string) : bool :=
  all_chars (λ c, negb (is_space c)) token &&
  match split_on ":" token with
  | digits :: _ :: _ =>
      all_chars py_isdigit digits && (3 <=? String.length digits)%nat
  | _ => false
  end.

(** ** Data model *)

(** A formatting entity of a message ([telegram.MessageEntity]). *)
Record Entity := mkEntity {
  e_type : string;
  e_offset : Z;
  e_length : Z
}.

(** [telegram.Chat], the fields the bot reads. *)
Record Chat := mkChat {
  chat_id : Z;
  chat_title : option string;
  chat_username : option string;
  chat_type : string
}.

(** [telegram.Message], the fields the bot reads.  [photo] lists the file
    ids of the sizes of a photo, smallest first; [bot_command] is the
    command a [CommandHandler] extracts from the message, if any, and
    [is_command] is what [Filters.command] answers. *)
Record Message := mkMessage {
  message_id : Z;
  text : option string;
  text_html : option string;
  text_markdown : option string;
  entities : list Entity;
  photo : list string;
  video : option string;
  document : option string;
  caption : option string;
  caption_html : option string;
  caption_entities : list Entity;
  forward_date : option Z;
  forward_from_chat : option Chat;
  bot_command : option string;
  is_command : bool
}.

Record User := mkUser {
  user_id : Z;
  username : option string;
  first_name : string
}.

Record CallbackQuery := mkCallbackQuery { data : string }.

Record Update := mkUpdate {
  effective_user : User;
  message : option Message;
  callback_query : option CallbackQuery
}.

(** The dictionary [message_data] that [handle_text_message] stores for
    one content block. *)
Record MessageData := mkMessageData {
  md_text : option string;
  md_parse_mode : string;
  md_entities : list Entity;
  md_message_id : Z;
  md_date : Z;
  md_photo : option string;
  md_video : option string;
  md_document : option string;
  md_caption : option (option string);
  md_caption_entities : option (list Entity)
}.

(** A channel record of [db.channels]. *)
Record Channel := mkChannel {
  c_id : Z;
  c_name : option string;
  c_username : option string;
  c_type : string;
  c_admins : list Z;
  c_owner_id : Z;
  c_added_date : Z;
  c_bot_token : option string;
  c_timezone : string
}.

(** A post record of [db.posts].  Its key, the text
    [f"{channel_id}_{timestamp}"], is modelled by the pair it is built
    from. *)
Definition PostId : Type := Z * Z.

Record Post := mkPost {
  p_id : PostId;
  p_channel_id : Z;
  p_user_id : Z;
  p_messages : list MessageData;
  p_sent_messages : list Z;
  p_sent_date : Z;
  p_type : string
}.

(** A user record of [db.users]; every key may be absent. *)
Record UserData := mkUserData {
  u_id : option Z;
  u_username : option (option string);
  u_first_name : option string;
  u_language : option string
}.

Definition empty_user : UserData := mkUserData None None None None.

Inductive ScheduleStatus := pending | fired | missed | cancelled.

(** Modelled from the spec: the value type of [db.scheduled_posts].  The
    source declares the dictionary and never stores anything in it; the
    spec's data model gives a schedule entry a post id, an absolute due
    timestamp and a status. *)
Record ScheduleEntry := mkScheduleEntry {
  se_post_id : PostId;
  se_due : Z;
  se_status : ScheduleStatus
}.

(** [class Database].  [bots] and [subscriptions] are declared and never
    used; their values carry no information. *)
Record Database := mkDatabase {
  users : gmap Z UserData;
  channels : gmap Z Channel;
  posts : gmap PostId Post;
  scheduled_posts : gmap PostId ScheduleEntry;
  bots : gmap Z ();
  subscriptions : gmap Z ()
}.

(** [Database.__init__] *)
Definition Database_init : Database := mkDatabase ∅ ∅ ∅ ∅ ∅ ∅.

(** The value stored under ['replying_to']. *)
Record ReplyContext := mkReplyContext {
  rc_channel_id : Z;
  rc_message_id : Z;
  rc_user_id : Z
}.

(** One user's [context.user_data], by key; [None] is an absent key. *)
Record Session := mkSession {
  adding_channel : option bool;
  creating_post : option bool;
  selected_channel : option Z;
  post_messages : option (list MessageData);
  scheduling_post : option bool;
  replying_to : option ReplyContext
}.

Definition empty_session : Session := mkSession None None None None None None.

(** Truth value of a flag read with [.get]. *)
Definition flag (o : option bool) : bool := default false o.

(** A call made with a channel's bot.  [parse_mode] is [HTML] in every
    call of the source and is left out. *)
Inductive TransportCall :=
| send_photo (token : string) (chat : Z) (file : string)
    (cap : option string) (cap_entities : option (list Entity))
    (reply_to : option Z)
| send_video (token : string) (chat : Z) (file : string)
    (cap : option string) (cap_entities : option (list Entity))
    (reply_to : option Z)
| send_message (token : string) (chat : Z) (body : string)
    (ents : option (list Entity)) (reply_to : option Z).

(** Texts shown to the user.  Computed texts the properties speak about
    are literal; the long static menus and the decorated f-strings are
    named by the place they come from, with the values they interpolate. *)
Inductive Text :=
| Lit (s : string)
| LANG_start
| LANG_channels_add
| help_text
| settings_menu
| choose_language
| your_channels (n : nat)
| channel_added (title uname : option string) (type botname : string)
| creating_post_for (name : option string)
| language_changed (english : bool)
| post_sent (name : option string) (n : nat) (time : Z)
| schedule_prompt
| error_occurred
| reply_prompt.

Inductive UiEvent :=
| reply_text (user : Z) (t : Text)
| edit_message_text (user : Z) (t : Text)
| answer (user : Z) (t : option string) (show_alert : bool)
| logger_error (t : string)
| logger_update_error (e : string).

Record World := mkWorld {
  db : Database;
  user_data : gmap Z Session;
  ui : list UiEvent;
  wire : list TransportCall;
  ticks : nat
}.

(** The state at start-up: an empty database and no session. *)
Definition World_init : World := mkWorld Database_init ∅ [] [] 0.

(** The oracles of the outside world. *)
Record Env := mkEnv {
  clock : nat → Z;
  transport : list TransportCall → TransportCall → string + Z;
  get_chat_member : Z → Z → string + string;
  bot_username : string
}.

(** ** State and exceptions *)

(** The exceptions the handlers meet: a [TelegramError] with its text, the
    [ValueError] of [int] with the text it was given, the [AttributeError]
    of an attribute looked up on [None], the [KeyError] of a missing key,
    and the [TypeError] of an operator with its text. *)
Inductive Exn :=
| TelegramError (msg : string)
| ValueError (literal : string)
| AttributeError (attribute : string)
| KeyError (key : string)
| TypeError (msg : string).

(** [str(e)] *)
Definition exn_str (e : Exn) : string :=
  match e with
  | TelegramError msg => msg
  | ValueError literal =>
      "invalid literal for int() with base 10: '" +:+ literal +:+ "'"
  | AttributeError attribute =>
      "'NoneType' object has no attribute '" +:+ attribute +:+ "'"
  | KeyError key => "'" +:+ key +:+ "'"
  | TypeError msg => msg
  end.

(** The outcome of a computation: a value or a raised exception, with the
    world as the computation left it (mutations made before a raise
    stay). *)
Inductive Res (A : Type) :=
| Ok (a : A) (w : World)
| Raise (e : Exn) (w : World).
Arguments Ok {A} a w.
Arguments Raise {A} e w.

Definition M (A : Type) : Type := World → Res A.

Definition ret {A} (a : A) : M A := λ w, Ok a w.

Definition bind {A B} (c : M A) (k : A → M B) : M B :=
  λ w, match c w with
       | Ok a w' => k a w'
       | Raise e w' => Raise e w'
       end.

Definition raise {A} (e : Exn) : M A := λ w, Raise e w.

Notation "'let*' x ':=' c 'in' k" := (bind c (λ x, k))
  (at level 10, x name, c at level 100, k at level 200).

(** The world a computation ends in, whatever the outcome. *)
Definition world_of {A} (r : Res A) : World :=
  match r with Ok _ w => w | Raise _ w => w end.

Definition read {A} (f : World → A) : M A := λ w, Ok (f w) w.

Definition modify (f : World → World) : M () := λ w, Ok () (f w).

(** [try: body except ...: handler]; [handler e] is [None] for an
    exception the clause does not catch. *)
Definition try_except {A} (body : M A) (handler : Exn → option (M A)) : M A :=
  λ w, match body w with
       | Ok a w' => Ok a w'
       | Raise e w' =>
           match handler e with
           | Some h => h w'
           | None => Raise e w'
           end
       end.

(** [except TelegramError as e] *)
Definition except_TelegramError {A} (h : string → M A) (e : Exn) : option (M A) :=
  match e with
  | TelegramError msg => Some (h msg)
  | _ => None
  end.

(** [except Exception as e] and the bare [except:] *)
Definition except_Exception {A} (h : Exn → M A) (e : Exn) : option (M A) :=
  Some (h e).

(** *** Field updates *)

Definition set_db (d : Database) (w : World) : World :=
  mkWorld d (user_data w) (ui w) (wire w) (ticks w).
Definition set_user_data (u : gmap Z Session) (w : World) : World :=
  mkWorld (db w) u (ui w) (wire w) (ticks w).
Definition set_ui (l : list UiEvent) (w : World) : World :=
  mkWorld (db w) (user_data w) l (wire w) (ticks w).
Definition set_wire (l : list TransportCall) (w : World) : World :=
  mkWorld (db w) (user_data w) (ui w) l (ticks w).
Definition set_ticks (n : nat) (w : World) : World :=
  mkWorld (db w) (user_data w) (ui w) (wire w) n.

Definition set_adding_channel (v : option bool) (s : Session) : Session :=
  mkSession v (creating_post s) (selected_channel s) (post_messages s)
    (scheduling_post s) (replying_to s).
Definition set_creating_post (v : option bool) (s : Session) : Session :=
  mkSession (adding_channel s) v (selected_channel s) (post_messages s)
    (scheduling_post s) (replying_to s).
Definition set_selected_channel (v : option Z) (s : Session) : Session :=
  mkSession (adding_channel s) (creating_post s) v (post_messages s)
    (scheduling_post s) (replying_to s).
Definition set_post_messages (v : option (list MessageData)) (s : Session) : Session :=
  mkSession (adding_channel s) (creating_post s) (selected_channel s) v
    (scheduling_post s) (replying_to s).
Definition set_scheduling_post (v : option bool) (s : Session) : Session :=
  mkSession (adding_channel s) (creating_post s) (selected_channel s)
    (post_messages s) v (replying_to s).
Definition set_replying_to (v : option ReplyContext) (s : Session) : Session :=
  mkSession (adding_channel s) (creating_post s) (selected_channel s)
    (post_messages s) (scheduling_post s) v.

(** *** The database *)

Definition save_user (uid : Z) (d : UserData) (b : Database) : Database :=
  mkDatabase (<[uid := d]> (users b)) (channels b) (posts b)
    (scheduled_posts b) (bots b) (subscriptions b).

Definition get_user (uid : Z) (b : Database) : option UserData := users b !! uid.

Definition save_channel (cid : Z) (d : Channel) (b : Database) : Database :=
  mkDatabase (users b) (<[cid := d]> (channels b)) (posts b)
    (scheduled_posts b) (bots b) (subscriptions b).

Definition get_channel (cid : Z) (b : Database) : option Channel := channels b !! cid.

(** [db.get_channel(channel_id)] where [channel_id] may be [None]. *)
Definition get_channel_opt (cid : option Z) (b : Database) : option Channel :=
  cid ≫= λ c, get_channel c b.

(** The channels a user administers.  The order of the list is that of the
    map's enumeration; only buttons depend on it. *)
Definition get_user_channels (uid : Z) (b : Database) : list Channel :=
  filter (λ c, uid ∈ c_admins c) (snd <$> map_to_list (channels b)).

(** [db.posts[post_id] = post_data] *)
Definition store_post (pid : PostId) (p : Post) (b : Database) : Database :=
  mkDatabase (users b) (channels b) (<[pid := p]> (posts b))
    (scheduled_posts b) (bots b) (subscriptions b).

(** *** Primitive effects *)

(** [context.user_data] of a user: the stored dictionary, empty when the
    user has none yet. *)
Definition session_of (uid : Z) (w : World) : Session :=
  default empty_session (user_data w !! uid).

Definition get_session (uid : Z) : M Session := read (session_of uid).

Definition update_session (uid : Z) (f : Session → Session) : M () :=
  modify (λ w, set_user_data (<[uid := f (session_of uid w)]> (user_data w)) w).

Definition modify_db (f : Database → Database) : M () :=
  modify (λ w, set_db (f (db w)) w).

Definition say (e : UiEvent) : M () :=
  modify (λ w, set_ui (ui w ++ [e]) w).

(** [datetime.now()] *)
Definition now (env : Env) : M Z :=
  λ w, Ok (clock env (ticks w)) (set_ticks (S (ticks w)) w).

(** One call of the channel bot: logged as attempted, then answered by the
    oracle. *)
Definition channel_bot (env : Env) (call : TransportCall) : M Z :=
  λ w, let w' := set_wire (wire w ++ [call]) w in
       match transport env (wire w) call with
       | inr mid => Ok mid w'
       | inl msg => Raise (TelegramError msg) w'
       end.

(** [TelegramBot(token=bot_token)]: the bot is built for a token that
    passes the library's check; [InvalidToken], whose text is "Invalid
    token", is raised for any other. *)
Definition TelegramBot (bot_token : string) : M () :=
  if valid_token bot_token then ret ()
  else raise (TelegramError "Invalid token").

(** [update.message.reply_text(...)] *)
Definition message_reply_text (update : Update) (t : Text) : M () :=
  match message update with
  | Some _ => say (reply_text (user_id (effective_user update)) t)
  | None => raise (AttributeError "reply_text")
  end.

(** [query.answer(...)] with [query = update.callback_query] *)
Definition query_answer (update : Update) (t : option string) (alert : bool) : M () :=
  match callback_query update with
  | Some _ => say (answer (user_id (effective_user update)) t alert)
  | None => raise (AttributeError "answer")
  end.

(** [query.edit_message_text(...)] *)
Definition query_edit_message_text (update : Update) (t : Text) : M () :=
  match callback_query update with
  | Some _ => say (edit_message_text (user_id (effective_user update)) t)
  | None => raise (AttributeError "edit_message_text")
  end.

(** ** The handlers of [TelegramChannelBot] *)

(** Conversation states, [range(10)], and [ConversationHandler.END]. *)
Definition SELECTING_ACTION : Z := 0.
Definition TYPING_CHANNEL : Z := 1.
Definition SELECTING_CHANNEL : Z := 3.
Definition SCHEDULING_POST : Z := 6.
Definition ConversationHandler_END : Z := -1.

Definition uid_of (update : Update) : Z := user_id (effective_user update).

(** How an f-string shows a value that may be [None]. *)
Definition fstr (o : option string) : string := default "None" o.

Definition start (env : Env) (update : Update) : M (option Z) :=
  let user := effective_user update in
  let* stored := read (λ w, get_user (user_id user) (db w)) in
  let user_data := default empty_user stored in
  let user_data :=
    mkUserData (Some (user_id user)) (Some (username user))
      (Some (first_name user)) (Some (default "en" (u_language user_data))) in
  let* _ := modify_db (save_user (user_id user) user_data) in
  let* _ := message_reply_text update LANG_start in
  ret (Some SELECTING_ACTION).

Definition help_command (env : Env) (update : Update) : M (option Z) :=
  let* _ := message_reply_text update help_text in
  ret None.

(** The [TypeError] of [channel_name += ...] on a name that is [None]. *)
Definition name_is_None : Exn :=
  TypeError "unsupported operand type(s) for +=: 'NoneType' and 'str'".

(** The name [new_post] shows for a channel:
    [channel.get('name', 'Unknown Channel')], to which [" (@username)"] is
    added with [+=] when the channel has a username.  A stored record has
    the key ['name']; its value is [None] for a chat without title, and
    [+=] on [None] is a [TypeError]. *)
Definition channel_name_of (channel : Channel) : Exn + option string :=
  match truthy (c_username channel) with
  | Some uname =>
      match c_name channel with
      | Some name => inr (Some (name +:+ " (@" +:+ uname +:+ ")"))
      | None => inl name_is_None
      end
  | None => inr (c_name channel)
  end.

(** The callback data [new_post] gives the button of a channel:
    [f"select_channel_{channel['id']}"]. *)
Definition select_channel_button (channel_id : Z) : string :=
  "select_channel_" +:+ pretty channel_id.

(** A button of an inline keyboard: its text and its callback data. *)
Definition Button : Type := string * string.

(** [for channel in user_channels: ... keyboard.append([...])] *)
Fixpoint channel_buttons (user_channels : list Channel) (keyboard : list Button)
  : M (list Button) :=
  match user_channels with
  | [] => ret keyboard
  | channel :: rest =>
      match channel_name_of channel with
      | inl e => raise e
      | inr channel_name =>
          channel_buttons rest
            (keyboard ++ [("📢 " +:+ fstr channel_name,
                           select_channel_button (c_id channel))])
      end
  end.

Definition new_post (env : Env) (update : Update) : M (option Z) :=
  let user := effective_user update in
  let* user_channels := read (λ w, get_user_channels (user_id user) (db w)) in
  match user_channels with
  | [] =>
      let* _ := message_reply_text update
        (Lit ("There is no added channels yet." +:+ nl +:+ nl +:+
              "Send /addchannel to add a new one.")) in
      ret (Some ConversationHandler_END)
  | _ :: _ =>
      let* keyboard := channel_buttons user_channels [] in
      let keyboard := keyboard ++ [("« Back", "back_to_main")] in
      let* _ := message_reply_text update
        (Lit "Choose a channel to create a new post:") in
      ret (Some SELECTING_CHANNEL)
  end.

Definition add_channel (env : Env) (update : Update) : M (option Z) :=
  let* _ := message_reply_text update LANG_channels_add in
  ret (Some TYPING_CHANNEL).

Definition my_channels (env : Env) (update : Update) : M (option Z) :=
  let user := effective_user update in
  let* user_channels := read (λ w, get_user_channels (user_id user) (db w)) in
  match user_channels with
  | [] =>
      let* _ := message_reply_text update
        (Lit "You don't have any channels yet. Use /addchannel to add one.") in
      ret None
  | _ :: _ =>
      let* _ := message_reply_text update (your_channels (length user_channels)) in
      ret None
  end.

Definition settings (env : Env) (update : Update) : M (option Z) :=
  let* _ := message_reply_text update settings_menu in
  ret None.

Definition change_language (env : Env) (update : Update) : M (option Z) :=
  let* _ := message_reply_text update choose_language in
  ret None.

(** [chat_member.status not in ['creator', 'administrator']] *)
Definition is_admin_status (status : string) : bool :=
  bool_decide (status ∈ ["creator"; "administrator"]).

Definition handle_forwarded_message (env : Env) (update : Update) : M (option Z) :=
  let user := effective_user update in
  let* session := get_session (user_id user) in
  if negb (flag (adding_channel session)) then ret None else
  match message update with
  | None => raise (AttributeError "forward_from_chat")
  | Some message =>
      match forward_from_chat message with
      | None => ret None
      | Some chat =>
          if negb (bool_decide (chat_type chat ∈ ["channel"; "group"])) then ret None else
          match get_chat_member env (chat_id chat) (user_id user) with
          | inl _ =>
              let* _ := message_reply_text update
                (Lit "Unable to verify your admin status. Please make sure the bot is added as admin.") in
              ret None
          | inr status =>
              if negb (is_admin_status status) then
                let* _ := message_reply_text update
                  (Lit "You aren't an administrator in this channel.") in
                ret None
              else
                let* added_date := now env in
                let channel_data :=
                  {| c_id := chat_id chat;
                     c_name := chat_title chat;
                     c_username := chat_username chat;
                     c_type := chat_type chat;
                     c_admins := [user_id user];
                     c_owner_id := user_id user;
                     c_added_date := added_date;
                     c_bot_token := None;
                     c_timezone := "UTC" |} in
                let* _ := modify_db (save_channel (chat_id chat) channel_data) in
                let* _ := message_reply_text update
                  (channel_added (chat_title chat) (chat_username chat)
                     (chat_type chat) (bot_username env)) in
                let* _ := update_session (user_id user) (set_adding_channel None) in
                ret None
          end
      end
  end.

(** One line of the preview for the [i]-th block, appended to the text
    built so far; a block with neither text nor media adds nothing. *)
Definition preview_item (i : nat) (msg : MessageData) (preview_text : string) : string :=
  match truthy (md_text msg) with
  | Some t =>
      let text_preview :=
        if (100 <? String.length t)%nat then py_take 100 t +:+ "..." else t in
      preview_text +:+ pretty i +:+ ". 📝 " +:+ text_preview +:+ nl
  | None =>
      match truthy (md_photo msg) with
      | Some _ => preview_text +:+ pretty i +:+ ". 📷 Photo with caption" +:+ nl
      | None =>
          match truthy (md_video msg) with
          | Some _ => preview_text +:+ pretty i +:+ ". 🎥 Video with caption" +:+ nl
          | None =>
              match truthy (md_document msg) with
              | Some _ =>
                  preview_text +:+ pretty i +:+ ". 📄 Document with caption" +:+ nl
              | None => preview_text
              end
          end
      end
  end.

(** [for i, msg in enumerate(msgs, i): ...] *)
Fixpoint preview_loop (i : nat) (msgs : list MessageData) (preview_text : string) : string :=
  match msgs with
  | [] => preview_text
  | msg :: rest => preview_loop (S i) rest (preview_item i msg preview_text)
  end.

(** The text [show_post_preview] computes. *)
Definition preview_of (channel : option Channel) (post_messages : list MessageData) : string :=
  match post_messages with
  | [] => "No content added yet. Send me messages to build your post."
  | _ :: _ =>
      let preview_text := "📋 <b>Post Preview</b>" +:+ nl +:+ nl in
      let preview_text :=
        preview_text +:+ "<b>Channel:</b> " +:+
        match channel with
        | Some c => fstr (c_name c)
        | None => "Not selected"
        end +:+ nl in
      let preview_text :=
        preview_text +:+ "<b>Messages:</b> " +:+
        pretty (length post_messages) +:+ nl +:+ nl in
      let preview_text := preview_loop 1 (take 3 post_messages) preview_text in
      if (3 <? length post_messages)%nat then
        preview_text +:+ nl +:+ "... and " +:+
        pretty (length post_messages - 3)%nat +:+ " more messages"
      else preview_text
  end.

(** [db.get_channel(channel_id) if channel_id else None]: the id [0] counts
    as no id. *)
Definition get_channel_if (channel_id : option Z) (b : Database) : option Channel :=
  match channel_id with
  | Some cid => if bool_decide (cid = 0%Z) then None else get_channel cid b
  | None => None
  end.

Definition show_post_preview (env : Env) (update : Update) (is_callback : bool) : M (option Z) :=
  let* session := get_session (uid_of update) in
  let post_messages := default [] (post_messages session) in
  let channel_id := selected_channel session in
  let* channel := read (λ w, get_channel_if channel_id (db w)) in
  let text := preview_of channel post_messages in
  let* _ :=
    if is_callback then query_edit_message_text update (Lit text)
    else message_reply_text update (Lit text) in
  ret None.

(** [message.photo[-1].file_id] *)
Definition largest_photo (sizes : list string) : option string := last sizes.

(** The dictionary [message_data] built for an incoming message: text and
    entities as received, then the media reference, caption and caption
    entities of the first of photo, video, document that is present. *)
Definition message_data_of (message : Message) (date : Z) : MessageData :=
  let message_text := or_else (text_html message) (text_markdown message) in
  let parse_mode :=
    match truthy (text_html message) with
    | Some _ => "HTML"
    | None => "Markdown"
    end in
  let media_caption := or_else (caption_html message) (caption message) in
  let plain (p v d : option string) (c : option (option string))
      (ce : option (list Entity)) : MessageData :=
    {| md_text := message_text;
       md_parse_mode := parse_mode;
       md_entities := entities message;
       md_message_id := message_id message;
       md_date := date;
       md_photo := p;
       md_video := v;
       md_document := d;
       md_caption := c;
       md_caption_entities := ce |} in
  match largest_photo (photo message) with
  | Some file_id =>
      plain (Some file_id) None None (Some media_caption)
        (Some (caption_entities message))
  | None =>
      match video message with
      | Some file_id =>
          plain None (Some file_id) None (Some media_caption)
            (Some (caption_entities message))
      | None =>
          match document message with
          | Some file_id =>
              plain None None (Some file_id) (Some media_caption)
                (Some (caption_entities message))
          | None => plain None None None None None
          end
      end
  end.

(** [context.user_data['post_messages'].append(message_data)] *)
Definition append_block (message_data : MessageData) (s : Session) : Session :=
  set_post_messages (Some (default [] (post_messages s) ++ [message_data])) s.

Definition handle_text_message (env : Env) (update : Update) : M (option Z) :=
  let user := effective_user update in
  let* session := get_session (user_id user) in
  if negb (flag (creating_post session)) then ret None else
  let channel_id := selected_channel session in
  let* channel := read (λ w, get_channel_opt channel_id (db w)) in
  match channel with
  | None =>
      let* _ := message_reply_text update (Lit "Channel not found.") in
      ret None
  | Some _ =>
      let* _ :=
        match post_messages session with
        | None => update_session (user_id user) (set_post_messages (Some []))
        | Some _ => ret ()
        end in
      match message update with
      | None => raise (AttributeError "text_html")
      | Some message =>
          let* date := now env in
          let message_data := message_data_of message date in
          let* _ := update_session (user_id user) (append_block message_data) in
          show_post_preview env update false
      end
  end.

(** The transport call the sending loop makes for one block, [None] for a
    block the loop passes over with [continue]. *)
Definition block_call (bot_token : string) (channel_id : Z) (msg_data : MessageData)
  : option TransportCall :=
  match truthy (md_photo msg_data) with
  | Some file_id =>
      Some (send_photo bot_token channel_id file_id
              (default (Some "") (md_caption msg_data))
              (md_caption_entities msg_data) None)
  | None =>
      match truthy (md_video msg_data) with
      | Some file_id =>
          Some (send_video bot_token channel_id file_id
                  (default (Some "") (md_caption msg_data))
                  (md_caption_entities msg_data) None)
      | None =>
          match truthy (md_text msg_data) with
          | Some t =>
              Some (send_message bot_token channel_id t
                      (Some (md_entities msg_data)) None)
          | None => None
          end
      end
  end.

(** The body of the loop over [post_messages]: the block is sent and the id
    of the sent message appended to the local list [sent_messages]. *)
Definition send_block (env : Env) (bot_token : string) (channel_id : Z)
    (msg_data : MessageData) (sent_messages : list Z) : M (list Z) :=
  match block_call bot_token channel_id msg_data with
  | Some call =>
      let* sent_msg := channel_bot env call in
      ret (sent_messages ++ [sent_msg])
  | None => ret sent_messages
  end.

(** [for msg_data in post_messages: ...] *)
Fixpoint send_loop (env : Env) (bot_token : string) (channel_id : Z)
    (post_messages : list MessageData) (sent_messages : list Z) : M (list Z) :=
  match post_messages with
  | [] => ret sent_messages
  | msg_data :: rest =>
      let* sent_messages := send_block env bot_token channel_id msg_data sent_messages in
      send_loop env bot_token channel_id rest sent_messages
  end.

(** The three [pop]s that clear the post from the session. *)
Definition clear_post_data (s : Session) : Session :=
  set_creating_post None (set_selected_channel None (set_post_messages None s)).

(** What follows the loop: the post record is stored, the user is told,
    the post is cleared from the session. *)
Definition record_and_report (env : Env) (update : Update) (channel_id : Z)
    (channel : Channel) (post_messages : list MessageData) (sent_messages : list Z)
  : M (option Z) :=
  let* stamp := now env in
  let post_id : PostId := (channel_id, stamp) in
  let* sent_date := now env in
  let post_data :=
    {| p_id := post_id;
       p_channel_id := channel_id;
       p_user_id := uid_of update;
       p_messages := post_messages;
       p_sent_messages := sent_messages;
       p_sent_date := sent_date;
       p_type := "instant" |} in
  let* _ := modify_db (store_post post_id post_data) in
  let* time := now env in
  let* _ := query_edit_message_text update
    (post_sent (c_name channel) (length sent_messages) time) in
  let* _ := update_session (uid_of update) clear_post_data in
  ret None.

(** [except TelegramError as e:] of [send_post_to_channel] *)
Definition report_error (update : Update) (e : string) : M (option Z) :=
  let* _ := say (logger_error ("Error sending post: " +:+ e)) in
  let* _ := query_answer update (Some ("Error sending post: " +:+ e)) true in
  ret None.

Definition send_post_to_channel (env : Env) (update : Update) : M (option Z) :=
  let* session := get_session (uid_of update) in
  let channel_id := selected_channel session in
  let* channel := read (λ w, get_channel_opt channel_id (db w)) in
  let post_messages := default [] (post_messages session) in
  match channel_id, channel with
  | Some channel_id, Some channel =>
      match post_messages with
      | [] =>
          let* _ := query_answer update (Some "No content to send.") true in
          ret None
      | _ :: _ =>
          try_except
            (match truthy (c_bot_token channel) with
             | None =>
                 let* _ := query_answer update
                   (Some "No bot connected to this channel. Please add a bot first.")
                   true in
                 ret None
             | Some bot_token =>
                 let* _ := TelegramBot bot_token in
                 let* sent_messages :=
                   send_loop env bot_token channel_id post_messages [] in
                 record_and_report env update channel_id channel post_messages
                   sent_messages
             end)
            (except_TelegramError (report_error update))
      end
  | _, _ =>
      let* _ := query_answer update (Some "Channel not found.") true in
      ret None
  end.

Definition schedule_post (env : Env) (update : Update) : M (option Z) :=
  let* _ := query_edit_message_text update schedule_prompt in
  let* _ := update_session (uid_of update) (set_scheduling_post (Some true)) in
  ret (Some SCHEDULING_POST).

Definition show_main_menu (env : Env) (update : Update) : M (option Z) :=
  let* _ := query_edit_message_text update LANG_start in
  ret None.

Definition handle_callback (env : Env) (update : Update) : M (option Z) :=
  let user := effective_user update in
  let* _ := query_answer update None false in
  match callback_query update with
  | None => raise (AttributeError "data")
  | Some query =>
      let data := data query in
      if String.eqb data "back_to_main" then
        show_main_menu env update
      else if String.prefix "select_channel_" data then
        let literal := default "" (last (split_on "_" data)) in
        match py_int literal with
        | None => raise (ValueError literal)
        | Some channel_id =>
            let* _ := update_session (user_id user)
              (set_selected_channel (Some channel_id)) in
            let* _ := update_session (user_id user) (set_creating_post (Some true)) in
            let* channel := read (λ w, get_channel channel_id (db w)) in
            match channel with
            | Some channel =>
                let* _ := query_edit_message_text update
                  (creating_post_for (c_name channel)) in
                ret None
            | None => ret None
            end
        end
      else if String.eqb data "post_preview" then
        let* _ := show_post_preview env update true in ret None
      else if String.eqb data "send_post" then
        let* _ := send_post_to_channel env update in ret None
      else if String.eqb data "schedule_post" then
        let* _ := schedule_post env update in ret None
      else if String.prefix "lang_" data then
        let lang := default "" (split_on "_" data !! 1%nat) in
        let* stored := read (λ w, get_user (user_id user) (db w)) in
        let user_data := default empty_user stored in
        let user_data :=
          mkUserData (u_id user_data) (u_username user_data)
            (u_first_name user_data) (Some lang) in
        let* _ := modify_db (save_user (user_id user) user_data) in
        let* _ := query_edit_message_text update
          (language_changed (String.eqb lang "en")) in
        ret None
      else ret None
  end.

(** [update.effective_message]: the message of the update or the message
    the pressed button belongs to. *)
Definition has_effective_message (update : Update) : bool :=
  bool_decide (is_Some (message update)) ||
  bool_decide (is_Some (callback_query update)).

Definition error_handler (env : Env) (update : Update) (error : Exn) : M () :=
  let* _ := say (logger_update_error (exn_str error)) in
  if has_effective_message update
  then say (reply_text (uid_of update) error_occurred)
  else ret ().

(** ** [ReplyManager] *)

Definition handle_reply (env : Env) (update : Update) (channel_id message_id : Z)
  : M (option Z) :=
  let user := effective_user update in
  let* _ := update_session (user_id user)
    (set_replying_to (Some (mkReplyContext channel_id message_id (user_id user)))) in
  let* _ := query_edit_message_text update reply_prompt in
  ret None.

(** The [media] dictionary of a reply; [media_other] tells whether it has
    keys besides the two the code reads. *)
Record Media := mkMedia {
  media_photo : option string;
  media_video : option string;
  media_other : bool
}.

(** Truth value of the dictionary: it has some key. *)
Definition media_truthy (m : Media) : bool :=
  bool_decide (is_Some (media_photo m)) || bool_decide (is_Some (media_video m)) || media_other m.

Record ReplyData := mkReplyData {
  rd_channel_id : option Z;
  rd_user_id : option Z;
  rd_text : option string;
  rd_media : option Media
}.

Definition send_reply (env : Env) (reply_data : ReplyData) (original_message_id : Z)
  : M bool :=
  try_except
    (match rd_channel_id reply_data with
     | None => raise (KeyError "channel_id")
     | Some channel_id =>
         match rd_user_id reply_data with
         | None => raise (KeyError "user_id")
         | Some _ =>
             let message_text := default "" (rd_text reply_data) in
             let* channel := read (λ w, get_channel channel_id (db w)) in
             match channel ≫= λ c, truthy (c_bot_token c) with
             | None => ret false
             | Some bot_token =>
                 let* _ := TelegramBot bot_token in
                 let text_reply :=
                   let* _ := channel_bot env
                     (send_message bot_token channel_id message_text None
                        (Some original_message_id)) in
                   ret true in
                 match rd_media reply_data with
                 | Some media =>
                     if media_truthy media then
                       match truthy (media_photo media) with
                       | Some file_id =>
                           let* _ := channel_bot env
                             (send_photo bot_token channel_id file_id
                                (Some message_text) None (Some original_message_id)) in
                           ret true
                       | None =>
                           match truthy (media_video media) with
                           | Some file_id =>
                               let* _ := channel_bot env
                                 (send_video bot_token channel_id file_id
                                    (Some message_text) None
                                    (Some original_message_id)) in
                               ret true
                           | None => ret true
                           end
                       end
                     else text_reply
                 | None => text_reply
                 end
             end
         end
     end)
    (except_Exception (λ e,
       let* _ := say (logger_error ("Error sending reply: " +:+ exn_str e)) in
       ret false)).

(** ** The dispatcher ([setup_handlers]) *)

Definition Handler : Type := Env → Update → M (option Z).

(** The command handlers, in the order they are registered. *)
Definition command_handler (command : string) : option Handler :=
  if String.eqb command "start" then Some start
  else if String.eqb command "help" then Some help_command
  else if String.eqb command "newpost" then Some new_post
  else if String.eqb command "addchannel" then Some add_channel
  else if String.eqb command "mychannels" then Some my_channels
  else if String.eqb command "settings" then Some settings
  else if String.eqb command "lang" then Some change_language
  else None.

(** The first registered handler that accepts the update. *)
Definition handler_for (update : Update) : option Handler :=
  match message update with
  | Some m =>
      match bot_command m ≫= command_handler with
      | Some h => Some h
      | None =>
          if bool_decide (is_Some (forward_date m)) then Some handle_forwarded_message
          else if bool_decide (is_Some (truthy (text m))) && negb (is_command m)
          then Some handle_text_message
          else None
      end
  | None =>
      match callback_query update with
      | Some _ => Some handle_callback
      | None => None
      end
  end.

(** One update through the dispatcher: the handler runs and an exception
    it raises goes to [error_handler]. *)
Definition dispatch (env : Env) (update : Update) : M () :=
  match handler_for update with
  | Some h =>
      try_except (let* _ := h env update in ret ())
        (except_Exception (error_handler env update))
  | None => ret ()
  end.

(** The bot's life: the updates of a run, one after the other. *)
Fixpoint run_bot (env : Env) (updates : list Update) (w : World) : World :=
  match updates with
  | [] => w
  | u :: rest => run_bot env rest (world_of (dispatch env u w))
  end.

(** Every function of the program that touches the state, with its
    arguments: the registered handlers, the functions they call, the two
    state-touching methods of [ReplyManager], and the dispatcher itself. *)
Inductive Operation :=
| op_start (u : Update)
| op_help_command (u : Update)
| op_new_post (u : Update)
| op_add_channel (u : Update)
| op_my_channels (u : Update)
| op_settings (u : Update)
| op_change_language (u : Update)
| op_handle_forwarded_message (u : Update)
| op_handle_text_message (u : Update)
| op_handle_callback (u : Update)
| op_show_main_menu (u : Update)
| op_show_post_preview (u : Update) (is_callback : bool)
| op_send_post_to_channel (u : Update)
| op_schedule_post (u : Update)
| op_error_handler (u : Update) (error : Exn)
| op_handle_reply (u : Update) (channel_id message_id : Z)
| op_send_reply (reply_data : ReplyData) (original_message_id : Z)
| op_dispatch (u : Update).

(** The world an operation leaves behind. *)
Definition perform (env : Env) (op : Operation) (w : World) : World :=
  match op with
  | op_start u => world_of (start env u w)
  | op_help_command u => world_of (help_command env u w)
  | op_new_post u => world_of (new_post env u w)
  | op_add_channel u => world_of (add_channel env u w)
  | op_my_channels u => world_of (my_channels env u w)
  | op_settings u => world_of (settings env u w)
  | op_change_language u => world_of (change_language env u w)
  | op_handle_forwarded_message u => world_of (handle_forwarded_message env u w)
  | op_handle_text_message u => world_of (handle_text_message env u w)
  | op_handle_callback u => world_of (handle_callback env u w)
  | op_show_main_menu u => world_of (show_main_menu env u w)
  | op_show_post_preview u c => world_of (show_post_preview env u c w)
  | op_send_post_to_channel u => world_of (send_post_to_channel env u w)
  | op_schedule_post u => world_of (schedule_post env u w)
  | op_error_handler u e => world_of (error_handler env u e w)
  | op_handle_reply u c m => world_of (handle_reply env u c m w)
  | op_send_reply r m => world_of (send_reply env r m w)
  | op_dispatch u => world_of (dispatch env u w)
  end.

(** ** Sample data *)

Module Samples.

Definition alice : User := mkUser 1 (Some "alice") "Alice".
Definition bob : User := mkUser 2 (Some "bob") "Bob".

(** A transport that accepts every call; the id of the [n]-th call is
    [100 + n]. *)
Definition accept_all (history : list TransportCall) (call : TransportCall)
  : string + Z := inr (100 + Z.of_nat (length history))%Z.

(** A transport that refuses the call made after [k] earlier ones. *)
Definition refuse_at (k : nat) (history : list TransportCall) (call : TransportCall)
  : string + Z :=
  if bool_decide (length history = k) then inl "Timed out"
  else inr (100 + Z.of_nat (length history))%Z.

Definition everyone_admin (chat user : Z) : string + string := inr "administrator".

Definition env_ok : Env :=
  mkEnv (λ n, 1000 + Z.of_nat n)%Z accept_all everyone_admin "controller_bot".

Definition env_refuse_at (k : nat) : Env :=
  mkEnv (λ n, 1000 + Z.of_nat n)%Z (refuse_at k) everyone_admin "controller_bot".

Definition text_block (s : string) : MessageData :=
  mkMessageData (Some s) "HTML" [] 7 1000 None None None None None.

Definition photo_block (file_id : string) : MessageData :=
  mkMessageData None "Markdown" [] 8 1000 (Some file_id) None None
    (Some (Some "a caption")) (Some []).

Definition video_block (file_id : string) : MessageData :=
  mkMessageData None "Markdown" [] 9 1000 None (Some file_id) None
    (Some None) (Some []).

Definition document_block (file_id : string) : MessageData :=
  mkMessageData None "Markdown" [] 10 1000 None None (Some file_id)
    (Some (Some "the report")) (Some []).

Definition news_id : Z := (-1001)%Z.

Definition news (bot_token : option string) : Channel :=
  mkChannel news_id (Some "News") (Some "news") "channel" [1%Z] 1 900
    bot_token "UTC".

(** A world where the channel [news] is registered and Alice composes a
    post of the given blocks for it. *)
Definition composing (bot_token : option string) (blocks : list MessageData) : World :=
  mkWorld
    (save_channel news_id (news bot_token) Database_init)
    {[ 1%Z := mkSession None (Some true) (Some news_id) (Some blocks) None None ]}
    [] [] 0.

Definition bold : Entity := mkEntity "bold" 0 5.

Definition text_message (mid : Z) (s : string) : Message :=
  mkMessage mid (Some s) (Some s) (Some s) [bold] [] None None None None []
    None None None false.

Definition document_message (mid : Z) (file_id : string) : Message :=
  mkMessage mid None None None [] [] None (Some file_id) (Some "the report")
    (Some "<b>the</b> report") [bold] None None None false.

Definition sticker_message (mid : Z) : Message :=
  mkMessage mid None None None [] [] None None None None [] None None None false.

Definition news_chat : Chat := mkChat news_id (Some "News") (Some "news") "channel".

Definition forwarded_from (c : Chat) : Message :=
  mkMessage 5 (Some "hello") (Some "hello") (Some "hello") [] [] None None None
    None [] (Some 950%Z) (Some c) None false.

Definition says (u : User) (m : Message) : Update := mkUpdate u (Some m) None.

Definition presses (u : User) (button : string) : Update :=
  mkUpdate u None (Some (mkCallbackQuery button)).

(** A world where the given users are in channel-adding mode. *)
Definition adding (uids : list Z) : World :=
  mkWorld Database_init
    (list_to_map ((λ u, (u, set_adding_channel (Some true) empty_session)) <$> uids))
    [] [] 0.

End Samples.

(** ** Notions the properties are stated with *)

(** The calls the sending loop makes for a list of blocks when no call
    fails: one per block that has one, in the order of the blocks. *)
Definition calls_of (bot_token : string) (channel_id : Z) (blocks : list MessageData)
  : list TransportCall := omap (block_call bot_token channel_id) blocks.

(** The calls added to the transport log between two worlds. *)
Definition calls_made (before after : World) : list TransportCall :=
  drop (length (wire before)) (wire after).

(** A delivery requested by [update] in [w] reaches the sending loop: the
    session names a registered channel that has a bot token, the bot can
    be built from the token, and the session holds the blocks [blocks]. *)
Definition delivering (update : Update) (w : World) (channel_id : Z)
    (channel : Channel) (bot_token : string) (blocks : list MessageData) : Prop :=
  selected_channel (session_of (uid_of update) w) = Some channel_id ∧
  get_channel channel_id (db w) = Some channel ∧
  truthy (c_bot_token channel) = Some bot_token ∧
  valid_token bot_token = true ∧
  post_messages (session_of (uid_of update) w) = Some blocks ∧
  blocks ≠ [].

(** A transport that accepts every call. *)
Definition accepting (env : Env) : Prop :=
  ∀ history call, ∃ mid, transport env history call = inr mid.

(** The store holds some post record. *)
Definition post_recorded (w : World) : Prop :=
  ∃ pid p, posts (db w) !! pid = Some p.

(** The resume rule: after a first delivery that got the first [K] blocks
    through, a delivery from [w1] makes calls for the later blocks only. *)
Definition resumes_after (K : nat) (env : Env) (update : Update) (w1 : World)
    (bot_token : string) (channel_id : Z) (blocks : list MessageData) : Prop :=
  calls_made w1 (world_of (send_post_to_channel env update w1))
  = calls_of bot_token channel_id (drop K blocks).

(** The per-block persistence rule: wherever the loop stands after some
    sends, the store holds a post record whose delivered ids are the ids
    obtained so far. *)
Definition persisted_after_each_send (env : Env) (bot_token : string)
    (channel_id : Z) (blocks : list MessageData) (w : World) : Prop :=
  ∀ k sent wk,
    send_loop env bot_token channel_id (take k blocks) [] w = Ok sent wk →
    sent ≠ [] →
    ∃ pid p, posts (db wk) !! pid = Some p ∧ p_sent_messages p = sent.

(** The store holds a pending schedule entry due at [due]. *)
Definition scheduled_for (due : Z) (w : World) : Prop :=
  ∃ pid e, scheduled_posts (db w) !! pid = Some e ∧
           se_status e = pending ∧ se_due e = due.

(** The merge rule for a repeated claim of channel [cid] by [claimant]:
    the owner and the admins recorded before stay, and the claimant is
    among the admins. *)
Definition claim_keeps_owner (before after : Database) (cid claimant : Z) : Prop :=
  ∀ ch, get_channel cid before = Some ch →
    ∃ ch', get_channel cid after = Some ch' ∧
           c_owner_id ch' = c_owner_id ch ∧
           claimant ∈ c_admins ch' ∧
           c_admins ch ⊆ c_admins ch'.

(** [s] occurs in [t]. *)
Fixpoint infixb (s t : string) : bool :=
  String.prefix s t ||
  match t with
  | EmptyString => false
  | String _ t' => infixb s t'
  end.

(** A preview text reports the block count [n]: the decimal numeral of [n]
    occurs in it. *)
Definition reports_count (n : nat) (preview : string) : bool :=
  infixb (pretty n) preview.

(** A block the preview has a line for. *)
Definition renderable (msg : MessageData) : bool :=
  bool_decide (is_Some (truthy (md_text msg))) ||
  bool_decide (is_Some (truthy (md_photo msg))) ||
  bool_decide (is_Some (truthy (md_video msg))) ||
  bool_decide (is_Some (truthy (md_document msg))).

(** The preview as the specification words it, for the blocks
    [post_messages] of a session: the number of blocks, one line for each
    of the first three blocks in arrival order, numbered from 1, and the
    number of the blocks left over when there are more than three. *)
Definition preview_spec (channel : option Channel) (post_messages : list MessageData)
  : string :=
  let N := length post_messages in
  "📋 <b>Post Preview</b>" +:+ nl +:+ nl +:+
  "<b>Channel:</b> " +:+
  match channel with Some c => fstr (c_name c) | None => "Not selected" end +:+ nl +:+
  "<b>Messages:</b> " +:+ pretty N +:+ nl +:+ nl +:+
  foldr String.append ""
    (imap (λ i msg, preview_item (S i) msg "") (take (N `min` 3) post_messages)) +:+
  (if (3 <? N)%nat then nl +:+ "... and " +:+ pretty (N - 3)%nat +:+ " more messages"
   else "").

(** The blocks of a session. *)
Definition blocks_of (s : Session) : list MessageData :=
  default [] (post_messages s).

(** The composer took one block more: the session's block list grew by
    exactly one block at its end. *)
Definition appended_one (before after : Session) : Prop :=
  ∃ block, blocks_of after = blocks_of before ++ [block].

(** The channel the session selects, as [handle_text_message] looks it
    up. *)
Definition selected_channel_record (uid : Z) (w : World) : option Channel :=
  get_channel_opt (selected_channel (session_of uid w)) (db w).

(** One user sends the messages [ms], one after the other, and each goes
    to [handle_text_message]. *)
Fixpoint handle_text_messages (env : Env) (user : User) (ms : list Message)
    (w : World) : World :=
  match ms with
  | [] => w
  | m :: rest =>
      handle_text_messages env user rest
        (world_of (handle_text_message env (mkUpdate user (Some m) None) w))
  end.

(** A computation keeps the relation [R] between the world it starts in
    and the world it ends in, whatever its outcome. *)
Definition keeps (R : World → World → Prop) {A} (c : M A) : Prop :=
  ∀ w, R w (world_of (c w)).

(** What no step of the program goes beyond, from [w] to [w']: a session's
    ['adding_channel'] entry stays as it is or is removed, and the channel
    registry stays as it is when no session has the flag set in [w]. *)
Definition flag_frame (w w' : World) : Prop :=
  (∀ uid, adding_channel (session_of uid w') = adding_channel (session_of uid w) ∨
          adding_channel (session_of uid w') = None) ∧
  ((∀ uid, flag (adding_channel (session_of uid w)) = false) →
   channels (db w') = channels (db w)).

(** ** The buttons the program offers *)

(** The callback data of the keyboard [new_post] builds: one button per
    channel of the user, then "Back". *)
Definition new_post_keyboard (user_channels : list Channel) : list string :=
  (select_channel_button ∘ c_id <$> user_channels) ++ ["back_to_main"].

(** A channel [new_post] can name: it has a name, or no username to add
    to it. *)
Definition nameable (channel : Channel) : bool :=
  bool_decide (is_Some (c_name channel)) ||
  negb (bool_decide (is_Some (truthy (c_username channel)))).

(** The callback data of [get_main_menu_keyboard], row by row. *)
Definition get_main_menu_keyboard : list (list string) :=
  [["create_post"]; ["my_channels"]; ["scheduled_posts"]; ["statistics"];
   ["settings"]; ["help"]].

(** The callback data of [get_post_creation_keyboard], row by row. *)
Definition get_post_creation_keyboard : list (list string) :=
  [["add_media"; "add_buttons"]; ["post_preview"; "clear_post"];
   ["schedule_post"; "send_post"]; ["back_to_main"]].

(** The callback data of the keyboard of [settings]. *)
Definition settings_keyboard : list (list string) :=
  [["change_language"]; ["manage_bots"]; ["post_settings"]; ["back_to_main"]].

(** The callback data of the keyboard [my_channels] builds. *)
Definition my_channels_keyboard (user_channels : list Channel) : list string :=
  ((λ c, "manage_channel_" +:+ pretty (c_id c)) <$> user_channels)
  ++ ["back_to_main"].

(** The callback data of [ReplyManager.create_reply_keyboard], row by
    row. *)
Definition create_reply_keyboard (channel_id message_id : Z) : list (list string) :=
  let target := pretty channel_id +:+ "_" +:+ pretty message_id in
  [["reply_" +:+ target; "forward_" +:+ target];
   ["stats_" +:+ target; "edit_" +:+ target]].

(** A button press of [user] with the callback data [button]. *)
Definition press (user : User) (button : string) : Update :=
  mkUpdate user None (Some (mkCallbackQuery button)).

(** The characters of a decimal numeral: the digits and the minus sign. *)
Definition numeral_char (c : ascii) : bool := is_digit c || Ascii.eqb c "-"%char.

(** Nothing is registered and no session is adding a channel. *)
Definition idle (w : World) : Prop :=
  channels (db w) = ∅ ∧
  ∀ uid, flag (adding_channel (session_of uid w)) = false.

(** What no step of the program goes beyond, from [w] to [w']: it stays
    within [flag_frame], and from an idle world it makes no transport call,
    stores no post and leaves the blocks of every session as they are. *)
Definition idle_frame (w w' : World) : Prop :=
  flag_frame w w' ∧
  (idle w →
   wire w' = wire w ∧
   posts (db w') = posts (db w) ∧
   ∀ uid, post_messages (session_of uid w') = post_messages (session_of uid w)).

(** The bot token, the chat and the message replied to of a transport
    call. *)
Definition call_token (call : TransportCall) : string :=
  match call with
  | send_photo token _ _ _ _ _ | send_video token _ _ _ _ _
  | send_message token _ _ _ _ => token
  end.

Definition call_chat (call : TransportCall) : Z :=
  match call with
  | send_photo _ chat _ _ _ _ | send_video _ chat _ _ _ _
  | send_message _ chat _ _ _ => chat
  end.

Definition call_reply_to (call : TransportCall) : option Z :=
  match call with
  | send_photo _ _ _ _ _ reply_to | send_video _ _ _ _ _ reply_to
  | send_message _ _ _ _ reply_to => reply_to
  end.

(** The one call [send_reply] makes for a reply, if any: the photo or the
    video of a non-empty [media] dictionary with the text as caption,
    nothing for a non-empty [media] with neither, and else the text. *)
Definition reply_call (bot_token : string) (channel_id : Z) (reply_data : ReplyData)
    (original_message_id : Z) : option TransportCall :=
  let message_text := default "" (rd_text reply_data) in
  let text_reply :=
    Some (send_message bot_token channel_id message_text None
            (Some original_message_id)) in
  match rd_media reply_data with
  | Some media =>
      if media_truthy media then
        match truthy (media_photo media) with
        | Some file_id =>
            Some (send_photo bot_token channel_id file_id (Some message_text) None
                    (Some original_message_id))
        | None =>
            match truthy (media_video media) with
            | Some file_id =>
                Some (send_video bot_token channel_id file_id (Some message_text)
                        None (Some original_message_id))
            | None => None
            end
        end
      else text_reply
  | None => text_reply
  end.

(** The callback data some case of [handle_callback] is written for. *)
Definition handled (data : string) : bool :=
  String.eqb data "back_to_main" || String.prefix "select_channel_" data ||
  String.eqb data "post_preview" || String.eqb data "send_post" ||
  String.eqb data "schedule_post" || String.prefix "lang_" data.

(** What no update does to a session, from [s] to [s']: the
    ['scheduling_post'] entry stays as it is or becomes [True], and the
    ['replying_to'] entry stays as it is. *)
Definition leftover (s s' : Session) : Prop :=
  (scheduling_post s' = scheduling_post s ∨ scheduling_post s' = Some true) ∧
  replying_to s' = replying_to s.

(** [leftover] for every session of two worlds. *)
Definition leftover_frame (w w' : World) : Prop :=
  ∀ uid, leftover (session_of uid w) (session_of uid w').

(** * Properties *)

(** ** The monad and the world *)

Lemma set_wire_same (w : World) : set_wire (wire w) w = w.
Proof. by destruct w. Qed.

Lemma set_wire_twice (l l' : list TransportCall) (w : World) :
  set_wire l' (set_wire l w) = set_wire l' w.
Proof. by destruct w. Qed.

Lemma session_of_update_same (uid : Z) (f : Session → Session) (w : World) :
  session_of uid (set_user_data (<[uid := f (session_of uid w)]> (user_data w)) w)
  = f (session_of uid w).
Proof. unfold session_of; simpl. by rewrite lookup_insert_eq. Qed.

Lemma session_of_update_other (uid uid' : Z) (s : Session) (w : World) :
  uid ≠ uid' →
  session_of uid' (set_user_data (<[uid := s]> (user_data w)) w) = session_of uid' w.
Proof. intros Hne. unfold session_of; simpl. by rewrite lookup_insert_ne. Qed.

Lemma session_of_insert_same (uid : Z) (s : Session) (u : gmap Z Session) (w : World) :
  session_of uid (set_user_data (<[uid := s]> u) w) = s.
Proof. unfold session_of; simpl. by rewrite lookup_insert_eq. Qed.

Lemma session_of_set_ticks (uid : Z) (n : nat) (w : World) :
  session_of uid (set_ticks n w) = session_of uid w.
Proof. reflexivity. Qed.

(** ** The sending loop *)

Section SendLoop.
Context (env : Env) (bot_token : string) (channel_id : Z).

Local Abbreviation loop := (send_loop env bot_token channel_id).
Local Abbreviation calls := (calls_of bot_token channel_id).

Lemma calls_of_cons (msg : MessageData) (rest : list MessageData) :
  calls (msg :: rest)
  = match block_call bot_token channel_id msg with
    | Some call => call :: calls rest
    | None => calls rest
    end.
Proof. reflexivity. Qed.

Lemma calls_of_app (l1 l2 : list MessageData) :
  calls (l1 ++ l2) = calls l1 ++ calls l2.
Proof. apply omap_app. Qed.

(** A loop that completes has made the call of every block, in order,
    touched nothing but the transport log, and gained one id per call. *)
Lemma send_loop_Ok (blocks : list MessageData) :
  ∀ sent w sent' w',
    loop blocks sent w = Ok sent' w' →
    w' = set_wire (wire w ++ calls blocks) w ∧
    ∃ ids, sent' = sent ++ ids ∧ length ids = length (calls blocks).
Proof.
  induction blocks as [|msg rest IH]; intros sent w sent' w' Hrun.
  - injection Hrun as <- <-. split.
    + by rewrite app_nil_r, set_wire_same.
    + exists []. by rewrite app_nil_r.
  - rewrite calls_of_cons. simpl in Hrun.
    unfold bind at 1, send_block in Hrun.
    destruct (block_call bot_token channel_id msg) as [call|].
    + unfold bind at 1, channel_bot in Hrun.
      destruct (transport env (wire w) call) as [msg'|mid]; [done|].
      simpl in Hrun. apply IH in Hrun as [-> (ids & -> & Hlen)]. split.
      * rewrite set_wire_twice. simpl. by rewrite <- app_assoc.
      * exists (mid :: ids). rewrite <- app_assoc. simpl. by rewrite Hlen.
    + simpl in Hrun. by apply IH in Hrun.
Qed.

(** A loop that stops has been stopped by a refused call: the log holds
    the calls up to the refused one and nothing else has changed. *)
Lemma send_loop_Raise (blocks : list MessageData) :
  ∀ sent w e w',
    loop blocks sent w = Raise e w' →
    ∃ msg k, e = TelegramError msg ∧
             (k < length (calls blocks))%nat ∧
             w' = set_wire (wire w ++ take (S k) (calls blocks)) w.
Proof.
  induction blocks as [|msg rest IH]; intros sent w e w' Hrun; [done|].
  rewrite calls_of_cons. simpl in Hrun.
  unfold bind at 1, send_block in Hrun.
  destruct (block_call bot_token channel_id msg) as [call|].
  - unfold bind at 1, channel_bot in Hrun.
    destruct (transport env (wire w) call) as [msg'|mid].
    + injection Hrun as <- <-. exists msg', 0%nat. simpl.
      repeat split. lia.
    + simpl in Hrun. apply IH in Hrun as (m & k & -> & Hk & ->).
      exists m, (S k). repeat split; [simpl; lia|].
      rewrite set_wire_twice. simpl. by rewrite <- app_assoc.
  - simpl in Hrun. by apply IH in Hrun.
Qed.

(** Under a transport that accepts every call the loop completes. *)
Lemma send_loop_accepting (blocks : list MessageData) :
  accepting env →
  ∀ sent w, ∃ sent',
    loop blocks sent w = Ok sent' (set_wire (wire w ++ calls blocks) w).
Proof.
  intros Hacc. induction blocks as [|msg rest IH]; intros sent w.
  - exists sent. simpl. unfold ret. by rewrite app_nil_r, set_wire_same.
  - rewrite calls_of_cons. simpl. unfold bind at 1, send_block.
    destruct (block_call bot_token channel_id msg) as [call|].
    + unfold bind at 1, channel_bot.
      destruct (Hacc (wire w) call) as [mid ->]. simpl.
      destruct (IH (sent ++ [mid]) (set_wire (wire w ++ [call]) w)) as [sent' ->].
      exists sent'. rewrite set_wire_twice. simpl. by rewrite <- app_assoc.
    + simpl. apply IH.
Qed.

(** Whatever the outcome, the loop leaves the database, the sessions, the
    texts shown and the clock as they were. *)
Lemma send_loop_frame (blocks : list MessageData) (sent : list Z) (w : World) :
  let w' := world_of (loop blocks sent w) in
  db w' = db w ∧ user_data w' = user_data w ∧ ui w' = ui w ∧ ticks w' = ticks w.
Proof.
  simpl. destruct (loop blocks sent w) as [sent' w'|e w'] eqn:Hrun; simpl.
  - by apply send_loop_Ok in Hrun as [-> _].
  - by apply send_loop_Raise in Hrun as (m & k & _ & _ & ->).
Qed.

End SendLoop.

(** ** Sending a post *)

Section SendPost.
Context (env : Env) (update : Update).

Local Abbreviation uid := (uid_of update).

(** Past its guards, [send_post_to_channel] is the loop followed by the
    recording, under the handler of [TelegramError]. *)
Lemma send_post_delivering (w : World) (cid : Z) (ch : Channel) (token : string)
    (blocks : list MessageData) :
  delivering update w cid ch token blocks →
  send_post_to_channel env update w
  = try_except
      (let* sent := send_loop env token cid blocks [] in
       record_and_report env update cid ch blocks sent)
      (except_TelegramError (report_error update)) w.
Proof.
  intros (Hsel & Hch & Htok & Hvalid & Hblocks & Hne).
  unfold send_post_to_channel, get_session, read.
  unfold bind at 1. unfold bind at 1. rewrite Hsel, Hblocks. simpl.
  rewrite Hch. destruct blocks as [|b bs]; [done|]. simpl.
  rewrite Htok. unfold try_except. unfold bind at 1, TelegramBot.
  by rewrite Hvalid.
Qed.

Lemma record_and_report_Ok (cid : Z) (ch : Channel) (blocks : list MessageData)
    (sent : list Z) (w : World) :
  is_Some (callback_query update) →
  record_and_report env update cid ch blocks sent w
  = Ok None
      (mkWorld
         (store_post (cid, clock env (ticks w))
            (mkPost (cid, clock env (ticks w)) cid uid blocks sent
               (clock env (S (ticks w))) "instant")
            (db w))
         (<[uid := clear_post_data (session_of uid w)]> (user_data w))
         (ui w ++ [edit_message_text uid
                     (post_sent (c_name ch) (length sent)
                        (clock env (S (S (ticks w)))))])
         (wire w)
         (S (S (S (ticks w))))).
Proof.
  intros [q Hq]. unfold record_and_report, bind, now, modify_db, modify,
    query_edit_message_text, update_session, modify, say, modify, ret.
  simpl. rewrite Hq. by destruct w.
Qed.

Lemma report_error_Ok (e : string) (w : World) :
  is_Some (callback_query update) →
  report_error update e w
  = Ok None
      (set_ui (ui w ++ [logger_error ("Error sending post: " +:+ e);
                        answer uid (Some ("Error sending post: " +:+ e)) true]) w).
Proof.
  intros [q Hq]. unfold report_error, bind, query_answer, say, modify, ret.
  rewrite Hq. destruct w; simpl. by rewrite <- app_assoc.
Qed.

(** A delivery whose loop is stopped by a refused call. *)
Lemma send_post_refused (w : World) (cid : Z) (ch : Channel) (token : string)
    (blocks : list MessageData) (e : Exn) (w1 : World) :
  is_Some (callback_query update) →
  delivering update w cid ch token blocks →
  send_loop env token cid blocks [] w = Raise e w1 →
  ∃ msg k,
    e = TelegramError msg ∧
    (k < length (calls_of token cid blocks))%nat ∧
    send_post_to_channel env update w
    = Ok None
        (mkWorld (db w) (user_data w)
           (ui w ++ [logger_error ("Error sending post: " +:+ msg);
                     answer uid (Some ("Error sending post: " +:+ msg)) true])
           (wire w ++ take (S k) (calls_of token cid blocks))
           (ticks w)).
Proof.
  intros Hq Hdel Hrun. rewrite (send_post_delivering _ _ _ _ _ Hdel).
  unfold try_except, bind at 1. rewrite Hrun.
  apply send_loop_Raise in Hrun as (msg & k & -> & Hk & ->).
  exists msg, k. repeat split; [done|]. simpl.
  rewrite (report_error_Ok _ _ Hq). by destruct w.
Qed.

(** A delivery whose loop completes. *)
Lemma send_post_completed (w : World) (cid : Z) (ch : Channel) (token : string)
    (blocks : list MessageData) (sent : list Z) (w1 : World) :
  is_Some (callback_query update) →
  delivering update w cid ch token blocks →
  send_loop env token cid blocks [] w = Ok sent w1 →
  length sent = length (calls_of token cid blocks) ∧
  send_post_to_channel env update w
  = Ok None
      (mkWorld
         (store_post (cid, clock env (ticks w))
            (mkPost (cid, clock env (ticks w)) cid uid blocks sent
               (clock env (S (ticks w))) "instant")
            (db w))
         (<[uid := clear_post_data (session_of uid w)]> (user_data w))
         (ui w ++ [edit_message_text uid
                     (post_sent (c_name ch) (length sent)
                        (clock env (S (S (ticks w)))))])
         (wire w ++ calls_of token cid blocks)
         (S (S (S (ticks w))))).
Proof.
  intros Hq Hdel Hrun. rewrite (send_post_delivering _ _ _ _ _ Hdel).
  unfold try_except, bind at 1. rewrite Hrun.
  apply send_loop_Ok in Hrun as [-> (ids & -> & Hlen)].
  split; [done|].
  rewrite (record_and_report_Ok _ _ _ _ _ Hq). by destruct w.
Qed.

(** A delivery whose bot cannot be built: [InvalidToken] goes to the
    handler of [TelegramError]; no call is made and nothing is stored. *)
Lemma send_post_invalid_token (w : World) (cid : Z) (ch : Channel) (token : string) :
  is_Some (callback_query update) →
  selected_channel (session_of uid w) = Some cid →
  get_channel cid (db w) = Some ch →
  truthy (c_bot_token ch) = Some token →
  valid_token token = false →
  default [] (post_messages (session_of uid w)) ≠ [] →
  send_post_to_channel env update w
  = Ok None
      (set_ui (ui w ++ [logger_error ("Error sending post: " +:+ "Invalid token");
                        answer uid (Some ("Error sending post: " +:+ "Invalid token"))
                          true]) w).
Proof.
  intros Hq Hsel Hch Htok Hvalid Hne.
  unfold send_post_to_channel, get_session, read.
  unfold bind at 1. unfold bind at 1. rewrite Hsel. simpl. rewrite Hch.
  destruct (default [] (post_messages (session_of uid w))) as [|b bs]; [done|].
  rewrite Htok. unfold try_except. unfold bind at 1, TelegramBot.
  rewrite Hvalid. simpl. apply (report_error_Ok _ _ Hq).
Qed.

(** The library's check at two tokens: a bare word is refused, digits, a
    colon and a secret pass. *)
Lemma valid_token_samples :
  valid_token "T" = false ∧ valid_token "123456:T" = true ∧
  valid_token "12:T" = false ∧ valid_token "123456 :T" = false.
Proof. repeat split. Qed.

(** A delivery that does not reach the loop changes nothing but the texts
    shown. *)
Lemma send_post_guarded (w : World) :
  (∃ cid ch token blocks, delivering update w cid ch token blocks) ∨
  (∃ shown, world_of (send_post_to_channel env update w) = set_ui shown w).
Proof.
  assert (Hanswer : ∀ t, ∃ shown,
            world_of ((let* _ := query_answer update t true in ret (@None Z)) w)
            = set_ui shown w).
  { intros t. unfold bind, query_answer, say, modify, raise, ret.
    destruct (callback_query update); simpl; [by eexists|].
    exists (ui w). by destruct w. }
  destruct (selected_channel (session_of uid w)) as [cid|] eqn:Hsel.
  - destruct (get_channel cid (db w)) as [ch|] eqn:Hch.
    + destruct (post_messages (session_of uid w)) as [[|b bs]|] eqn:Hblocks.
      * right. unfold send_post_to_channel, get_session, read.
        unfold bind at 1. unfold bind at 1. rewrite Hsel, Hblocks. simpl.
        rewrite Hch. apply Hanswer.
      * destruct (truthy (c_bot_token ch)) as [token|] eqn:Htok.
        -- destruct (valid_token token) eqn:Hvalid.
           { left. by exists cid, ch, token, (b :: bs). }
           right. unfold send_post_to_channel, get_session, read.
           unfold bind at 1. unfold bind at 1. rewrite Hsel, Hblocks. simpl.
           rewrite Hch, Htok. unfold try_except. unfold bind at 1, TelegramBot.
           rewrite Hvalid. simpl.
           unfold report_error, bind, say, modify, query_answer, raise, ret.
           destruct (callback_query update); simpl; by eexists.
        -- right. unfold send_post_to_channel, get_session, read.
           unfold bind at 1. unfold bind at 1. rewrite Hsel, Hblocks. simpl.
           rewrite Hch, Htok. unfold try_except.
           destruct (Hanswer
             (Some "No bot connected to this channel. Please add a bot first."))
             as [shown Hshown].
           exists shown. rewrite <- Hshown.
           unfold bind, query_answer, say, modify, raise, ret.
           by destruct (callback_query update).
      * right. unfold send_post_to_channel, get_session, read.
        unfold bind at 1. unfold bind at 1. rewrite Hsel, Hblocks. simpl.
        rewrite Hch. apply Hanswer.
    + right. unfold send_post_to_channel, get_session, read.
      unfold bind at 1. unfold bind at 1. rewrite Hsel. simpl.
      rewrite Hch. apply Hanswer.
  - right. unfold send_post_to_channel, get_session, read.
    unfold bind at 1. unfold bind at 1. rewrite Hsel. simpl. apply Hanswer.
Qed.

End SendPost.

(** *** What the loop sends for a block *)

(** A block is sent with the first of photo, video, text it carries. *)
Lemma block_call_photo (token : string) (cid : Z) (msg : MessageData) (file_id : string) :
  truthy (md_photo msg) = Some file_id →
  block_call token cid msg
  = Some (send_photo token cid file_id (default (Some "") (md_caption msg))
            (md_caption_entities msg) None).
Proof. intros H. unfold block_call. by rewrite H. Qed.

Lemma block_call_video (token : string) (cid : Z) (msg : MessageData) (file_id : string) :
  truthy (md_photo msg) = None →
  truthy (md_video msg) = Some file_id →
  block_call token cid msg
  = Some (send_video token cid file_id (default (Some "") (md_caption msg))
            (md_caption_entities msg) None).
Proof. intros H1 H2. unfold block_call. by rewrite H1, H2. Qed.

Lemma block_call_text (token : string) (cid : Z) (msg : MessageData) (t : string) :
  truthy (md_photo msg) = None →
  truthy (md_video msg) = None →
  truthy (md_text msg) = Some t →
  block_call token cid msg
  = Some (send_message token cid t (Some (md_entities msg)) None).
Proof. intros H1 H2 H3. unfold block_call. by rewrite H1, H2, H3. Qed.

(** A block that carries a document and nothing else is passed over,
    whatever the document. *)
Lemma block_call_document_only (token : string) (cid : Z) (msg : MessageData) :
  truthy (md_photo msg) = None →
  truthy (md_video msg) = None →
  truthy (md_text msg) = None →
  block_call token cid msg = None.
Proof. intros H1 H2 H3. unfold block_call. by rewrite H1, H2, H3. Qed.

(** C1: deliver is claimed to make one transport call per block, in
    arrival order and with the block's own content type, for posts of
    text, photo, video and document blocks, never passing over a block.
    The loop has no case for a document.  Here Alice's post is a text, a
    photo, a video, the document block that [handle_text_message] builds
    from a document message, and a text; the channel's bot token is one
    the bot is built from and every call is accepted.  The loop
    makes four calls, for the two texts, the photo and the video, each with
    its own type and in order; it passes over the document and goes on with
    the text after it, and the post is stored with five blocks and four
    delivered ids. *)
Theorem C1_document_block_is_passed_over :
  let report := message_data_of (Samples.document_message 10 "D1") 1000 in
  let blocks := [Samples.text_block "Hello"; Samples.photo_block "P1";
                 Samples.video_block "V1"; report; Samples.text_block "Bye"] in
  let w := Samples.composing (Some "123456:T") blocks in
  let w' := world_of (send_post_to_channel Samples.env_ok
                        (Samples.presses Samples.alice "send_post") w) in
  md_document report = Some "D1" ∧
  block_call "123456:T" Samples.news_id report = None ∧
  calls_made w w'
  = [send_message "123456:T" Samples.news_id "Hello" (Some []) None;
     send_photo "123456:T" Samples.news_id "P1" (Some "a caption") (Some []) None;
     send_video "123456:T" Samples.news_id "V1" None (Some []) None;
     send_message "123456:T" Samples.news_id "Bye" (Some []) None] ∧
  ∃ p, posts (db w') !! (Samples.news_id, 1000%Z) = Some p ∧
       p_messages p = blocks ∧
       p_sent_messages p = [100%Z; 101%Z; 102%Z; 103%Z].
Proof.
  repeat split; try (vm_compute; reflexivity).
  eexists. repeat split; vm_compute; reflexivity.
Qed.

(** *** No bot token *)

(** C6 as claimed fails: with no token bound the handler stores no post at
    all, so no post is set to a failed state.  Alice's post of one text for
    a channel without token leaves the store of posts empty. *)
Lemma C6_counterexample_no_failed_post_recorded :
  let w := Samples.composing None [Samples.text_block "Hello"] in
  let w' := world_of (send_post_to_channel Samples.env_ok
                        (Samples.presses Samples.alice "send_post") w) in
  c_bot_token (Samples.news None) = None ∧ ¬ post_recorded w'.
Proof.
  split; [reflexivity|]. intros (pid & p & Hp).
  assert (Hempty : posts (db (world_of (send_post_to_channel Samples.env_ok
            (Samples.presses Samples.alice "send_post")
            (Samples.composing None [Samples.text_block "Hello"])))) = ∅)
    by (vm_compute; reflexivity).
  rewrite Hempty in Hp. by rewrite lookup_empty in Hp.
Qed.

(** C6, amended: when the selected channel has no bot token (none, or an
    empty one), deliver makes no transport call, writes no post record and
    leaves the session as it is; all it does is alert the user, with "No
    content to send." for an empty post and "No bot connected to this
    channel. Please add a bot first." otherwise. *)
Theorem C6_no_token_alert_only (env : Env) (update : Update) (w : World)
    (cid : Z) (ch : Channel) :
  is_Some (callback_query update) →
  selected_channel (session_of (uid_of update) w) = Some cid →
  get_channel cid (db w) = Some ch →
  truthy (c_bot_token ch) = None →
  let alert :=
    match blocks_of (session_of (uid_of update) w) with
    | [] => "No content to send."
    | _ :: _ => "No bot connected to this channel. Please add a bot first."
    end in
  let w' := world_of (send_post_to_channel env update w) in
  send_post_to_channel env update w
  = Ok None (set_ui (ui w ++ [answer (uid_of update) (Some alert) true]) w) ∧
  calls_made w w' = [] ∧
  posts (db w') = posts (db w) ∧
  session_of (uid_of update) w' = session_of (uid_of update) w.
Proof.
  intros [q Hq] Hsel Hch Htok alert w'.
  assert (Heq : send_post_to_channel env update w
    = Ok None (set_ui (ui w ++ [answer (uid_of update) (Some alert) true]) w)).
  { subst alert. unfold send_post_to_channel, get_session, read, blocks_of.
    unfold bind at 1. unfold bind at 1. rewrite Hsel. simpl. rewrite Hch.
    destruct (default [] (post_messages (session_of (uid_of update) w))).
    - unfold bind, query_answer, say, modify, ret. by rewrite Hq.
    - rewrite Htok. unfold try_except, bind, query_answer, say, modify, ret.
      by rewrite Hq. }
  subst w'. rewrite Heq. simpl. repeat split.
  unfold calls_made. simpl. by rewrite drop_all.
Qed.

(** The theorem at Alice's post of one text for a channel without token. *)
Lemma C6_witness :
  send_post_to_channel Samples.env_ok (Samples.presses Samples.alice "send_post")
    (Samples.composing None [Samples.text_block "Hello"])
  = Ok None
      (set_ui [answer 1 (Some "No bot connected to this channel. Please add a bot first.")
                 true]
         (Samples.composing None [Samples.text_block "Hello"])).
Proof.
  apply (C6_no_token_alert_only Samples.env_ok
           (Samples.presses Samples.alice "send_post")
           (Samples.composing None [Samples.text_block "Hello"])
           Samples.news_id (Samples.news None)).
  - eexists. reflexivity.
  - vm_compute. reflexivity.
  - vm_compute. reflexivity.
  - reflexivity.
Defined.

(** *** A refused call *)

Lemma calls_made_app (w w' : World) (l : list TransportCall) :
  wire w' = wire w ++ l → calls_made w w' = l.
Proof. intros H. unfold calls_made. rewrite H. by rewrite drop_app_length. Qed.

(** C10: when a transport send raises an error partway through the
    delivery, no post record is written, the session (blocks, selected
    channel, composing flag, and every other session) stays as it was, and
    the user is alerted with the error; and a post record is written only
    when the loop has gone through every block: whenever the store of posts
    changes, the bot was built, the loop has completed and every call of
    the blocks has been made.  The error raised before the first send, the
    [InvalidToken] of a token from which no bot can be built, ends the
    same way: the user is alerted, no call is made and nothing else
    changes. *)
Theorem C10_refused_send_stores_no_post (env : Env) (update : Update) (w : World) :
  let w' := world_of (send_post_to_channel env update w) in
  (∀ cid ch token blocks e w1,
     is_Some (callback_query update) →
     delivering update w cid ch token blocks →
     send_loop env token cid blocks [] w = Raise e w1 →
     ∃ msg, e = TelegramError msg ∧
            db w' = db w ∧
            user_data w' = user_data w ∧
            ui w' = ui w ++
              [logger_error ("Error sending post: " +:+ msg);
               answer (uid_of update) (Some ("Error sending post: " +:+ msg)) true]) ∧
  (posts (db w') ≠ posts (db w) →
   ∃ cid ch token blocks sent w1,
     delivering update w cid ch token blocks ∧
     send_loop env token cid blocks [] w = Ok sent w1 ∧
     calls_made w w1 = calls_of token cid blocks ∧
     length sent = length (calls_of token cid blocks)) ∧
  (∀ cid ch token,
     is_Some (callback_query update) →
     selected_channel (session_of (uid_of update) w) = Some cid →
     get_channel cid (db w) = Some ch →
     truthy (c_bot_token ch) = Some token →
     valid_token token = false →
     blocks_of (session_of (uid_of update) w) ≠ [] →
     w' = set_ui
            (ui w ++
             [logger_error ("Error sending post: " +:+ "Invalid token");
              answer (uid_of update)
                (Some ("Error sending post: " +:+ "Invalid token")) true]) w).
Proof.
  intros w'. split; [|split].
  3: { intros cid ch token Hq Hsel Hch Htok Hvalid Hne. subst w'.
       by rewrite (send_post_invalid_token env update w cid ch token
                     Hq Hsel Hch Htok Hvalid Hne). }
  - intros cid ch token blocks e w1 Hq Hdel Hrun.
    destruct (send_post_refused env update w cid ch token blocks e w1 Hq Hdel Hrun)
      as (msg & k & -> & _ & Heq).
    exists msg. subst w'. by rewrite Heq.
  - intros Hposts.
    destruct (send_post_guarded env update w)
      as [(cid & ch & token & blocks & Hdel)|[shown Hshown]].
    + exists cid, ch, token, blocks.
      destruct (send_loop env token cid blocks [] w) as [sent w1|e w1] eqn:Hrun.
      * exists sent, w1. split; [done|]. split; [done|].
        apply send_loop_Ok in Hrun as [-> (ids & -> & Hlen)].
        split; [by apply calls_made_app|done].
      * exfalso. apply Hposts. subst w'.
        rewrite (send_post_delivering env update w cid ch token blocks Hdel).
        unfold try_except, bind at 1. rewrite Hrun.
        apply send_loop_Raise in Hrun as (msg & k & -> & _ & ->). simpl.
        unfold report_error, bind, say, modify, query_answer, raise, ret.
        by destruct (callback_query update).
    + exfalso. apply Hposts. subst w'. by rewrite Hshown.
Qed.

(** The theorem at Alice's post of three texts, the second call refused. *)
Lemma C10_witness :
  let update := Samples.presses Samples.alice "send_post" in
  let w := Samples.composing (Some "123456:T")
             [Samples.text_block "one"; Samples.text_block "two";
              Samples.text_block "three"] in
  let w' := world_of (send_post_to_channel (Samples.env_refuse_at 1) update w) in
  ∃ msg, TelegramError "Timed out" = TelegramError msg ∧
         db w' = db w ∧
         user_data w' = user_data w ∧
         ui w' = ui w ++
           [logger_error ("Error sending post: " +:+ msg);
            answer (uid_of update) (Some ("Error sending post: " +:+ msg)) true].
Proof.
  intros update w.
  apply (proj1 (C10_refused_send_stores_no_post (Samples.env_refuse_at 1) update w)
           Samples.news_id (Samples.news (Some "123456:T")) "123456:T"
           [Samples.text_block "one"; Samples.text_block "two";
            Samples.text_block "three"]
           (TelegramError "Timed out")
           (set_wire [send_message "123456:T" Samples.news_id "one" (Some []) None;
                      send_message "123456:T" Samples.news_id "two" (Some []) None] w)).
  - eexists. reflexivity.
  - repeat split; try (vm_compute; reflexivity). discriminate.
  - vm_compute. reflexivity.
Defined.

(** *** Invoking deliver again *)

(** C2 as claimed fails: nothing records how far a delivery got.  Alice's
    post has three texts, for a channel with a bot token the bot is built
    from.  The first delivery gets the first text through
    and is refused on the second; the second delivery, with every call
    accepted, makes the calls of all three texts, the first one included,
    not the calls of the second and third only. *)
Lemma C2_counterexample_first_block_sent_again :
  let update := Samples.presses Samples.alice "send_post" in
  let blocks := [Samples.text_block "one"; Samples.text_block "two";
                 Samples.text_block "three"] in
  let w := Samples.composing (Some "123456:T") blocks in
  let w1 := world_of (send_post_to_channel (Samples.env_refuse_at 1) update w) in
  let w2 := world_of (send_post_to_channel Samples.env_ok update w1) in
  calls_made w w1 = take 2 (calls_of "123456:T" Samples.news_id blocks) ∧
  calls_made w1 w2 = calls_of "123456:T" Samples.news_id blocks ∧
  ¬ resumes_after 1 Samples.env_ok update w1 "123456:T" Samples.news_id blocks.
Proof.
  repeat split; try (vm_compute; reflexivity).
  unfold resumes_after. vm_compute. discriminate.
Qed.

(** C2, amended: the code keeps no partially-sent post.  When a delivery
    that reaches the loop (the bot is built from the channel's token) is
    stopped by a refused call after K blocks went through, the K calls and
    the refused one are all that happened: the store of posts is unchanged
    and the session still holds every block.  Invoking deliver again, with
    a transport that accepts every call, starts over and makes the call of
    every block from the first one, the K delivered blocks included. *)
Theorem C2_second_delivery_starts_over (env env' : Env) (update : Update) (w : World)
    (cid : Z) (ch : Channel) (token : string) (blocks : list MessageData)
    (e : Exn) (w1 : World) :
  is_Some (callback_query update) →
  delivering update w cid ch token blocks →
  send_loop env token cid blocks [] w = Raise e w1 →
  accepting env' →
  let w' := world_of (send_post_to_channel env update w) in
  let w'' := world_of (send_post_to_channel env' update w') in
  (∃ K, (K < length (calls_of token cid blocks))%nat ∧
        calls_made w w' = take (S K) (calls_of token cid blocks)) ∧
  posts (db w') = posts (db w) ∧
  delivering update w' cid ch token blocks ∧
  calls_made w' w'' = calls_of token cid blocks.
Proof.
  intros Hq Hdel Hrun Hacc w' w''.
  destruct (send_post_refused env update w cid ch token blocks e w1 Hq Hdel Hrun)
    as (msg & K & -> & HK & Heq).
  assert (Hdel' : delivering update w' cid ch token blocks).
  { subst w'. rewrite Heq. exact Hdel. }
  split; [|split; [|split]].
  - exists K. split; [done|]. subst w'. rewrite Heq. by apply calls_made_app.
  - subst w'. by rewrite Heq.
  - exact Hdel'.
  - destruct (send_loop_accepting env' token cid blocks Hacc [] w') as [sent Hrun'].
    destruct (send_post_completed env' update w' cid ch token blocks sent _
                Hq Hdel' Hrun') as [_ Heq'].
    subst w''. rewrite Heq'. by apply calls_made_app.
Qed.

(** The theorem at Alice's post of three texts: the second call of the
    first delivery is refused, the second delivery is accepted throughout. *)
Lemma C2_witness :
  let update := Samples.presses Samples.alice "send_post" in
  let blocks := [Samples.text_block "one"; Samples.text_block "two";
                 Samples.text_block "three"] in
  let w := Samples.composing (Some "123456:T") blocks in
  let w' := world_of (send_post_to_channel (Samples.env_refuse_at 1) update w) in
  let w'' := world_of (send_post_to_channel Samples.env_ok update w') in
  (∃ K, (K < length (calls_of "123456:T" Samples.news_id blocks))%nat ∧
        calls_made w w' = take (S K) (calls_of "123456:T" Samples.news_id blocks)) ∧
  posts (db w') = posts (db w) ∧
  delivering update w' Samples.news_id (Samples.news (Some "123456:T")) "123456:T" blocks ∧
  calls_made w' w'' = calls_of "123456:T" Samples.news_id blocks.
Proof.
  intros update blocks w.
  apply (C2_second_delivery_starts_over (Samples.env_refuse_at 1) Samples.env_ok
           update w Samples.news_id (Samples.news (Some "123456:T")) "123456:T" blocks
           (TelegramError "Timed out")
           (set_wire (take 2 (calls_of "123456:T" Samples.news_id blocks)) w)).
  - eexists. reflexivity.
  - repeat split; try (vm_compute; reflexivity). discriminate.
  - vm_compute. reflexivity.
  - intros history call. eexists. reflexivity.
Defined.

(** *** When the delivered ids reach the store *)

(** C3 as claimed fails: the ids are gathered in a local list and the store
    is not written during the loop.  After the first of Alice's two texts
    is sent the loop holds the id 100 and the store of posts is empty. *)
Lemma C3_counterexample_nothing_persisted_between_sends :
  let blocks := [Samples.text_block "one"; Samples.text_block "two"] in
  let w := Samples.composing (Some "123456:T") blocks in
  send_loop Samples.env_ok "123456:T" Samples.news_id (take 1 blocks) [] w
  = Ok [100%Z]
      (set_wire [send_message "123456:T" Samples.news_id "one" (Some []) None] w) ∧
  ¬ persisted_after_each_send Samples.env_ok "123456:T" Samples.news_id blocks w.
Proof.
  split; [vm_compute; reflexivity|].
  intros Hclaim.
  destruct (Hclaim 1%nat [100%Z]
              (set_wire [send_message "123456:T" Samples.news_id "one" (Some []) None]
                 (Samples.composing (Some "123456:T")
                    [Samples.text_block "one"; Samples.text_block "two"])))
    as (pid & p & Hp & _).
  - vm_compute. reflexivity.
  - discriminate.
  - change (posts (db (set_wire _ _))) with (∅ : gmap PostId Post) in Hp.
    by rewrite lookup_empty in Hp.
Qed.

(** C3, amended: during a delivery that reaches the loop (the bot is built
    from the channel's token) the ids of the sent messages are held in the
    local list only.  Wherever the loop stands, after any number of
    blocks, the database is as it was before the delivery and the list
    holds one id per call made so far; the post record, with the ids of all
    calls, is written once, after the loop has gone through every block. *)
Theorem C3_ids_stored_once_after_the_loop (env : Env) (update : Update) (w : World)
    (cid : Z) (ch : Channel) (token : string) (blocks : list MessageData) :
  is_Some (callback_query update) →
  delivering update w cid ch token blocks →
  (∀ k sent wk,
     send_loop env token cid (take k blocks) [] w = Ok sent wk →
     db wk = db w ∧
     length sent = length (calls_of token cid (take k blocks))) ∧
  (∀ sent w1,
     send_loop env token cid blocks [] w = Ok sent w1 →
     posts (db (world_of (send_post_to_channel env update w)))
     = <[(cid, clock env (ticks w)) :=
           mkPost (cid, clock env (ticks w)) cid (uid_of update) blocks sent
             (clock env (S (ticks w))) "instant"]> (posts (db w))).
Proof.
  intros Hq Hdel. split.
  - intros k sent wk Hrun.
    by apply send_loop_Ok in Hrun as [-> (ids & -> & Hlen)].
  - intros sent w1 Hrun.
    destruct (send_post_completed env update w cid ch token blocks sent w1
                Hq Hdel Hrun) as [_ Heq].
    by rewrite Heq.
Qed.

(** The theorem at Alice's post of two texts, every call accepted. *)
Lemma C3_witness :
  let update := Samples.presses Samples.alice "send_post" in
  let blocks := [Samples.text_block "one"; Samples.text_block "two"] in
  let w := Samples.composing (Some "123456:T") blocks in
  (∀ k sent wk,
     send_loop Samples.env_ok "123456:T" Samples.news_id (take k blocks) [] w = Ok sent wk →
     db wk = db w ∧
     length sent = length (calls_of "123456:T" Samples.news_id (take k blocks))) ∧
  (∀ sent w1,
     send_loop Samples.env_ok "123456:T" Samples.news_id blocks [] w = Ok sent w1 →
     posts (db (world_of (send_post_to_channel Samples.env_ok update w)))
     = <[(Samples.news_id, clock Samples.env_ok (ticks w)) :=
           mkPost (Samples.news_id, clock Samples.env_ok (ticks w)) Samples.news_id
             (uid_of update) blocks sent
             (clock Samples.env_ok (S (ticks w))) "instant"]> (posts (db w))).
Proof.
  intros update blocks w.
  apply (C3_ids_stored_once_after_the_loop Samples.env_ok update w Samples.news_id
           (Samples.news (Some "123456:T")) "123456:T" blocks).
  - eexists. reflexivity.
  - repeat split; try (vm_compute; reflexivity). discriminate.
Defined.

(** ** What a computation leaves alone *)

Section Keeps.
Context (R : World → World → Prop).
Context (R_refl : ∀ w, R w w).
Context (R_trans : ∀ w1 w2 w3, R w1 w2 → R w2 w3 → R w1 w3).

Lemma keeps_ret {A} (a : A) : keeps R (ret a).
Proof. intros w. apply R_refl. Qed.

Lemma keeps_raise {A} (e : Exn) : keeps R (raise (A:=A) e).
Proof. intros w. apply R_refl. Qed.

Lemma keeps_read {A} (f : World → A) : keeps R (read f).
Proof. intros w. apply R_refl. Qed.

Lemma keeps_modify (f : World → World) : (∀ w, R w (f w)) → keeps R (modify f).
Proof. intros Hf w. apply Hf. Qed.

Lemma keeps_TelegramBot (bot_token : string) : keeps R (TelegramBot bot_token).
Proof.
  unfold TelegramBot. destruct (valid_token bot_token);
    [apply keeps_ret | apply keeps_raise].
Qed.

Lemma keeps_channel_buttons (user_channels : list Channel) (keyboard : list Button) :
  keeps R (channel_buttons user_channels keyboard).
Proof.
  revert keyboard. induction user_channels as [|channel rest IH]; intros keyboard; simpl.
  - apply keeps_ret.
  - destruct (channel_name_of channel); [apply keeps_raise | apply IH].
Qed.

Lemma keeps_bind {A B} (c : M A) (k : A → M B) :
  keeps R c → (∀ a, keeps R (k a)) → keeps R (bind c k).
Proof.
  intros Hc Hk w. unfold bind. specialize (Hc w).
  destruct (c w) as [a w1|e w1]; simpl in *; [|done].
  eapply R_trans; [exact Hc | apply Hk].
Qed.

Lemma keeps_try_except {A} (body : M A) (handler : Exn → option (M A)) :
  keeps R body →
  (∀ e h, handler e = Some h → keeps R h) →
  keeps R (try_except body handler).
Proof.
  intros Hbody Hh w. unfold try_except. specialize (Hbody w).
  destruct (body w) as [a w1|e w1]; simpl in *; [done|].
  destruct (handler e) as [h|] eqn:He; simpl; [|done].
  eapply R_trans; [exact Hbody | by apply (Hh e h)].
Qed.

End Keeps.

(** ** The ['adding_channel'] flag *)

Lemma flag_frame_refl (w : World) : flag_frame w w.
Proof. split; [by left | done]. Qed.

Lemma flag_frame_trans (w1 w2 w3 : World) :
  flag_frame w1 w2 → flag_frame w2 w3 → flag_frame w1 w3.
Proof.
  intros [Hs12 Hc12] [Hs23 Hc23]. split.
  - intros uid. destruct (Hs23 uid) as [H23|H23]; [|by right].
    rewrite H23. apply Hs12.
  - intros Hoff. rewrite Hc23, Hc12; [done..|].
    intros uid. destruct (Hs12 uid) as [->| ->]; [apply Hoff | done].
Qed.

Lemma flag_frame_same_sessions_channels (w w' : World) :
  user_data w' = user_data w → channels (db w') = channels (db w) → flag_frame w w'.
Proof.
  intros Hu Hc. split; [|done]. intros uid. left. unfold session_of. by rewrite Hu.
Qed.

Lemma keeps_say (e : UiEvent) : keeps flag_frame (say e).
Proof. intros w. by apply flag_frame_same_sessions_channels. Qed.

Lemma keeps_now (env : Env) : keeps flag_frame (now env).
Proof. intros w. by apply flag_frame_same_sessions_channels. Qed.

Lemma keeps_channel_bot (env : Env) (call : TransportCall) :
  keeps flag_frame (channel_bot env call).
Proof.
  intros w. unfold channel_bot.
  destruct (transport env (wire w) call); by apply flag_frame_same_sessions_channels.
Qed.

Lemma keeps_modify_db (f : Database → Database) :
  (∀ d, channels (f d) = channels d) → keeps flag_frame (modify_db f).
Proof. intros Hf w. apply flag_frame_same_sessions_channels; [done | apply Hf]. Qed.

Lemma keeps_update_session (uid : Z) (f : Session → Session) :
  (∀ s, adding_channel (f s) = adding_channel s ∨ adding_channel (f s) = None) →
  keeps flag_frame (update_session uid f).
Proof.
  intros Hf w. split; [|done]. intros uid'. simpl.
  destruct (decide (uid = uid')) as [<-|Hne].
  - rewrite session_of_update_same. apply Hf.
  - left. by rewrite session_of_update_other.
Qed.

Lemma keeps_message_reply_text (update : Update) (t : Text) :
  keeps flag_frame (message_reply_text update t).
Proof.
  unfold message_reply_text. destruct (message update);
    [apply keeps_say | apply keeps_raise, flag_frame_refl].
Qed.

Lemma keeps_query_answer (update : Update) (t : option string) (alert : bool) :
  keeps flag_frame (query_answer update t alert).
Proof.
  unfold query_answer. destruct (callback_query update);
    [apply keeps_say | apply keeps_raise, flag_frame_refl].
Qed.

Lemma keeps_query_edit_message_text (update : Update) (t : Text) :
  keeps flag_frame (query_edit_message_text update t).
Proof.
  unfold query_edit_message_text. destruct (callback_query update);
    [apply keeps_say | apply keeps_raise, flag_frame_refl].
Qed.

(** One step of a proof that a handler keeps [flag_frame]: the outermost
    construct of the computation is taken apart. *)
Create HintDb keeps.

Ltac keeps_step :=
  cbv zeta;
  first
    [ solve [auto 1 with keeps nocore]
    | apply (keeps_ret _ flag_frame_refl)
    | apply (keeps_raise _ flag_frame_refl)
    | apply (keeps_read _ flag_frame_refl)
    | apply (keeps_TelegramBot _ flag_frame_refl)
    | apply (keeps_channel_buttons _ flag_frame_refl)
    | apply keeps_say
    | apply keeps_now
    | apply keeps_channel_bot
    | apply keeps_message_reply_text
    | apply keeps_query_answer
    | apply keeps_query_edit_message_text
    | apply keeps_modify_db; intros; reflexivity
    | apply keeps_update_session; intros; left; reflexivity
    | apply (keeps_bind _ flag_frame_trans); [|intros]
    | match goal with
      | |- keeps _ (match ?x with _ => _ end) => destruct x
      | |- keeps _ (if ?b then _ else _) => destruct b
      end ].

Ltac keeps_auto := repeat keeps_step.

Lemma keeps_send_loop (env : Env) (token : string) (cid : Z)
    (blocks : list MessageData) (sent : list Z) :
  keeps flag_frame (send_loop env token cid blocks sent).
Proof.
  revert sent. induction blocks as [|msg rest IH]; intros sent; simpl.
  - keeps_auto.
  - apply (keeps_bind _ flag_frame_trans); [|intros; apply IH].
    unfold send_block. keeps_auto.
Qed.

#[local] Hint Resolve keeps_send_loop : keeps.

Lemma keeps_show_post_preview (env : Env) (update : Update) (is_callback : bool) :
  keeps flag_frame (show_post_preview env update is_callback).
Proof. unfold show_post_preview, get_session. keeps_auto. Qed.

#[local] Hint Resolve keeps_show_post_preview : keeps.

Lemma keeps_send_post_to_channel (env : Env) (update : Update) :
  keeps flag_frame (send_post_to_channel env update).
Proof.
  unfold send_post_to_channel, get_session. keeps_auto.
  apply (keeps_try_except _ flag_frame_trans).
  - keeps_auto.
  - intros e h. unfold except_TelegramError. destruct e; intros [= <-].
    unfold report_error. keeps_auto.
Qed.

#[local] Hint Resolve keeps_send_post_to_channel : keeps.

(** ** Claiming a channel *)

(** A forwarded message that passes every check of the handler: the
    channel record is replaced by a fresh one. *)
Lemma handle_forwarded_message_claim (env : Env) (update : Update) (w : World)
    (m : Message) (chat : Chat) (status : string) :
  flag (adding_channel (session_of (uid_of update) w)) = true →
  message update = Some m →
  forward_from_chat m = Some chat →
  chat_type chat ∈ ["channel"; "group"] →
  get_chat_member env (chat_id chat) (uid_of update) = inr status →
  is_admin_status status = true →
  handle_forwarded_message env update w
  = Ok None
      (mkWorld
         (save_channel (chat_id chat)
            (mkChannel (chat_id chat) (chat_title chat) (chat_username chat)
               (chat_type chat) [uid_of update] (uid_of update)
               (clock env (ticks w)) None "UTC")
            (db w))
         (<[uid_of update := set_adding_channel None (session_of (uid_of update) w)]>
            (user_data w))
         (ui w ++ [reply_text (uid_of update)
                     (channel_added (chat_title chat) (chat_username chat)
                        (chat_type chat) (bot_username env))])
         (wire w)
         (S (ticks w))).
Proof.
  intros Hflag Hm Hchat Htype Hmember Hadmin.
  unfold handle_forwarded_message, get_session, read. unfold bind at 1.
  fold (uid_of update). rewrite Hflag, Hm, Hchat. simpl.
  rewrite (bool_decide_eq_true_2 _ Htype). simpl.
  fold (uid_of update). rewrite Hmember, Hadmin. simpl.
  unfold bind, now, modify_db, modify, message_reply_text, say, modify,
    update_session, modify, ret.
  rewrite Hm. by destruct w.
Qed.

Lemma keeps_handle_forwarded_message (env : Env) (update : Update) :
  keeps flag_frame (handle_forwarded_message env update).
Proof.
  intros w. unfold handle_forwarded_message, get_session, read. unfold bind at 1.
  destruct (flag (adding_channel (session_of (user_id (effective_user update)) w)))
    eqn:Hflag; simpl; [|apply flag_frame_refl].
  assert (Hset : ∀ w', (∀ uid, adding_channel (session_of uid w')
                              = adding_channel (session_of uid w) ∨
                              adding_channel (session_of uid w') = None) →
                       flag_frame w w').
  { intros w' Hs. split; [done|]. intros Hoff. by rewrite Hoff in Hflag. }
  apply Hset. intros uid.
  destruct (message update) as [m|] eqn:Hm; [|by left].
  destruct (forward_from_chat m) as [chat|]; [|by left].
  destruct (bool_decide (chat_type chat ∈ ["channel"; "group"])); [|by left].
  simpl.
  destruct (get_chat_member env (chat_id chat) (user_id (effective_user update)))
    as [err|status].
  - unfold bind, message_reply_text, say, modify, ret. rewrite Hm. by left.
  - destruct (is_admin_status status); simpl.
    + unfold bind, now, modify_db, modify, message_reply_text, say, modify,
        update_session, modify, ret.
      rewrite Hm. simpl.
      destruct (decide (user_id (effective_user update) = uid)) as [<-|Hne].
      * right. unfold session_of at 1. simpl. by rewrite lookup_insert_eq.
      * left. unfold session_of at 1. simpl. by rewrite lookup_insert_ne.
    + unfold bind, message_reply_text, say, modify, ret. rewrite Hm. by left.
Qed.

Lemma keeps_handle_text_message (env : Env) (update : Update) :
  keeps flag_frame (handle_text_message env update).
Proof.
  unfold handle_text_message, get_session. keeps_auto.
  all: unfold append_block; keeps_auto.
Qed.

Lemma keeps_schedule_post (env : Env) (update : Update) :
  keeps flag_frame (schedule_post env update).
Proof. unfold schedule_post. keeps_auto. Qed.

#[local] Hint Resolve keeps_schedule_post : keeps.

Lemma keeps_handle_callback (env : Env) (update : Update) :
  keeps flag_frame (handle_callback env update).
Proof.
  unfold handle_callback, show_main_menu. keeps_auto.
Qed.

Lemma keeps_error_handler (env : Env) (update : Update) (e : Exn) :
  keeps flag_frame (error_handler env update e).
Proof. unfold error_handler. keeps_auto. Qed.

Lemma keeps_send_reply (env : Env) (reply_data : ReplyData) (mid : Z) :
  keeps flag_frame (send_reply env reply_data mid).
Proof.
  unfold send_reply. apply (keeps_try_except _ flag_frame_trans).
  - keeps_auto.
  - intros e h [= <-]. keeps_auto.
Qed.

Lemma keeps_handler_for (env : Env) (update : Update) (h : Handler) :
  handler_for update = Some h → keeps flag_frame (h env update).
Proof.
  unfold handler_for. destruct (message update) as [m|].
  - destruct (bot_command m ≫= command_handler) as [h'|] eqn:Hcmd.
    + intros [= <-]. destruct (bot_command m) as [c|]; [|done]. simpl in Hcmd.
      unfold command_handler in Hcmd.
      repeat match type of Hcmd with
             | (if ?b then _ else _) = _ => destruct b
             end;
        try discriminate; injection Hcmd as <-;
        unfold start, help_command, new_post, add_channel, my_channels, settings,
          change_language; keeps_auto.
    + destruct (bool_decide _).
      * intros [= <-]. apply keeps_handle_forwarded_message.
      * destruct (_ && _); [|done]. intros [= <-]. apply keeps_handle_text_message.
  - destruct (callback_query update); [|done].
    intros [= <-]. apply keeps_handle_callback.
Qed.

Lemma keeps_dispatch (env : Env) (update : Update) :
  keeps flag_frame (dispatch env update).
Proof.
  unfold dispatch. destruct (handler_for update) as [h|] eqn:Hh; [|keeps_auto].
  apply (keeps_try_except _ flag_frame_trans).
  - apply (keeps_bind _ flag_frame_trans); [|intros; keeps_auto].
    by apply keeps_handler_for.
  - intros e h' [= <-]. apply keeps_error_handler.
Qed.

(** No operation goes beyond [flag_frame]. *)
Lemma perform_flag_frame (env : Env) (op : Operation) (w : World) :
  flag_frame w (perform env op w).
Proof.
  revert w. change (keeps flag_frame (λ w, Ok () (perform env op w))).
  assert (Hworld : ∀ A (c : M A),
            keeps flag_frame c → keeps flag_frame (λ w, Ok () (world_of (c w))))
    by (intros A c Hc w; apply Hc).
  destruct op; apply Hworld.
  - unfold start. keeps_auto.
  - unfold help_command. keeps_auto.
  - unfold new_post. keeps_auto.
  - unfold add_channel. keeps_auto.
  - unfold my_channels. keeps_auto.
  - unfold settings. keeps_auto.
  - unfold change_language. keeps_auto.
  - apply keeps_handle_forwarded_message.
  - apply keeps_handle_text_message.
  - apply keeps_handle_callback.
  - unfold show_main_menu. keeps_auto.
  - apply keeps_show_post_preview.
  - apply keeps_send_post_to_channel.
  - apply keeps_schedule_post.
  - apply keeps_error_handler.
  - unfold handle_reply. keeps_auto.
  - apply keeps_send_reply.
  - apply keeps_dispatch.
Qed.

Lemma run_bot_flag_frame (env : Env) (updates : list Update) :
  ∀ w, flag_frame w (run_bot env updates w).
Proof.
  induction updates as [|u rest IH]; intros w; simpl.
  - apply flag_frame_refl.
  - eapply flag_frame_trans; [apply keeps_dispatch | apply IH].
Qed.

(** C9: a forwarded message leaves the channel registry, and the whole
    world, as it is unless the sender's session has ['adding_channel'] set;
    and no operation of the program sets that flag: whatever the operation
    and the user, the entry is afterwards what it was before or is gone.
    In particular [/addchannel] leaves every session as it is.  So, from
    start-up, whatever updates arrive, no session ever has the flag and the
    registry stays as it was at start-up. *)
Theorem C9_forwarded_message_needs_a_flag_nothing_sets (env : Env) :
  (∀ update w,
     flag (adding_channel (session_of (uid_of update) w)) = false →
     handle_forwarded_message env update w = Ok None w) ∧
  (∀ op w uid,
     adding_channel (session_of uid (perform env op w))
     = adding_channel (session_of uid w) ∨
     adding_channel (session_of uid (perform env op w)) = None) ∧
  (∀ update w, user_data (world_of (add_channel env update w)) = user_data w) ∧
  (∀ updates uid,
     adding_channel (session_of uid (run_bot env updates World_init)) = None) ∧
  (∀ updates,
     channels (db (run_bot env updates World_init)) = channels (db World_init)).
Proof.
  repeat split.
  - intros update w Hflag.
    unfold handle_forwarded_message, get_session, read. unfold bind at 1.
    fold (uid_of update). by rewrite Hflag.
  - intros op w uid. apply (perform_flag_frame env op w).
  - intros update w. unfold add_channel, bind, message_reply_text, say, modify,
      raise, ret.
    by destruct (message update).
  - intros updates uid.
    destruct (run_bot_flag_frame env updates World_init) as [Hs _].
    by destruct (Hs uid) as [-> | ->].
  - intros updates.
    destruct (run_bot_flag_frame env updates World_init) as [_ Hc].
    by apply Hc.
Qed.

(** The theorem at a message Bob forwards while no session has the flag. *)
Lemma C9_witness :
  let update := Samples.says Samples.bob (Samples.forwarded_from Samples.news_chat) in
  let w := Samples.composing (Some "123456:T") [Samples.text_block "Hello"] in
  flag (adding_channel (session_of (uid_of update) w)) = false ∧
  handle_forwarded_message Samples.env_ok update w = Ok None w.
Proof.
  intros update w.
  assert (Hflag : flag (adding_channel (session_of (uid_of update) w)) = false)
    by (vm_compute; reflexivity).
  split; [exact Hflag|].
  exact (proj1 (C9_forwarded_message_needs_a_flag_nothing_sets Samples.env_ok)
           update w Hflag).
Defined.

(** C5 as claimed fails: a claim replaces the channel record.  Alice and
    then Bob, both in channel-adding mode and both administrators, forward
    a message from the channel.  After Alice's claim she is the owner;
    after Bob's claim the owner is Bob and he is the only admin. *)
Lemma C5_counterexample_second_claim_replaces_owner :
  let w0 := Samples.adding [1%Z; 2%Z] in
  let w1 := world_of (handle_forwarded_message Samples.env_ok
              (Samples.says Samples.alice (Samples.forwarded_from Samples.news_chat)) w0) in
  let w2 := world_of (handle_forwarded_message Samples.env_ok
              (Samples.says Samples.bob (Samples.forwarded_from Samples.news_chat)) w1) in
  (c_owner_id <$> get_channel Samples.news_id (db w1)) = Some 1%Z ∧
  (c_owner_id <$> get_channel Samples.news_id (db w2)) = Some 2%Z ∧
  (c_admins <$> get_channel Samples.news_id (db w2)) = Some [2%Z] ∧
  ¬ claim_keeps_owner (db w1) (db w2) Samples.news_id 2.
Proof.
  repeat split; try (vm_compute; reflexivity).
  intros Hclaim.
  destruct (Hclaim (mkChannel Samples.news_id (Some "News") (Some "news") "channel"
                      [1%Z] 1 1000 None "UTC"))
    as (ch' & Hget & Howner & _); [vm_compute; reflexivity|].
  vm_compute in Hget. injection Hget as <-. discriminate Howner.
Qed.

(** C5, amended: whenever a user in channel-adding mode forwards a message
    from a channel or group and passes the admin check, the channel record
    is replaced, on the first claim and on every later one alike: the
    claimant becomes the owner and the only admin, no bot token is bound,
    and whatever was recorded for the channel before is gone.  The claim
    also takes the user out of channel-adding mode. *)
Theorem C5_every_claim_replaces_the_record (env : Env) (update : Update) (w : World)
    (m : Message) (chat : Chat) (status : string) :
  flag (adding_channel (session_of (uid_of update) w)) = true →
  message update = Some m →
  forward_from_chat m = Some chat →
  chat_type chat ∈ ["channel"; "group"] →
  get_chat_member env (chat_id chat) (uid_of update) = inr status →
  is_admin_status status = true →
  let w' := world_of (handle_forwarded_message env update w) in
  channels (db w')
  = <[chat_id chat :=
        mkChannel (chat_id chat) (chat_title chat) (chat_username chat)
          (chat_type chat) [uid_of update] (uid_of update)
          (clock env (ticks w)) None "UTC"]> (channels (db w)) ∧
  (c_owner_id <$> get_channel (chat_id chat) (db w')) = Some (uid_of update) ∧
  (c_admins <$> get_channel (chat_id chat) (db w')) = Some [uid_of update] ∧
  adding_channel (session_of (uid_of update) w') = None.
Proof.
  intros Hflag Hm Hchat Htype Hmember Hadmin w'. subst w'.
  rewrite (handle_forwarded_message_claim env update w m chat status
             Hflag Hm Hchat Htype Hmember Hadmin).
  simpl. unfold get_channel, session_of. simpl.
  by rewrite !lookup_insert_eq.
Qed.

(** The theorem at Bob's claim of the channel Alice has claimed before. *)
Lemma C5_witness :
  let update := Samples.says Samples.bob (Samples.forwarded_from Samples.news_chat) in
  let w := world_of (handle_forwarded_message Samples.env_ok
             (Samples.says Samples.alice (Samples.forwarded_from Samples.news_chat))
             (Samples.adding [1%Z; 2%Z])) in
  let w' := world_of (handle_forwarded_message Samples.env_ok update w) in
  (c_owner_id <$> get_channel Samples.news_id (db w)) = Some 1%Z ∧
  (c_owner_id <$> get_channel Samples.news_id (db w')) = Some 2%Z.
Proof.
  intros update w. split; [vm_compute; reflexivity|].
  apply (C5_every_claim_replaces_the_record Samples.env_ok update w
           (Samples.forwarded_from Samples.news_chat) Samples.news_chat
           "administrator").
  - vm_compute. reflexivity.
  - reflexivity.
  - reflexivity.
  - apply list_elem_of_here.
  - reflexivity.
  - vm_compute. reflexivity.
Defined.

(** ** Scheduling *)

(** C4 as claimed fails: the code reads no time and stores no schedule.
    Alice, composing a post of one text, presses "Schedule" and then the
    quick option "Tomorrow 09:00", a time in the future: no schedule entry
    exists afterwards, for whatever due time, and no post.  Had she typed a
    time long past instead, the composer would have taken the text as one
    more block of the post, raising nothing. *)
Lemma C4_counterexample_nothing_is_scheduled :
  let w := Samples.composing (Some "123456:T") [Samples.text_block "Hello"] in
  let w1 := run_bot Samples.env_ok
              [Samples.presses Samples.alice "schedule_post";
               Samples.presses Samples.alice "schedule_tomorrow_0900"] w in
  let w2 := run_bot Samples.env_ok
              [Samples.presses Samples.alice "schedule_post";
               Samples.says Samples.alice
                 (Samples.text_message 12 "00:00 01.01.2000")] w in
  (¬ ∃ due, scheduled_for due w1) ∧
  ¬ post_recorded w1 ∧
  blocks_of (session_of 1 w2)
  = [Samples.text_block "Hello";
     message_data_of (Samples.text_message 12 "00:00 01.01.2000") 1000].
Proof.
  split; [|split].
  - intros (due & pid & e & He & _).
    change (scheduled_posts (db _)) with (∅ : gmap PostId ScheduleEntry) in He.
    by rewrite lookup_empty in He.
  - intros (pid & p & Hp).
    change (posts (db _)) with (∅ : gmap PostId Post) in Hp.
    by rewrite lookup_empty in Hp.
  - vm_compute. reflexivity.
Qed.

(** C4, amended: a request to schedule a post shows the prompt for a time
    and sets the session's ['scheduling_post'] flag, and that is all: no
    time is read or checked, nothing is raised, and the database (so the
    posts and the schedule entries) is as before.  The quick options of the
    prompt, whose callback data are ["schedule_"] followed by a choice,
    match no case of [handle_callback]: pressing one is answered and
    changes nothing else. *)
Theorem C4_schedule_request_only_prompts (env : Env) (update : Update) (w : World) :
  is_Some (callback_query update) →
  schedule_post env update w
  = Ok (Some SCHEDULING_POST)
      (mkWorld (db w)
         (<[uid_of update :=
              set_scheduling_post (Some true) (session_of (uid_of update) w)]>
            (user_data w))
         (ui w ++ [edit_message_text (uid_of update) schedule_prompt])
         (wire w) (ticks w)) ∧
  ∀ choice,
    choice ≠ "post" →
    handle_callback env
      (mkUpdate (effective_user update) None
         (Some (mkCallbackQuery ("schedule_" +:+ choice)))) w
    = Ok None (set_ui (ui w ++ [answer (uid_of update) None false]) w).
Proof.
  intros [q Hq]. split.
  - unfold schedule_post, bind, query_edit_message_text, say, modify,
      update_session, modify, ret.
    rewrite Hq. by destruct w.
  - intros choice Hchoice.
    unfold handle_callback. unfold bind at 1, query_answer, say, modify. simpl.
    apply String.eqb_neq in Hchoice.
    change ("" +:+ choice) with choice. by rewrite Hchoice.
Qed.

(** The theorem at Alice's request and her choice of "Tomorrow 09:00". *)
Lemma C4_witness :
  let update := Samples.presses Samples.alice "schedule_post" in
  let w := Samples.composing (Some "123456:T") [Samples.text_block "Hello"] in
  db (world_of (schedule_post Samples.env_ok update w)) = db w ∧
  handle_callback Samples.env_ok (Samples.presses Samples.alice "schedule_tomorrow_0900") w
  = Ok None (set_ui [answer 1 None false] w).
Proof.
  intros update w.
  destruct (C4_schedule_request_only_prompts Samples.env_ok update w)
    as [Hprompt Hquick]; [eexists; reflexivity|].
  split.
  - rewrite Hprompt. reflexivity.
  - apply (Hquick "tomorrow_0900"). discriminate.
Defined.

(** ** Composing *)

(** The block built for a message holds what the message carries: its
    formatted text and entities, and for a photo, video or document the
    file reference, the formatted caption and the caption entities. *)
Lemma message_data_of_verbatim (m : Message) (date : Z) :
  let block := message_data_of m date in
  md_text block = or_else (text_html m) (text_markdown m) ∧
  md_entities block = entities m ∧
  md_message_id block = message_id m ∧
  (md_photo block = last (photo m)) ∧
  (photo m = [] → md_video block = video m) ∧
  (photo m = [] → video m = None → md_document block = document m) ∧
  (is_Some (md_photo block) ∨ is_Some (md_video block) ∨ is_Some (md_document block) →
   md_caption block = Some (or_else (caption_html m) (caption m)) ∧
   md_caption_entities block = Some (caption_entities m)).
Proof.
  unfold message_data_of, largest_photo.
  destruct (last (photo m)) as [p|] eqn:Hp; simpl.
  - repeat split; try done. all: intros Hnil; by rewrite Hnil in Hp.
  - destruct (video m) as [v|] eqn:Hv; simpl.
    + repeat split; done.
    + destruct (document m) as [d|] eqn:Hd; simpl.
      * repeat split; done.
      * repeat split; try done.
        all: match goal with
             | Hmedia : _ ∨ _ |- _ => by destruct Hmedia as [[? ?]|[[? ?]|[? ?]]]
             end.
Qed.

(** A message handled while the session composes for a registered channel:
    one block is appended to the sender's session, the clock is read once
    and the preview is shown. *)
Lemma handle_text_message_appends (env : Env) (update : Update) (w : World)
    (m : Message) (ch : Channel) :
  flag (creating_post (session_of (uid_of update) w)) = true →
  selected_channel_record (uid_of update) w = Some ch →
  message update = Some m →
  ∃ shown,
    handle_text_message env update w
    = Ok None
        (mkWorld (db w)
           (<[uid_of update :=
                append_block (message_data_of m (clock env (ticks w)))
                  (session_of (uid_of update) w)]> (user_data w))
           (ui w ++ [shown]) (wire w) (S (ticks w))).
Proof.
  intros Hflag Hch Hm. unfold selected_channel_record in Hch.
  unfold handle_text_message, get_session, read. unfold bind at 1.
  fold (uid_of update). rewrite Hflag. simpl. unfold bind at 1. rewrite Hch.
  rewrite Hm.
  unfold show_post_preview, get_session, read, message_reply_text.
  rewrite Hm.
  destruct (post_messages (session_of (uid_of update) w)) as [blocks|] eqn:Hblocks;
    eexists;
    unfold bind, update_session, modify, now, say, modify, ret; simpl;
    repeat (rewrite session_of_insert_same || rewrite session_of_set_ticks);
    unfold append_block; simpl;
    rewrite ?Hblocks; simpl; rewrite ?insert_insert_eq;
    unfold set_ui; simpl; reflexivity.
Qed.

(** C8 as claimed fails: the composing flag alone does not make a message a
    block.  From start-up Alice picks the channel 5, which is not
    registered; her session is then composing, and the text she sends is
    answered with "Channel not found." and appended nowhere. *)
Lemma C8_counterexample_unregistered_channel_appends_nothing :
  let w1 := run_bot Samples.env_ok
              [Samples.presses Samples.alice "select_channel_5"] World_init in
  let w2 := world_of (handle_text_message Samples.env_ok
              (Samples.says Samples.alice (Samples.text_message 1 "hi")) w1) in
  flag (creating_post (session_of 1 w1)) = true ∧
  ui w2 = ui w1 ++ [reply_text 1 (Lit "Channel not found.")] ∧
  ¬ appended_one (session_of 1 w1) (session_of 1 w2).
Proof.
  repeat split; try (vm_compute; reflexivity).
  intros [block Hblock]. vm_compute in Hblock. discriminate.
Qed.

(** The messages [ms] handled one after the other while the session
    composes for a registered channel: the block list is the old one
    followed by the blocks of [ms] in arrival order. *)
Lemma handle_text_messages_blocks (env : Env) (user : User) (ms : list Message) :
  ∀ (w : World) (ch : Channel),
    flag (creating_post (session_of (user_id user) w)) = true →
    selected_channel_record (user_id user) w = Some ch →
    let w' := handle_text_messages env user ms w in
    blocks_of (session_of (user_id user) w')
    = blocks_of (session_of (user_id user) w)
      ++ imap (λ i m, message_data_of m (clock env (ticks w + i))) ms ∧
    (∀ uid, uid ≠ user_id user → session_of uid w' = session_of uid w) ∧
    db w' = db w.
Proof.
  induction ms as [|m rest IH]; intros w ch Hflag Hch; simpl.
  - by rewrite app_nil_r.
  - destruct (handle_text_message_appends env (mkUpdate user (Some m) None) w m ch
                Hflag Hch eq_refl) as [shown Heq].
    rewrite Heq. simpl.
    set (w1 := mkWorld _ _ _ _ _).
    assert (Hs1 : session_of (user_id user) w1
                  = append_block (message_data_of m (clock env (ticks w)))
                      (session_of (user_id user) w)).
    { unfold session_of at 1, w1. simpl. by rewrite lookup_insert_eq. }
    destruct (IH w1 ch) as (Hblocks & Hothers & Hdb).
    + by rewrite Hs1.
    + unfold selected_channel_record. by rewrite Hs1.
    + split; [|split].
      * rewrite Hblocks, Hs1. unfold blocks_of at 1, append_block. simpl.
        rewrite <- app_assoc. simpl. rewrite Nat.add_0_r.
        do 2 f_equal. apply imap_ext. intros i x _. simpl.
        by rewrite Nat.add_succ_r.
      * intros uid Hne. rewrite (Hothers uid Hne).
        unfold session_of, w1. simpl. by rewrite lookup_insert_ne.
      * by rewrite Hdb.
Qed.

(** Messages the dispatcher hands to [handle_text_message], arriving while
    the session composes for a registered channel: the run of the bot is
    the run of the handler on each of them. *)
Lemma run_bot_composing (env : Env) (user : User) (ms : list Message) :
  ∀ (w : World) (ch : Channel),
    flag (creating_post (session_of (user_id user) w)) = true →
    selected_channel_record (user_id user) w = Some ch →
    (∀ m, m ∈ ms → handler_for (mkUpdate user (Some m) None) = Some handle_text_message) →
    run_bot env ((λ m, mkUpdate user (Some m) None) <$> ms) w
    = handle_text_messages env user ms w.
Proof.
  induction ms as [|m rest IH]; intros w ch Hflag Hch Hto; [done|]. simpl.
  destruct (handle_text_message_appends env (mkUpdate user (Some m) None) w m ch
              Hflag Hch eq_refl) as [shown Heq].
  unfold dispatch. rewrite (Hto m) by apply list_elem_of_here.
  unfold try_except, bind. rewrite Heq. simpl.
  set (w1 := mkWorld _ _ _ _ _).
  assert (Hs1 : session_of (user_id user) w1
                = append_block (message_data_of m (clock env (ticks w)))
                    (session_of (user_id user) w)).
  { unfold session_of at 1, w1. simpl. by rewrite lookup_insert_eq. }
  apply (IH w1 ch).
  - by rewrite Hs1.
  - unfold selected_channel_record. by rewrite Hs1.
  - intros m' Hin. apply Hto. by apply list_elem_of_further.
Qed.

(** C8, amended: while a user's session is composing and the channel it
    selects is registered, every incoming message that reaches
    [handle_text_message] appends exactly one block to the end of that
    user's block list and changes no other session and nothing in the
    database.  So after the messages [ms] the list is the old one followed
    by the blocks of [ms] in arrival order, equal messages giving equal
    blocks one after the other; and when the messages are ones the
    dispatcher hands to the handler (texts that are not forwarded and no
    commands) this is what the running bot does.  The block of the [i]-th
    message holds what the message carries, as received: its formatted
    text (the HTML text, else the Markdown text), its entities and its
    message id, the file reference of its photo (the largest size), else
    of its video, else of its document, and with a media reference the
    formatted caption (else the plain one) and the caption entities.
    (When the selected channel is not registered the handler answers
    "Channel not found." and appends nothing.) *)
Theorem C8_composing_appends_one_block_per_message (env : Env) (user : User)
    (ms : list Message) :
  ∀ (w : World) (ch : Channel),
    flag (creating_post (session_of (user_id user) w)) = true →
    selected_channel_record (user_id user) w = Some ch →
    let w' := handle_text_messages env user ms w in
    let old := blocks_of (session_of (user_id user) w) in
    blocks_of (session_of (user_id user) w')
    = old ++ imap (λ i m, message_data_of m (clock env (ticks w + i))) ms ∧
    (∀ i m, ms !! i = Some m →
       ∃ block,
         blocks_of (session_of (user_id user) w') !! (length old + i)%nat
         = Some block ∧
         md_text block = or_else (text_html m) (text_markdown m) ∧
         md_entities block = entities m ∧
         md_message_id block = message_id m ∧
         md_photo block = last (photo m) ∧
         (photo m = [] → md_video block = video m) ∧
         (photo m = [] → video m = None → md_document block = document m) ∧
         (is_Some (md_photo block) ∨ is_Some (md_video block) ∨
          is_Some (md_document block) →
          md_caption block = Some (or_else (caption_html m) (caption m)) ∧
          md_caption_entities block = Some (caption_entities m))) ∧
    (∀ uid, uid ≠ user_id user → session_of uid w' = session_of uid w) ∧
    db w' = db w ∧
    ((∀ m, m ∈ ms →
        handler_for (mkUpdate user (Some m) None) = Some handle_text_message) →
     run_bot env ((λ m, mkUpdate user (Some m) None) <$> ms) w = w').
Proof.
  intros w ch Hflag Hch w' old.
  destruct (handle_text_messages_blocks env user ms w ch Hflag Hch)
    as (Hblocks & Hothers & Hdb).
  fold w' old in Hblocks. split; [exact Hblocks|].
  split; [|split; [exact Hothers|split; [exact Hdb|]]].
  - intros i m Hm.
    exists (message_data_of m (clock env (ticks w + i))). split.
    + rewrite Hblocks, lookup_app_r by lia.
      replace (length old + i - length old)%nat with i by lia.
      by rewrite list_lookup_imap, Hm.
    + apply message_data_of_verbatim.
  - intros Hto. by apply (run_bot_composing env user ms w ch).
Qed.

(** The theorem at three text messages of Alice, the first and the last
    equal: three blocks are appended after the one she had, each with the
    text and the entity of its message. *)
Lemma C8_witness :
  let w := Samples.composing (Some "123456:T") [Samples.text_block "Hello"] in
  let ms := [Samples.text_message 21 "same"; Samples.text_message 22 "other";
             Samples.text_message 21 "same"] in
  let w' := handle_text_messages Samples.env_ok Samples.alice ms w in
  (md_text <$> blocks_of (session_of 1 w'))
  = [Some "Hello"; Some "same"; Some "other"; Some "same"] ∧
  (∀ i m, ms !! i = Some m →
     ∃ block, blocks_of (session_of 1 w') !! (1 + i)%nat = Some block ∧
              md_text block = text_html m ∧ md_entities block = [Samples.bold]) ∧
  db w' = db w ∧
  run_bot Samples.env_ok (Samples.says Samples.alice <$> ms) w = w'.
Proof.
  intros w ms w'.
  destruct (C8_composing_appends_one_block_per_message Samples.env_ok Samples.alice
              ms w (Samples.news (Some "123456:T")))
    as (Hblocks & Hverbatim & _ & Hdb & Hrun).
  - vm_compute. reflexivity.
  - vm_compute. reflexivity.
  - fold w' in Hblocks, Hverbatim, Hdb, Hrun.
    split; [|split; [|split; [exact Hdb|]]].
    3: { apply Hrun. intros m Hin.
         repeat (apply elem_of_cons in Hin as [->|Hin]; [reflexivity|]).
         by apply not_elem_of_nil in Hin. }
    + vm_compute. reflexivity.
    + intros i m Hm. destruct (Hverbatim i m Hm) as (block & Hat & Htext & Hents & _).
      exists block. split; [exact Hat|].
      destruct i as [|[|[|i]]]; simpl in Hm; simplify_eq; by rewrite Htext, Hents.
Defined.

(** ** The preview *)

Lemma string_app_assoc (a b c : string) : (a +:+ b) +:+ c = a +:+ (b +:+ c).
Proof.
  induction a as [|x a IH]; [done|].
  change (String x ((a +:+ b) +:+ c) = String x (a +:+ (b +:+ c))). by f_equal.
Qed.

Lemma string_app_nil_r (a : string) : a +:+ "" = a.
Proof.
  induction a as [|x a IH]; [done|].
  change (String x (a +:+ "") = String x a). by f_equal.
Qed.

Lemma prefix_app (s t : string) : String.prefix s (s +:+ t) = true.
Proof.
  induction s as [|x s IH].
  { change (String.prefix "" t = true). by destruct t. }
  change (String.prefix (String x s) (String x (s +:+ t)) = true). simpl.
  destruct (ascii_dec x x); [exact IH | done].
Qed.

Lemma infixb_unfold (s t : string) :
  infixb s t
  = String.prefix s t ||
    match t with
    | EmptyString => false
    | String _ t' => infixb s t'
    end.
Proof. by destruct t. Qed.

Lemma infixb_prefix (s t : string) : String.prefix s t = true → infixb s t = true.
Proof. intros H. by rewrite infixb_unfold, H. Qed.

Lemma infixb_here (s t : string) : infixb s (s +:+ t) = true.
Proof. apply infixb_prefix, prefix_app. Qed.

Lemma infixb_skip (s a t : string) : infixb s t = true → infixb s (a +:+ t) = true.
Proof.
  intros H. induction a as [|x a IH]; [done|].
  change (infixb s (String x (a +:+ t)) = true).
  rewrite infixb_unfold, IH. apply orb_true_r.
Qed.

(** A line is appended to the text built so far. *)
Lemma preview_item_acc (i : nat) (msg : MessageData) (acc : string) :
  preview_item i msg acc = acc +:+ preview_item i msg "".
Proof.
  unfold preview_item.
  repeat match goal with
         | |- context [match truthy ?x with _ => _ end] => destruct (truthy x)
         end;
    simpl; by rewrite ?string_app_nil_r.
Qed.

Lemma preview_loop_lines (msgs : list MessageData) :
  ∀ i acc,
    preview_loop i msgs acc
    = acc +:+ foldr String.append "" (imap (λ j msg, preview_item (i + j) msg "") msgs).
Proof.
  induction msgs as [|msg rest IH]; intros i acc; simpl.
  - by rewrite string_app_nil_r.
  - rewrite IH, (preview_item_acc i msg acc), string_app_assoc, Nat.add_0_r.
    do 3 f_equal. apply imap_ext. intros j x _. simpl. by rewrite Nat.add_succ_r.
Qed.

Lemma take_min_length {A} (l : list A) (n : nat) : take (length l `min` n) l = take n l.
Proof.
  destruct (decide (length l ≤ n)%nat) as [Hle|Hgt].
  - rewrite Nat.min_l by done. by rewrite !take_ge by lia.
  - by rewrite Nat.min_r by lia.
Qed.

(** For a session with blocks the text computed is the text the
    specification words. *)
Lemma preview_of_spec (channel : option Channel) (blocks : list MessageData) :
  blocks ≠ [] → preview_of channel blocks = preview_spec channel blocks.
Proof.
  intros Hne. unfold preview_of, preview_spec.
  destruct blocks as [|b bs]; [done|].
  rewrite take_min_length, preview_loop_lines.
  destruct (3 <? length (b :: bs))%nat;
    rewrite ?string_app_nil_r, !string_app_assoc; reflexivity.
Qed.

(** A block with text or media has a line that starts with its number. *)
Lemma preview_item_renderable (i : nat) (msg : MessageData) :
  renderable msg = true →
  ∃ body, preview_item i msg "" = pretty i +:+ ". " +:+ body +:+ nl.
Proof.
  unfold renderable, preview_item. intros Hr.
  destruct (truthy (md_text msg)) as [t|].
  { exists ("📝 " +:+ (if (100 <? String.length t)%nat
                      then py_take 100 t +:+ "..." else t)). reflexivity. }
  destruct (truthy (md_photo msg)).
  { by exists "📷 Photo with caption". }
  destruct (truthy (md_video msg)).
  { by exists "🎥 Video with caption". }
  destruct (truthy (md_document msg)).
  { by exists "📄 Document with caption". }
  exfalso. revert Hr. rewrite !bool_decide_eq_false_2; [done|by intros [? ?]..].
Qed.

(** C7 as claimed fails for a session without blocks, and for a block that
    has neither text nor media.  With no block the preview is the text "No
    content added yet. ..." and reports no count: the numeral 0 does not
    occur in it.  And the block made from a message without text and media
    (a sticker) gets no line. *)
Lemma C7_counterexample_empty_session_reports_no_count :
  let w := Samples.composing (Some "123456:T") [] in
  ui (world_of (show_post_preview Samples.env_ok
                  (Samples.presses Samples.alice "post_preview") true w))
  = [edit_message_text 1
       (Lit "No content added yet. Send me messages to build your post.")] ∧
  reports_count 0 "No content added yet. Send me messages to build your post."
  = false ∧
  preview_item 2 (message_data_of (Samples.sticker_message 3) 1000) "" = "".
Proof. repeat split; vm_compute; reflexivity. Qed.

(** C7, amended: for every session holding N >= 1 blocks, a preview shows
    one text that reports the block count N, has one line for each of the
    first min(N,3) blocks in arrival order, numbered from 1 (a line that
    starts with the number whenever the block has a text or a media
    reference), and reports the N - 3 further blocks as a count when N > 3;
    showing it changes nothing but the texts shown, so the session's block
    list is as before.  (With no block the preview is the text "No content
    added yet. Send me messages to build your post.") *)
Theorem C7_preview_counts_and_lists_first_three (env : Env) (update : Update)
    (is_callback : bool) (w : World) :
  let session := session_of (uid_of update) w in
  let blocks := blocks_of session in
  let channel := get_channel_if (selected_channel session) (db w) in
  blocks ≠ [] →
  (if is_callback then is_Some (callback_query update)
   else is_Some (message update)) →
  ∃ text,
    show_post_preview env update is_callback w
    = Ok None
        (set_ui (ui w ++ [(if is_callback then edit_message_text else reply_text)
                            (uid_of update) (Lit text)]) w) ∧
    blocks_of (session_of (uid_of update)
                 (world_of (show_post_preview env update is_callback w)))
    = blocks ∧
    reports_count (length blocks) text = true ∧
    text = preview_spec channel blocks ∧
    ∀ i b, take (length blocks `min` 3) blocks !! i = Some b →
           renderable b = true →
           ∃ body, preview_item (S i) b "" = pretty (S i) +:+ ". " +:+ body +:+ nl.
Proof.
  intros session blocks channel Hne Hreply.
  exists (preview_of channel blocks).
  assert (Hrun : show_post_preview env update is_callback w
    = Ok None
        (set_ui (ui w ++ [(if is_callback then edit_message_text else reply_text)
                            (uid_of update) (Lit (preview_of channel blocks))]) w)).
  { unfold show_post_preview, get_session, read.
    unfold bind at 1. unfold bind at 1.
    fold session. fold (blocks_of session). fold blocks. fold channel.
    destruct is_callback, Hreply as [x Hx];
      unfold bind, query_edit_message_text, message_reply_text, say, modify, ret;
      by rewrite Hx. }
  split; [exact Hrun|]. split; [by rewrite Hrun|]. split; [|split].
  - rewrite (preview_of_spec channel blocks Hne). unfold reports_count, preview_spec.
    do 7 apply infixb_skip. apply infixb_here.
  - by apply preview_of_spec.
  - intros i b _ Hr. by apply preview_item_renderable.
Qed.

(** The theorem at Alice's post of four blocks. *)
Lemma C7_witness :
  let update := Samples.presses Samples.alice "post_preview" in
  let blocks := [Samples.text_block "Hello"; Samples.document_block "D1";
                 Samples.photo_block "P1"; Samples.text_block "Bye"] in
  let w := Samples.composing (Some "123456:T") blocks in
  ∃ text,
    ui (world_of (show_post_preview Samples.env_ok update true w))
    = [edit_message_text 1 (Lit text)] ∧
    reports_count 4 text = true ∧
    text = preview_spec (Some (Samples.news (Some "123456:T"))) blocks.
Proof.
  intros update blocks w.
  destruct (C7_preview_counts_and_lists_first_three Samples.env_ok update true w)
    as (text & Hrun & _ & Hcount & Hspec & _).
  - discriminate.
  - eexists. reflexivity.
  - exists text. rewrite Hrun. repeat split; assumption.
Defined.


(** * More of the program *)

(** ** The database *)

Lemma get_user_channels_spec (uid : Z) (b : Database) (c : Channel) :
  c ∈ get_user_channels uid b ↔
  ∃ cid, get_channel cid b = Some c ∧ uid ∈ c_admins c.
Proof.
  unfold get_user_channels, get_channel.
  rewrite list_elem_of_filter, list_elem_of_fmap. split.
  - intros (Hadmin & [cid' c'] & -> & Hin). exists cid'. split; [|done].
    by apply elem_of_map_to_list in Hin.
  - intros (cid & Hget & Hadmin). split; [done|].
    exists (cid, c). split; [done|]. by apply elem_of_map_to_list.
Qed.

Lemma filter_fmap_snd {K V} (P : V → Prop) `{∀ v, Decision (P v)} (l : list (K * V)) :
  filter P (snd <$> l) = snd <$> filter (λ kv, P kv.2) l.
Proof.
  induction l as [|[k v] l IH]; [done|].
  rewrite fmap_cons, !filter_cons. simpl.
  destruct (decide (P v)); [rewrite fmap_cons|]; by rewrite IH.
Qed.

Lemma NoDup_fst_filter {K V} (P : K * V → Prop) `{∀ kv, Decision (P kv)}
    (l : list (K * V)) :
  NoDup (fst <$> l) → NoDup (fst <$> filter P l).
Proof.
  induction l as [|kv l IH]; [done|]. simpl. intros [Hnotin Hnodup]%NoDup_cons.
  rewrite filter_cons. destruct (decide (P kv)); [|by apply IH]. simpl.
  apply NoDup_cons. split; [|by apply IH].
  intros (kv' & Hfst & [_ Hin]%list_elem_of_filter)%list_elem_of_fmap.
  apply Hnotin, list_elem_of_fmap. by exists kv'.
Qed.

(** The listing has one entry for each id under which a record with the
    user among its admins is stored. *)
Lemma get_user_channels_ids (uid : Z) (b : Database) :
  ∃ ids : list Z,
    NoDup ids ∧
    (∀ cid, cid ∈ ids ↔ ∃ c, get_channel cid b = Some c ∧ uid ∈ c_admins c) ∧
    Forall2 (λ cid c, get_channel cid b = Some c) ids (get_user_channels uid b).
Proof.
  set (l := filter (λ kv : Z * Channel, uid ∈ c_admins kv.2)
              (map_to_list (channels b))).
  assert (Hl : ∀ kv, kv ∈ l ↔ get_channel kv.1 b = Some kv.2 ∧ uid ∈ c_admins kv.2).
  { intros [cid c]. unfold l. rewrite list_elem_of_filter, elem_of_map_to_list.
    simpl. unfold get_channel. tauto. }
  exists (fst <$> l). split; [|split].
  - apply NoDup_fst_filter, NoDup_fst_map_to_list.
  - intros cid. rewrite list_elem_of_fmap. split.
    + intros ([cid' c] & -> & Hin). apply Hl in Hin. by exists c.
    + intros (c & Hget & Hadmin). exists (cid, c). split; [done|]. by apply Hl.
  - unfold get_user_channels. rewrite filter_fmap_snd. fold l.
    apply Forall2_fmap, Forall_Forall2_diag, Forall_forall.
    intros kv Hin. by apply Hl in Hin as [Hget _].
Qed.

(** X1: the channels listed for a user are exactly the stored records
    whose admin list holds the user, each listed once for each id it is
    stored under: the listing runs through the ids of these records, no id
    twice, and gives the record of each.  A user who is in no admin list is
    listed nothing. *)
Theorem get_user_channels_lists_the_admin_s_channels (uid : Z) (b : Database) :
  (∀ c, c ∈ get_user_channels uid b ↔
        ∃ cid, get_channel cid b = Some c ∧ uid ∈ c_admins c) ∧
  (get_user_channels uid b = [] ↔
   ∀ cid c, get_channel cid b = Some c → uid ∉ c_admins c) ∧
  (∃ ids : list Z,
     NoDup ids ∧
     (∀ cid, cid ∈ ids ↔ ∃ c, get_channel cid b = Some c ∧ uid ∈ c_admins c) ∧
     Forall2 (λ cid c, get_channel cid b = Some c) ids (get_user_channels uid b)).
Proof.
  split; [intros c; apply get_user_channels_spec|].
  split; [|apply get_user_channels_ids]. split.
  - intros Hnil cid c Hget Hadmin.
    assert (Hin : c ∈ get_user_channels uid b)
      by (apply get_user_channels_spec; eauto).
    rewrite Hnil in Hin. by apply not_elem_of_nil in Hin.
  - intros Hnone. destruct (get_user_channels uid b) as [|c l] eqn:E; [done|].
    assert (Hin : c ∈ get_user_channels uid b) by (rewrite E; left).
    apply get_user_channels_spec in Hin as (cid & Hget & Hadmin).
    by destruct (Hnone cid c Hget).
Qed.

(** X2: saving a channel replaces what is stored under its id and nothing
    else.  Afterwards the id gives the new record, every other id gives
    what it gave before, users and posts are as they were, and a user is
    listed a record exactly when they are an admin of the new record or of a
    record kept under another id. *)
Theorem save_channel_replaces_one_record (cid : Z) (d : Channel) (b : Database) :
  get_channel cid (save_channel cid d b) = Some d ∧
  (∀ cid', cid' ≠ cid → get_channel cid' (save_channel cid d b) = get_channel cid' b) ∧
  users (save_channel cid d b) = users b ∧
  posts (save_channel cid d b) = posts b ∧
  ∀ uid c,
    c ∈ get_user_channels uid (save_channel cid d b) ↔
    (uid ∈ c_admins c ∧
     (c = d ∨ ∃ cid', cid' ≠ cid ∧ get_channel cid' b = Some c)).
Proof.
  assert (Hsame : get_channel cid (save_channel cid d b) = Some d)
    by apply lookup_insert_eq.
  assert (Hother : ∀ cid', cid' ≠ cid →
            get_channel cid' (save_channel cid d b) = get_channel cid' b)
    by (intros cid' Hne; by apply lookup_insert_ne).
  split; [done|]. split; [done|]. split; [done|]. split; [done|].
  intros uid c. rewrite get_user_channels_spec. split.
  - intros (cid' & Hget & Hadmin). split; [done|].
    destruct (decide (cid' = cid)) as [->|Hne].
    + left. rewrite Hsame in Hget. by injection Hget.
    + right. exists cid'. split; [done|]. by rewrite <- (Hother cid' Hne).
  - intros [Hadmin [->|(cid' & Hne & Hget)]].
    + by exists cid.
    + exists cid'. split; [|done]. by rewrite (Hother cid' Hne).
Qed.

(** ** Registering a user and choosing a language *)

(** The record [/start] stores for a user. *)
Lemma start_db (env : Env) (update : Update) (w : World) :
  db (world_of (start env update w))
  = save_user (uid_of update)
      (mkUserData (Some (uid_of update)) (Some (username (effective_user update)))
         (Some (first_name (effective_user update)))
         (Some (default "en" (get_user (uid_of update) (db w) ≫= u_language))))
      (db w) ∧
  user_data (world_of (start env update w)) = user_data w ∧
  wire (world_of (start env update w)) = wire w.
Proof.
  unfold start, read, modify_db, modify, message_reply_text, say, modify, raise, ret.
  unfold bind. simpl.
  destruct (get_user (user_id (effective_user update)) (db w)) as [u|] eqn:Hu;
    unfold uid_of; rewrite Hu; by destruct (message update).
Qed.

(** X3: [/start] stores the user's id, username and first name, keeps the
    language the user had and takes English for a user without one; it
    touches no other user, no channel, no post and no session, and sends
    nothing.  Starting twice leaves the database as starting once. *)
Theorem start_registers_user_and_keeps_language (env : Env) (update : Update)
    (w : World) :
  let uid := uid_of update in
  let w' := world_of (start env update w) in
  get_user uid (db w')
  = Some (mkUserData (Some uid) (Some (username (effective_user update)))
            (Some (first_name (effective_user update)))
            (Some (default "en" (get_user uid (db w) ≫= u_language)))) ∧
  (∀ uid', uid' ≠ uid → get_user uid' (db w') = get_user uid' (db w)) ∧
  channels (db w') = channels (db w) ∧
  posts (db w') = posts (db w) ∧
  user_data w' = user_data w ∧
  wire w' = wire w ∧
  db (world_of (start env update w')) = db w'.
Proof.
  intros uid w'.
  destruct (start_db env update w) as (Hdb & Hsessions & Hwire).
  fold w' uid in Hdb, Hsessions, Hwire.
  assert (Hget : get_user uid (db w')
            = Some (mkUserData (Some uid) (Some (username (effective_user update)))
                      (Some (first_name (effective_user update)))
                      (Some (default "en" (get_user uid (db w) ≫= u_language)))))
    by (rewrite Hdb; apply lookup_insert_eq).
  split; [exact Hget|].
  split. { intros uid' Hne. rewrite Hdb. by apply lookup_insert_ne. }
  split; [by rewrite Hdb|]. split; [by rewrite Hdb|].
  split; [done|]. split; [done|].
  destruct (start_db env update w') as (Hdb' & _ & _).
  rewrite Hdb'. fold uid. rewrite Hget. simpl. rewrite Hdb.
  unfold save_user. simpl. by rewrite insert_insert_eq.
Qed.

Lemma split_on_nonempty (sep : ascii) (s : string) : split_on sep s ≠ [].
Proof.
  destruct s as [|c s]; simpl; [done|].
  destruct (Ascii.eqb c sep); [done|]. by destruct (split_on sep s).
Qed.

Lemma prefix_empty (s : string) : String.prefix "" s = true.
Proof. by destruct s. Qed.

(** The language a [lang_...] button stores: the text up to the next
    underscore. *)
Lemma lang_segment (l : string) :
  split_on "_" ("lang_" +:+ l) !! 1%nat = head (split_on "_" l).
Proof.
  change ("lang_" +:+ l)
    with (String "l" (String "a" (String "n" (String "g" (String "_" l))))).
  simpl. by destruct (split_on "_" l).
Qed.

(** X4: pressing a [lang_...] button stores as the user's language the text
    between the first underscore and the next one (all of the rest when it
    has no underscore), creating the user's record when there is none and
    keeping its other entries when there is one; a later [/start] keeps the
    language chosen. *)
Theorem language_choice_is_stored_and_survives_start (env : Env) (user : User)
    (l : string) (m : Message) (w : World) :
  let press := mkUpdate user None (Some (mkCallbackQuery ("lang_" +:+ l))) in
  let chosen := default "" (head (split_on "_" l)) in
  let before := default empty_user (get_user (user_id user) (db w)) in
  let w1 := world_of (handle_callback env press w) in
  let w2 := world_of (start env (mkUpdate user (Some m) None) w1) in
  get_user (user_id user) (db w1)
  = Some (mkUserData (u_id before) (u_username before) (u_first_name before)
            (Some chosen)) ∧
  (u_language <$> get_user (user_id user) (db w2)) = Some (Some chosen) ∧
  user_data w1 = user_data w ∧
  channels (db w1) = channels (db w).
Proof.
  intros press chosen before w1 w2.
  assert (Hrun : handle_callback env press w
    = Ok None
        (mkWorld
           (save_user (user_id user)
              (mkUserData (u_id before) (u_username before) (u_first_name before)
                 (Some chosen)) (db w))
           (user_data w)
           (ui w ++ [answer (user_id user) None false;
                     edit_message_text (user_id user)
                       (language_changed (String.eqb chosen "en"))])
           (wire w) (ticks w))).
  { subst press chosen. rewrite <- lang_segment.
    unfold handle_callback.
    unfold bind at 1, query_answer, say, modify. simpl.
    rewrite prefix_empty.
    unfold bind, read, modify_db, modify, query_edit_message_text, say, modify, ret.
    simpl. rewrite <- app_assoc. reflexivity. }
  assert (Hw1 : db w1 = save_user (user_id user)
            (mkUserData (u_id before) (u_username before) (u_first_name before)
               (Some chosen)) (db w) ∧ user_data w1 = user_data w).
  { subst w1. by rewrite Hrun. }
  destruct Hw1 as [Hdb1 Hs1].
  assert (Hget1 : get_user (user_id user) (db w1)
            = Some (mkUserData (u_id before) (u_username before)
                      (u_first_name before) (Some chosen))).
  { rewrite Hdb1. apply lookup_insert_eq. }
  split; [exact Hget1|]. split; [|split; [done|by rewrite Hdb1]].
  assert (Hdb2 : db w2
    = save_user (user_id user)
        (mkUserData (Some (user_id user)) (Some (username user))
           (Some (first_name user))
           (Some (default "en" (get_user (user_id user) (db w1) ≫= u_language))))
        (db w1))
    by apply (start_db env (mkUpdate user (Some m) None) w1).
  rewrite Hdb2, Hget1. unfold get_user, save_user. simpl.
  by rewrite lookup_insert_eq.
Qed.

(** ** Decimal numerals in callback data *)

Lemma pretty_N_char_digit (d : N) :
  (d < 10)%N →
  is_digit (pretty_N_char d) = true ∧
  Z.of_nat (nat_of_ascii (pretty_N_char d) - 48) = Z.of_N d.
Proof.
  intros Hd.
  assert (d = 0 ∨ d = 1 ∨ d = 2 ∨ d = 3 ∨ d = 4 ∨ d = 5 ∨ d = 6 ∨ d = 7 ∨
          d = 8 ∨ d = 9)%N as Hcases by lia.
  repeat (destruct Hcases as [->|Hcases]; [by vm_compute|]).
  subst d. by vm_compute.
Qed.

(** Reading the digits that [pretty_N_go] puts in front of a text. *)
Lemma digits_value_pretty_N_go (x : N) :
  ∀ s, ∃ p : Z, ∀ acc,
    digits_value acc (pretty_N_go x s) = digits_value (acc * p + Z.of_N x)%Z s.
Proof.
  induction (N.lt_wf_0 x) as [x _ IH]. intros s.
  destruct (decide (x = 0%N)) as [->|Hx].
  - exists 1%Z. intros acc. rewrite pretty_N_go_0. f_equal. lia.
  - rewrite pretty_N_go_step by lia.
    destruct (IH (x `div` 10)%N (N.div_lt x 10 ltac:(lia) eq_refl)
                (String (pretty_N_char (x `mod` 10)) s)) as [p Hp].
    exists (10 * p)%Z. intros acc. rewrite Hp. simpl.
    destruct (pretty_N_char_digit (x `mod` 10)%N) as [-> ->];
      [by apply N.mod_lt|].
    f_equal. pose proof (N.div_mod x 10 ltac:(done)). lia.
Qed.

Lemma all_chars_pretty_N_go (P : ascii → bool) (x : N) :
  (∀ d, P (pretty_N_char d) = true) →
  ∀ s, all_chars P s = true → all_chars P (pretty_N_go x s) = true.
Proof.
  intros HP. induction (N.lt_wf_0 x) as [x _ IH]. intros s Hs.
  destruct (decide (x = 0%N)) as [->|Hx]; [by rewrite pretty_N_go_0|].
  rewrite pretty_N_go_step by lia.
  apply IH; [apply N.div_lt; [lia|done]|]. simpl. by rewrite HP, Hs.
Qed.

Lemma pretty_N_go_nonempty (x : N) :
  ∀ s, str_truthy s = true → str_truthy (pretty_N_go x s) = true.
Proof.
  induction (N.lt_wf_0 x) as [x _ IH]. intros s Hs.
  destruct (decide (x = 0%N)) as [->|Hx]; [by rewrite pretty_N_go_0|].
  rewrite pretty_N_go_step by lia. apply IH; [apply N.div_lt; [lia|done]|done].
Qed.

Lemma pretty_positive_go (x : positive) :
  pretty x = pretty_N_go (Npos x) "".
Proof. reflexivity. Qed.

Lemma pretty_positive_digits (x : positive) :
  digits_value 0 (pretty x) = Some (Zpos x) ∧
  all_chars is_digit (pretty x) = true ∧
  str_truthy (pretty x) = true.
Proof.
  rewrite pretty_positive_go. split; [|split].
  - destruct (digits_value_pretty_N_go (Npos x) "") as [p Hp]. by rewrite Hp.
  - apply all_chars_pretty_N_go; [|done].
    intros d. unfold pretty_N_char. by repeat case_match.
  - rewrite pretty_N_go_step by lia. by apply pretty_N_go_nonempty.
Qed.

Lemma all_chars_impl (P Q : ascii → bool) (s : string) :
  (∀ c, P c = true → Q c = true) → all_chars P s = true → all_chars Q s = true.
Proof.
  intros HPQ. induction s as [|c s IH]; simpl; [done|].
  intros [Hc Hs]%andb_true_iff. by rewrite (HPQ c Hc), IH.
Qed.

(** The numeral of an integer consists of digits and at most a leading
    minus sign. *)
Lemma pretty_Z_numeral (z : Z) : all_chars numeral_char (pretty z) = true.
Proof.
  assert (Hpos : ∀ x : positive, all_chars numeral_char (pretty x) = true).
  { intros x. destruct (pretty_positive_digits x) as (_ & Hd & _).
    revert Hd. apply all_chars_impl. intros c Hc. unfold numeral_char.
    by rewrite Hc. }
  destruct z as [|x|x]; [done|apply Hpos|].
  change (pretty (Zneg x)) with (String "-" (pretty x)). simpl. apply Hpos.
Qed.

Lemma String_rev_app_rev_app (s t u : string) :
  String.rev_app (String.rev_app s t) u = String.rev_app t (s +:+ u).
Proof.
  revert t u. induction s as [|a s IH]; intros t u; [done|].
  simpl. rewrite IH. reflexivity.
Qed.

Lemma String_rev_involutive (s : string) : String.rev (String.rev s) = s.
Proof.
  unfold String.rev. rewrite String_rev_app_rev_app. simpl.
  apply string_app_nil_r.
Qed.

Lemma all_chars_rev_app (P : ascii → bool) (s t : string) :
  all_chars P s = true → all_chars P t = true →
  all_chars P (String.rev_app s t) = true.
Proof.
  revert t. induction s as [|a s IH]; intros t Hs Ht; [done|].
  simpl in *. apply andb_true_iff in Hs as [Ha Hs].
  apply IH; [done|]. simpl. by rewrite Ha, Ht.
Qed.

Lemma lstrip_no_space (s : string) :
  all_chars (λ c, negb (is_space c)) s = true → lstrip s = s.
Proof.
  destruct s as [|c s]; simpl; [done|].
  intros [Hc _]%andb_true_iff. by apply negb_true_iff in Hc as ->.
Qed.

(** A text without blanks is its own [strip]. *)
Lemma strip_no_space (s : string) :
  all_chars (λ c, negb (is_space c)) s = true → strip s = s.
Proof.
  intros Hs. unfold strip. rewrite (lstrip_no_space s Hs).
  rewrite lstrip_no_space; [apply String_rev_involutive|].
  by apply all_chars_rev_app.
Qed.

Lemma numeral_char_props (c : ascii) :
  numeral_char c = true →
  negb (is_space c) = true ∧ Ascii.eqb c "_" = false ∧ Ascii.eqb c "+" = false.
Proof.
  unfold numeral_char. intros [Hd|Hm]%orb_true_iff.
  - assert (Hne : ∀ c', is_digit c' = false → Ascii.eqb c c' = false).
    { intros c' Hc'. destruct (Ascii.eqb c c') eqn:E; [|done].
      apply Ascii.eqb_eq in E as <-. congruence. }
    repeat split; [|by apply Hne..].
    unfold is_digit in Hd. unfold is_space.
    apply andb_true_iff in Hd as [H1%Nat.leb_le H2%Nat.leb_le].
    apply negb_true_iff.
    repeat (apply orb_false_iff; split);
      first [ apply andb_false_iff; left; apply Nat.leb_gt; lia
            | apply andb_false_iff; right; apply Nat.leb_gt; lia
            | apply Nat.eqb_neq; lia ].
  - apply Ascii.eqb_eq in Hm as ->. by vm_compute.
Qed.

(** [int] reads back the numeral of every integer. *)
Lemma py_int_pretty (z : Z) : py_int (pretty z) = Some z.
Proof.
  unfold py_int. rewrite strip_no_space.
  2: { generalize (pretty_Z_numeral z). apply all_chars_impl.
       intros c Hc. by apply numeral_char_props. }
  destruct z as [|x|x]; [done| |].
  - destruct (pretty_positive_digits x) as (Hval & Hdig & Hne).
    change (pretty (Zpos x)) with (pretty x).
    destruct (pretty x) as [|c s] eqn:E; [done|].
    simpl in Hdig. apply andb_true_iff in Hdig as [Hc _].
    assert (Hnum : numeral_char c = true) by (unfold numeral_char; by rewrite Hc).
    destruct (numeral_char_props c Hnum) as (_ & _ & Hplus).
    assert (Hminus : Ascii.eqb c "-" = false).
    { destruct (Ascii.eqb c "-") eqn:Em; [|done].
      apply Ascii.eqb_eq in Em as ->. by vm_compute in Hc. }
    by rewrite Hminus, Hplus.
  - destruct (pretty_positive_digits x) as (Hval & _ & Hne).
    change (pretty (Zneg x)) with (String "-" (pretty x)).
    cbv iota beta. rewrite Ascii.eqb_refl, Hne, Hval. done.
Qed.

(** A text without underscore is one segment. *)
Lemma split_on_no_sep (s : string) :
  all_chars (λ c, negb (Ascii.eqb c "_")) s = true → split_on "_" s = [s].
Proof.
  induction s as [|c s IH]; simpl; [done|].
  intros [Hc Hs]%andb_true_iff. apply negb_true_iff in Hc. by rewrite Hc, IH.
Qed.

Lemma select_channel_segments (t : string) :
  split_on "_" ("select_channel_" +:+ t) = "select" :: "channel" :: split_on "_" t.
Proof.
  change ("select_channel_" +:+ t)
    with (String "s" (String "e" (String "l" (String "e" (String "c" (String "t"
         (String "_" (String "c" (String "h" (String "a" (String "n" (String "n"
         (String "e" (String "l" (String "_" t))))))))))))))).
  simpl. destruct (split_on "_" t) eqn:E; [by apply split_on_nonempty in E|done].
Qed.

(** ** Picking a channel *)

Lemma select_channel_not_back (data : string) :
  String.prefix "select_channel_" data = true →
  String.eqb data "back_to_main" = false.
Proof.
  intros Hprefix. destruct (String.eqb data "back_to_main") eqn:E; [|done].
  apply String.eqb_eq in E. subst data. by vm_compute in Hprefix.
Qed.

(** A [select_channel_...] press whose last segment is a numeral. *)
Lemma handle_callback_select_channel (env : Env) (user : User) (data : string)
    (channel_id : Z) (w : World) :
  String.prefix "select_channel_" data = true →
  py_int (default "" (last (split_on "_" data))) = Some channel_id →
  handle_callback env (press user data) w
  = Ok None
      (mkWorld (db w)
         (<[user_id user :=
              set_creating_post (Some true)
                (set_selected_channel (Some channel_id)
                   (session_of (user_id user) w))]> (user_data w))
         (ui w ++ answer (user_id user) None false ::
            match get_channel channel_id (db w) with
            | Some channel =>
                [edit_message_text (user_id user) (creating_post_for (c_name channel))]
            | None => []
            end)
         (wire w) (ticks w)).
Proof.
  intros Hprefix Hint. unfold handle_callback.
  unfold bind at 1, query_answer, say, modify. simpl.
  rewrite (select_channel_not_back data Hprefix), Hprefix, Hint.
  unfold bind, update_session, modify, read, query_edit_message_text, say,
    modify, ret. simpl.
  repeat (rewrite session_of_insert_same). rewrite insert_insert_eq.
  destruct (get_channel channel_id (db w)); simpl;
    rewrite <- ?app_assoc; reflexivity.
Qed.


Lemma select_channel_button_parses (channel_id : Z) :
  String.prefix "select_channel_" (select_channel_button channel_id) = true ∧
  py_int (default "" (last (split_on "_" (select_channel_button channel_id))))
  = Some channel_id.
Proof.
  split; [apply prefix_app|]. unfold select_channel_button.
  rewrite select_channel_segments, split_on_no_sep.
  - simpl. apply py_int_pretty.
  - generalize (pretty_Z_numeral channel_id). apply all_chars_impl.
    intros c Hc. destruct (numeral_char_props c Hc) as (_ & -> & _). done.
Qed.

(** X5: the button [new_post] builds for a channel selects that channel,
    whatever its id: pressing it stores the id as the session's selected
    channel and sets the composing flag.  Nothing else changes: the blocks
    already in the session stay (a draft begun for another channel is kept
    for the new one), other sessions, the database and the transport are
    untouched. *)
Theorem select_channel_button_selects_its_channel (env : Env) (user : User)
    (channel_id : Z) (w : World) :
  let uid := user_id user in
  let w' := world_of (handle_callback env
                        (press user (select_channel_button channel_id)) w) in
  session_of uid w'
  = set_creating_post (Some true)
      (set_selected_channel (Some channel_id) (session_of uid w)) ∧
  blocks_of (session_of uid w') = blocks_of (session_of uid w) ∧
  (∀ uid', uid' ≠ uid → session_of uid' w' = session_of uid' w) ∧
  db w' = db w ∧
  wire w' = wire w.
Proof.
  intros uid w'.
  destruct (select_channel_button_parses channel_id) as [Hprefix Hint].
  subst w'. rewrite (handle_callback_select_channel env user _ channel_id w
                       Hprefix Hint).
  simpl. fold uid.
  assert (Hs : session_of uid
            (mkWorld (db w)
               (<[uid := set_creating_post (Some true)
                           (set_selected_channel (Some channel_id)
                              (session_of uid w))]> (user_data w))
               (ui w ++ answer uid None false ::
                  match get_channel channel_id (db w) with
                  | Some channel =>
                      [edit_message_text uid (creating_post_for (c_name channel))]
                  | None => []
                  end)
               (wire w) (ticks w))
            = set_creating_post (Some true)
                (set_selected_channel (Some channel_id) (session_of uid w))).
  { unfold session_of at 1. simpl. by rewrite lookup_insert_eq. }
  rewrite Hs. repeat split.
  intros uid' Hne. unfold session_of. simpl. by rewrite lookup_insert_ne.
Qed.



(** ** The program from start-up *)

Lemma idle_flag_frame (w w' : World) : flag_frame w w' → idle w → idle w'.
Proof.
  intros [Hs Hc] [Hempty Hoff]. split.
  - by rewrite (Hc Hoff).
  - intros uid. destruct (Hs uid) as [-> | ->]; [apply Hoff | done].
Qed.

Lemma idle_frame_refl (w : World) : idle_frame w w.
Proof. split; [apply flag_frame_refl | done]. Qed.

Lemma idle_frame_trans (w1 w2 w3 : World) :
  idle_frame w1 w2 → idle_frame w2 w3 → idle_frame w1 w3.
Proof.
  intros [Hf12 Hq12] [Hf23 Hq23]. split; [by eapply flag_frame_trans|].
  intros Hidle. destruct (Hq12 Hidle) as (Hw & Hp & Hb).
  destruct (Hq23 (idle_flag_frame _ _ Hf12 Hidle)) as (Hw' & Hp' & Hb').
  rewrite Hw', Hp'. repeat split; [done..|]. intros uid. by rewrite Hb'.
Qed.

Lemma keeps_idle_intro {A} (c : M A) :
  keeps flag_frame c →
  (∀ w, idle w →
     wire (world_of (c w)) = wire w ∧
     posts (db (world_of (c w))) = posts (db w) ∧
     ∀ uid, post_messages (session_of uid (world_of (c w)))
            = post_messages (session_of uid w)) →
  keeps idle_frame c.
Proof. intros Hf Hq w. split; [apply Hf | apply Hq]. Qed.

Lemma idle_say (e : UiEvent) : keeps idle_frame (say e).
Proof. apply keeps_idle_intro; [apply keeps_say | done]. Qed.

Lemma idle_now (env : Env) : keeps idle_frame (now env).
Proof. apply keeps_idle_intro; [apply keeps_now | done]. Qed.

Lemma idle_modify_db (f : Database → Database) :
  (∀ d, channels (f d) = channels d) → (∀ d, posts (f d) = posts d) →
  keeps idle_frame (modify_db f).
Proof.
  intros Hc Hp. apply keeps_idle_intro; [by apply keeps_modify_db|].
  intros w _. simpl. by rewrite Hp.
Qed.

Lemma idle_update_session (uid : Z) (f : Session → Session) :
  (∀ s, adding_channel (f s) = adding_channel s) →
  (∀ s, post_messages (f s) = post_messages s) →
  keeps idle_frame (update_session uid f).
Proof.
  intros Ha Hp. apply keeps_idle_intro.
  - apply keeps_update_session. intros s. left. apply Ha.
  - intros w _. repeat split. intros uid'. simpl.
    destruct (decide (uid = uid')) as [<-|Hne].
    + by rewrite session_of_update_same.
    + by rewrite session_of_update_other.
Qed.

Lemma idle_message_reply_text (update : Update) (t : Text) :
  keeps idle_frame (message_reply_text update t).
Proof.
  apply keeps_idle_intro; [apply keeps_message_reply_text|].
  intros w _. unfold message_reply_text. by destruct (message update).
Qed.

Lemma idle_query_answer (update : Update) (t : option string) (alert : bool) :
  keeps idle_frame (query_answer update t alert).
Proof.
  apply keeps_idle_intro; [apply keeps_query_answer|].
  intros w _. unfold query_answer. by destruct (callback_query update).
Qed.

Lemma idle_query_edit_message_text (update : Update) (t : Text) :
  keeps idle_frame (query_edit_message_text update t).
Proof.
  apply keeps_idle_intro; [apply keeps_query_edit_message_text|].
  intros w _. unfold query_edit_message_text. by destruct (callback_query update).
Qed.

Create HintDb idle.

#[local] Hint Resolve idle_say idle_now idle_message_reply_text idle_query_answer
  idle_query_edit_message_text : idle.

(** One step of a proof that a handler keeps [idle_frame]. *)
Ltac idle_step :=
  cbv zeta;
  first
    [ solve [auto 1 with idle nocore]
    | apply (keeps_ret _ idle_frame_refl)
    | apply (keeps_raise _ idle_frame_refl)
    | apply (keeps_read _ idle_frame_refl)
    | apply (keeps_TelegramBot _ idle_frame_refl)
    | apply (keeps_channel_buttons _ idle_frame_refl)
    | apply idle_modify_db; intros; reflexivity
    | apply idle_update_session; intros; reflexivity
    | apply (keeps_bind _ idle_frame_trans); [|intros]
    | match goal with
      | |- keeps _ (match ?x with _ => _ end) => destruct x
      | |- keeps _ (if ?b then _ else _) => destruct b
      end ].

Ltac idle_auto := repeat idle_step.

Lemma idle_show_post_preview (env : Env) (update : Update) (is_callback : bool) :
  keeps idle_frame (show_post_preview env update is_callback).
Proof. unfold show_post_preview, get_session. idle_auto. Qed.

#[local] Hint Resolve idle_show_post_preview : idle.

Lemma idle_schedule_post (env : Env) (update : Update) :
  keeps idle_frame (schedule_post env update).
Proof. unfold schedule_post. idle_auto. Qed.

#[local] Hint Resolve idle_schedule_post : idle.

(** With nothing registered a delivery stops at "Channel not found.". *)
Lemma idle_send_post_to_channel (env : Env) (update : Update) :
  keeps idle_frame (send_post_to_channel env update).
Proof.
  apply keeps_idle_intro; [apply keeps_send_post_to_channel|].
  intros w [Hempty _].
  destruct (send_post_guarded env update w)
    as [(cid & ch & token & blocks & _ & Hch & _)|[shown ->]]; [|done].
  unfold get_channel in Hch. by rewrite Hempty, lookup_empty in Hch.
Qed.

#[local] Hint Resolve idle_send_post_to_channel : idle.

(** With nothing registered a message is answered with "Channel not
    found." at most. *)
Lemma idle_handle_text_message (env : Env) (update : Update) :
  keeps idle_frame (handle_text_message env update).
Proof.
  apply keeps_idle_intro; [apply keeps_handle_text_message|].
  intros w [Hempty _].
  assert (Hshown : ∃ shown,
            world_of (handle_text_message env update w) = set_ui shown w).
  { unfold handle_text_message, get_session, read. unfold bind at 1.
    destruct (flag (creating_post
                      (session_of (user_id (effective_user update)) w)));
      simpl; [|exists (ui w); by destruct w].
    unfold bind at 1.
    assert (Hnone : get_channel_opt
              (selected_channel (session_of (user_id (effective_user update)) w))
              (db w) = None).
    { unfold get_channel_opt, get_channel.
      destruct (selected_channel _); simpl; [|done].
      by rewrite Hempty, lookup_empty. }
    rewrite Hnone. unfold bind, message_reply_text, say, modify, raise, ret.
    destruct (message update); simpl; [by eexists|].
    exists (ui w). by destruct w. }
  destruct Hshown as [shown ->]. done.
Qed.

Lemma idle_handle_forwarded_message (env : Env) (update : Update) :
  keeps idle_frame (handle_forwarded_message env update).
Proof.
  apply keeps_idle_intro; [apply keeps_handle_forwarded_message|].
  intros w [_ Hoff].
  assert (Hsame : handle_forwarded_message env update w = Ok None w).
  { unfold handle_forwarded_message, get_session, read.
    unfold bind at 1. by rewrite Hoff. }
  by rewrite Hsame.
Qed.

Lemma idle_handle_callback (env : Env) (update : Update) :
  keeps idle_frame (handle_callback env update).
Proof. unfold handle_callback, show_main_menu. idle_auto. Qed.

Lemma idle_error_handler (env : Env) (update : Update) (e : Exn) :
  keeps idle_frame (error_handler env update e).
Proof. unfold error_handler. idle_auto. Qed.

Lemma idle_handler_for (env : Env) (update : Update) (h : Handler) :
  handler_for update = Some h → keeps idle_frame (h env update).
Proof.
  unfold handler_for. destruct (message update) as [m|].
  - destruct (bot_command m ≫= command_handler) as [h'|] eqn:Hcmd.
    + intros [= <-]. destruct (bot_command m) as [c|]; [|done]. simpl in Hcmd.
      unfold command_handler in Hcmd.
      repeat match type of Hcmd with
             | (if ?b then _ else _) = _ => destruct b
             end;
        try discriminate; injection Hcmd as <-;
        unfold start, help_command, new_post, add_channel, my_channels, settings,
          change_language; idle_auto.
    + destruct (bool_decide _).
      * intros [= <-]. apply idle_handle_forwarded_message.
      * destruct (_ && _); [|done]. intros [= <-]. apply idle_handle_text_message.
  - destruct (callback_query update); [|done].
    intros [= <-]. apply idle_handle_callback.
Qed.

Lemma idle_dispatch (env : Env) (update : Update) :
  keeps idle_frame (dispatch env update).
Proof.
  unfold dispatch. destruct (handler_for update) as [h|] eqn:Hh; [|idle_auto].
  apply (keeps_try_except _ idle_frame_trans).
  - apply (keeps_bind _ idle_frame_trans); [|intros; idle_auto].
    by apply idle_handler_for.
  - intros e h' [= <-]. apply idle_error_handler.
Qed.

Lemma run_bot_idle_frame (env : Env) (updates : list Update) :
  ∀ w, idle_frame w (run_bot env updates w).
Proof.
  induction updates as [|u rest IH]; intros w; simpl.
  - apply idle_frame_refl.
  - eapply idle_frame_trans; [apply idle_dispatch | apply IH].
Qed.

Lemma World_init_idle : idle World_init.
Proof. split; [done|]. intros uid. unfold session_of. simpl. by rewrite lookup_empty. Qed.

(** X7: as the handlers are registered, the program never gets anywhere.
    From start-up, whatever updates arrive and whatever the outside world
    answers, no channel is ever registered, no post is ever stored, no
    call is ever made with a channel's bot, and no session ever holds a
    block; no user is ever listed a channel, so [/newpost], sent at any
    time, ends with "There is no added channels yet.".  (Registering a
    channel needs the ['adding_channel'] flag, which nothing sets.) *)
Theorem nothing_is_ever_registered_sent_or_stored (env : Env) (updates : list Update) :
  let w := run_bot env updates World_init in
  channels (db w) = ∅ ∧
  posts (db w) = ∅ ∧
  wire w = [] ∧
  (∀ uid, blocks_of (session_of uid w) = []) ∧
  (∀ uid, get_user_channels uid (db w) = []) ∧
  ∀ user m,
    new_post env (mkUpdate user (Some m) None) w
    = Ok (Some ConversationHandler_END)
        (set_ui (ui w ++
           [reply_text (user_id user)
              (Lit ("There is no added channels yet." +:+ nl +:+ nl +:+
                    "Send /addchannel to add a new one."))]) w).
Proof.
  intros w.
  destruct (run_bot_idle_frame env updates World_init) as [Hflag Hquiet].
  destruct (Hquiet World_init_idle) as (Hwire & Hposts & Hblocks).
  destruct (idle_flag_frame _ _ Hflag World_init_idle) as [Hempty _].
  fold w in Hwire, Hposts, Hblocks, Hempty.
  assert (Hnone : ∀ uid, get_user_channels uid (db w) = []).
  { intros uid. unfold get_user_channels. rewrite Hempty.
    by rewrite map_to_list_empty. }
  repeat split; try done.
  - intros uid. unfold blocks_of. rewrite Hblocks.
    unfold session_of. simpl. by rewrite lookup_empty.
  - intros user m. unfold new_post, read. unfold bind at 1. simpl.
    rewrite Hnone. reflexivity.
Qed.

(** ** Replies *)

Lemma calls_made_same (w : World) (shown : list UiEvent) :
  calls_made w (set_ui shown w) = [].
Proof. unfold calls_made. simpl. apply drop_all. Qed.

(** What [send_reply] comes to, case by case. *)
Lemma send_reply_cases (env : Env) (reply_data : ReplyData)
    (original_message_id : Z) (w : World) :
  send_reply env reply_data original_message_id w
  = match rd_channel_id reply_data, rd_user_id reply_data with
    | None, _ =>
        Ok false (set_ui (ui w ++ [logger_error "Error sending reply: 'channel_id'"]) w)
    | Some _, None =>
        Ok false (set_ui (ui w ++ [logger_error "Error sending reply: 'user_id'"]) w)
    | Some cid, Some _ =>
        match get_channel cid (db w) ≫= λ c, truthy (c_bot_token c) with
        | None => Ok false w
        | Some token =>
            if valid_token token then
              match reply_call token cid reply_data original_message_id with
              | None => Ok true w
              | Some call =>
                  match transport env (wire w) call with
                  | inr _ => Ok true (set_wire (wire w ++ [call]) w)
                  | inl msg =>
                      Ok false
                        (set_ui
                           (ui w ++ [logger_error ("Error sending reply: " +:+ msg)])
                           (set_wire (wire w ++ [call]) w))
                  end
              end
            else
              Ok false
                (set_ui (ui w ++ [logger_error
                                    ("Error sending reply: " +:+ "Invalid token")]) w)
        end
    end.
Proof.
  unfold send_reply, reply_call.
  destruct (rd_channel_id reply_data) as [cid|]; [|reflexivity].
  destruct (rd_user_id reply_data) as [u|]; [|reflexivity].
  unfold try_except. unfold bind at 1, read.
  destruct (get_channel cid (db w) ≫= λ c, truthy (c_bot_token c)) as [token|];
    [|reflexivity].
  unfold bind at 1, TelegramBot.
  destruct (valid_token token); [|reflexivity].
  unfold ret at 1. cbv beta iota.
  assert (Hsend : ∀ call,
    match (let* _ := channel_bot env call in ret true) w with
    | Ok a w' => Ok a w'
    | Raise e w' =>
        match except_Exception (λ e0,
                let* _ := say (logger_error ("Error sending reply: " +:+ exn_str e0)) in
                ret false) e with
        | Some h => h w'
        | None => Raise e w'
        end
    end
    = match transport env (wire w) call with
      | inr _ => Ok true (set_wire (wire w ++ [call]) w)
      | inl msg =>
          Ok false
            (set_ui (ui w ++ [logger_error ("Error sending reply: " +:+ msg)])
               (set_wire (wire w ++ [call]) w))
      end).
  { intros call. unfold bind, channel_bot.
    by destruct (transport env (wire w) call). }
  destruct (rd_media reply_data) as [media|]; [|apply Hsend].
  destruct (media_truthy media); [|apply Hsend].
  destruct (truthy (media_photo media)); [apply Hsend|].
  destruct (truthy (media_video media)); [apply Hsend|reflexivity].
Qed.

Lemma reply_call_target (token : string) (cid : Z) (reply_data : ReplyData)
    (mid : Z) (call : TransportCall) :
  reply_call token cid reply_data mid = Some call →
  call_token call = token ∧ call_chat call = cid ∧ call_reply_to call = Some mid.
Proof.
  unfold reply_call. intros H.
  repeat match type of H with
         | match ?x with _ => _ end = _ => destruct x
         | (if ?b then _ else _) = _ => destruct b
         end;
    by simplify_eq.
Qed.

(** X8: [send_reply] never raises, whatever it is given and whatever the
    transport answers: every exception ends in the answer [False].  It
    leaves the database, the sessions and the clock alone and makes at most
    one transport call; a call it makes is a reply to the given message, in
    the channel the reply data names, with the bot token stored for that
    channel.  It answers [True] only when that channel is registered with a
    bot token. *)
Theorem send_reply_never_raises_and_calls_at_most_once (env : Env)
    (reply_data : ReplyData) (original_message_id : Z) (w : World) :
  ∃ answer w',
    send_reply env reply_data original_message_id w = Ok answer w' ∧
    db w' = db w ∧ user_data w' = user_data w ∧ ticks w' = ticks w ∧
    (length (calls_made w w') ≤ 1)%nat ∧
    (∀ call, call ∈ calls_made w w' →
       call_reply_to call = Some original_message_id ∧
       rd_channel_id reply_data = Some (call_chat call) ∧
       ∃ channel, get_channel (call_chat call) (db w) = Some channel ∧
                  truthy (c_bot_token channel) = Some (call_token call)) ∧
    (answer = true →
     ∃ cid channel token,
       rd_channel_id reply_data = Some cid ∧
       get_channel cid (db w) = Some channel ∧
       truthy (c_bot_token channel) = Some token).
Proof.
  rewrite send_reply_cases.
  assert (Hnone : ∀ shown,
    db (set_ui shown w) = db w ∧ user_data (set_ui shown w) = user_data w ∧
    ticks (set_ui shown w) = ticks w ∧
    (length (calls_made w (set_ui shown w)) ≤ 1)%nat ∧
    ∀ call, call ∈ calls_made w (set_ui shown w) →
      call_reply_to call = Some original_message_id ∧
      rd_channel_id reply_data = Some (call_chat call) ∧
      ∃ channel, get_channel (call_chat call) (db w) = Some channel ∧
                 truthy (c_bot_token channel) = Some (call_token call)).
  { intros shown. rewrite calls_made_same.
    split; [done|]. split; [done|]. split; [done|]. split; [simpl; lia|].
    intros call Hin. by apply not_elem_of_nil in Hin. }
  assert (Hsame : set_ui (ui w) w = w) by (by destruct w).
  destruct (rd_channel_id reply_data) as [cid|] eqn:Hcid.
  2: { eexists _, _. split; [reflexivity|].
       destruct (Hnone (ui w ++ [logger_error "Error sending reply: 'channel_id'"]))
         as (HB & HC & HD & HE & HF).
       split; [exact HB|]. split; [exact HC|]. split; [exact HD|].
       split; [exact HE|]. split; [exact HF|done]. }
  destruct (rd_user_id reply_data) as [u|].
  2: { eexists _, _. split; [reflexivity|].
       destruct (Hnone (ui w ++ [logger_error "Error sending reply: 'user_id'"]))
         as (HB & HC & HD & HE & HF).
       split; [exact HB|]. split; [exact HC|]. split; [exact HD|].
       split; [exact HE|]. split; [exact HF|done]. }
  destruct (Hnone (ui w)) as (_ & _ & _ & Hlen & Hcalls).
  rewrite Hsame in Hlen, Hcalls.
  destruct (get_channel cid (db w)) as [channel|] eqn:Hch; simpl.
  2: { exists false, w. by repeat (split; [done|]). }
  destruct (truthy (c_bot_token channel)) as [token|] eqn:Htok.
  2: { exists false, w. by repeat (split; [done|]). }
  assert (Hregistered : ∃ cid' channel' token',
            Some cid = Some cid' ∧ get_channel cid' (db w) = Some channel' ∧
            truthy (c_bot_token channel') = Some token')
    by (by exists cid, channel, token).
  destruct (valid_token token).
  2: { eexists _, _. split; [reflexivity|].
       destruct (Hnone (ui w ++ [logger_error
                                   ("Error sending reply: " +:+ "Invalid token")]))
         as (HB & HC & HD & HE & HF).
       split; [exact HB|]. split; [exact HC|]. split; [exact HD|].
       split; [exact HE|]. split; [exact HF|done]. }
  destruct (reply_call token cid reply_data original_message_id) as [call|] eqn:Hcall.
  2: { exists true, w. by repeat (split; [done|]). }
  destruct (reply_call_target _ _ _ _ _ Hcall) as (Htoken & Hchat & Hreply).
  assert (Hone : ∀ call', call' ∈ [call] →
            call_reply_to call' = Some original_message_id ∧
            Some cid = Some (call_chat call') ∧
            ∃ channel', get_channel (call_chat call') (db w) = Some channel' ∧
                        truthy (c_bot_token channel') = Some (call_token call')).
  { intros call' ->%list_elem_of_singleton. rewrite Hchat, Htoken. eauto. }
  destruct (transport env (wire w) call) as [msg|mid].
  - eexists _, _. split; [reflexivity|].
    assert (Hmade : calls_made w
              (set_ui (ui w ++ [logger_error ("Error sending reply: " +:+ msg)])
                 (set_wire (wire w ++ [call]) w)) = [call]).
    { unfold calls_made. simpl. by rewrite drop_app_length. }
    rewrite Hmade. by repeat (split; [done|]).
  - eexists _, _. split; [reflexivity|].
    assert (Hmade : calls_made w (set_wire (wire w ++ [call]) w) = [call]).
    { unfold calls_made. simpl. by rewrite drop_app_length. }
    rewrite Hmade. by repeat (split; [done|]).
Qed.

(** X9: a reply whose [media] dictionary is not empty but holds neither a
    photo nor a video (a document, say) is answered with [True] although
    nothing is sent: for a channel registered with a bot token from which
    the bot can be built the world is exactly as before.  (For a token the
    library refuses, [InvalidToken] is logged and the answer is [False].) *)
Theorem reply_with_other_media_is_reported_sent_but_dropped (env : Env)
    (reply_data : ReplyData) (original_message_id : Z) (w : World)
    (cid : Z) (channel : Channel) (token : string) (media : Media) :
  rd_channel_id reply_data = Some cid →
  is_Some (rd_user_id reply_data) →
  get_channel cid (db w) = Some channel →
  truthy (c_bot_token channel) = Some token →
  rd_media reply_data = Some media →
  media_truthy media = true →
  truthy (media_photo media) = None →
  truthy (media_video media) = None →
  (if valid_token token
   then send_reply env reply_data original_message_id w = Ok true w
   else send_reply env reply_data original_message_id w
        = Ok false
            (set_ui (ui w ++ [logger_error
                                ("Error sending reply: " +:+ "Invalid token")]) w)).
Proof.
  intros Hcid [u Hu] Hch Htok Hmedia Htruthy Hphoto Hvideo.
  rewrite send_reply_cases, Hcid, Hu, Hch. simpl. rewrite Htok.
  destruct (valid_token token); [|done].
  unfold reply_call. by rewrite Hmedia, Htruthy, Hphoto, Hvideo.
Qed.

(** The theorem at a reply that carries a document. *)
Lemma reply_with_other_media_witness :
  send_reply Samples.env_ok
    (mkReplyData (Some Samples.news_id) (Some 1%Z) (Some "see attachment")
       (Some (mkMedia None None true)))
    100 (Samples.composing (Some "123456:T") [])
  = Ok true (Samples.composing (Some "123456:T") []).
Proof.
  apply (reply_with_other_media_is_reported_sent_but_dropped Samples.env_ok _ 100 _
           Samples.news_id (Samples.news (Some "123456:T")) "123456:T" (mkMedia None None true)).
  - reflexivity.
  - eexists. reflexivity.
  - vm_compute. reflexivity.
  - reflexivity.
  - reflexivity.
  - reflexivity.
  - reflexivity.
  - reflexivity.
Defined.

(** ** After a delivery *)

(** X10: a delivery that goes through (the bot is built from the channel's
    token and every call is accepted) clears the post from the session, so
    pressing "Send Now" again sends nothing twice: the first press makes
    the calls of all blocks and stores one post, after which the session
    has no blocks, no selected channel and no composing flag; the second
    press, whatever the transport would answer, is answered with "Channel
    not found." and makes no call and stores nothing. *)
Theorem second_send_after_success_sends_nothing (env env' : Env) (update : Update)
    (w : World) (cid : Z) (ch : Channel) (token : string)
    (blocks : list MessageData) :
  is_Some (callback_query update) →
  delivering update w cid ch token blocks →
  accepting env →
  let w' := world_of (send_post_to_channel env update w) in
  calls_made w w' = calls_of token cid blocks ∧
  session_of (uid_of update) w' = clear_post_data (session_of (uid_of update) w) ∧
  blocks_of (session_of (uid_of update) w') = [] ∧
  send_post_to_channel env' update w'
  = Ok None
      (set_ui (ui w' ++ [answer (uid_of update) (Some "Channel not found.") true]) w').
Proof.
  intros Hq Hdel Hacc w'.
  destruct (send_loop_accepting env token cid blocks Hacc [] w) as [sent Hrun].
  destruct (send_post_completed env update w cid ch token blocks sent _ Hq Hdel Hrun)
    as [_ Heq].
  assert (Hs : session_of (uid_of update) w'
               = clear_post_data (session_of (uid_of update) w)).
  { subst w'. rewrite Heq. unfold session_of at 1. simpl.
    by rewrite lookup_insert_eq. }
  split; [subst w'; rewrite Heq; by apply calls_made_app|].
  split; [exact Hs|]. split; [by rewrite Hs|].
  unfold send_post_to_channel, get_session, read.
  unfold bind at 1. unfold bind at 1. rewrite Hs. simpl.
  destruct Hq as [q Hq]. unfold bind, query_answer, say, modify, ret.
  by rewrite Hq.
Qed.

(** The theorem at Alice's post of two texts. *)
Lemma second_send_after_success_witness :
  let update := Samples.presses Samples.alice "send_post" in
  let w := Samples.composing (Some "123456:T")
             [Samples.text_block "one"; Samples.text_block "two"] in
  let w' := world_of (send_post_to_channel Samples.env_ok update w) in
  calls_made w' (world_of (send_post_to_channel Samples.env_ok update w')) = [].
Proof.
  intros update w w'.
  destruct (second_send_after_success_sends_nothing Samples.env_ok Samples.env_ok
              update w Samples.news_id (Samples.news (Some "123456:T")) "123456:T"
              [Samples.text_block "one"; Samples.text_block "two"])
    as (_ & _ & _ & Hsecond).
  - eexists. reflexivity.
  - repeat split; try (vm_compute; reflexivity). discriminate.
  - intros history call. eexists. reflexivity.
  - fold w' in Hsecond. rewrite Hsecond. apply calls_made_same.
Defined.

(** ** A claimed channel and the claimant's list *)

(** The keyboard loop of [new_post] completes when every channel can be
    named, with one more button per channel, whose callback data is that
    of [select_channel_button]; it raises the [TypeError] of the first
    channel that cannot be named. *)
Lemma channel_buttons_run (user_channels : list Channel) :
  ∀ (keyboard : list Button) (w : World),
    if forallb nameable user_channels
    then ∃ keyboard',
           channel_buttons user_channels keyboard w = Ok keyboard' w ∧
           keyboard'.*2
           = keyboard.*2 ++ (select_channel_button ∘ c_id <$> user_channels)
    else channel_buttons user_channels keyboard w = Raise name_is_None w.
Proof.
  induction user_channels as [|c rest IH]; intros keyboard w; simpl.
  { exists keyboard. by rewrite app_nil_r. }
  assert (Hname : nameable c
                  = match channel_name_of c with inl _ => false | inr _ => true end).
  { unfold nameable, channel_name_of.
    by destruct (truthy (c_username c)), (c_name c). }
  rewrite Hname.
  destruct (channel_name_of c) as [e|channel_name] eqn:Hc; simpl.
  - unfold channel_name_of in Hc.
    destruct (truthy (c_username c)), (c_name c); by simplify_eq.
  - specialize (IH (keyboard ++ [("📢 " +:+ fstr channel_name,
                                  select_channel_button (c_id c))]) w).
    destruct (forallb nameable rest); [|exact IH].
    destruct IH as (keyboard' & -> & Hdata). exists keyboard'. split; [done|].
    rewrite Hdata, fmap_app, <- app_assoc. reflexivity.
Qed.

(** [/newpost] of a user who is listed some channel. *)
Lemma new_post_listed (env : Env) (update : Update) (w : World) :
  is_Some (message update) →
  get_user_channels (uid_of update) (db w) ≠ [] →
  new_post env update w
  = if forallb nameable (get_user_channels (uid_of update) (db w))
    then Ok (Some SELECTING_CHANNEL)
           (set_ui (ui w ++ [reply_text (uid_of update)
                               (Lit "Choose a channel to create a new post:")]) w)
    else Raise name_is_None w.
Proof.
  intros [m Hm] Hne. unfold new_post, read. unfold bind at 1. fold (uid_of update).
  pose proof (channel_buttons_run (get_user_channels (uid_of update) (db w)) [] w)
    as Hrun.
  destruct (get_user_channels (uid_of update) (db w)) as [|c l] eqn:Hl; [done|].
  unfold bind at 1.
  destruct (forallb nameable (c :: l)).
  - destruct Hrun as (keyboard' & -> & _).
    unfold bind, message_reply_text, say, modify, ret. by rewrite Hm.
  - by rewrite Hrun.
Qed.

(** X11: after a claim that passes every check the claimant is listed the
    channel: the new record is among their channels, so [/newpost] no
    longer ends with "There is no added channels yet.".  It offers the
    choice of a channel when every channel listed for the claimant has a
    name or no username, and raises a [TypeError] when one of them, the
    claimed one maybe, has a username and no name.  Whoever else was listed
    a record under the claimed id before is no longer listed it (what
    another user is listed afterwards is stored under another id). *)
Theorem a_claim_lists_the_channel_for_the_claimant_only (env : Env) (update : Update)
    (w : World) (m : Message) (chat : Chat) (status : string) :
  flag (adding_channel (session_of (uid_of update) w)) = true →
  message update = Some m →
  forward_from_chat m = Some chat →
  chat_type chat ∈ ["channel"; "group"] →
  get_chat_member env (chat_id chat) (uid_of update) = inr status →
  is_admin_status status = true →
  let w' := world_of (handle_forwarded_message env update w) in
  let record :=
    mkChannel (chat_id chat) (chat_title chat) (chat_username chat)
      (chat_type chat) [uid_of update] (uid_of update) (clock env (ticks w))
      None "UTC" in
  record ∈ get_user_channels (uid_of update) (db w') ∧
  new_post env update w'
  = (if forallb nameable (get_user_channels (uid_of update) (db w'))
     then Ok (Some SELECTING_CHANNEL)
            (set_ui (ui w' ++ [reply_text (uid_of update)
                                 (Lit "Choose a channel to create a new post:")]) w')
     else Raise name_is_None w') ∧
  ∀ uid c, uid ≠ uid_of update → c ∈ get_user_channels uid (db w') →
    ∃ cid, cid ≠ chat_id chat ∧ get_channel cid (db w) = Some c ∧
           uid ∈ c_admins c.
Proof.
  intros Hflag Hm Hchat Htype Hmember Hadmin w' record.
  assert (Hdb : db w' = save_channel (chat_id chat) record (db w)).
  { subst w'. by rewrite (handle_forwarded_message_claim env update w m chat status
                            Hflag Hm Hchat Htype Hmember Hadmin). }
  assert (Hlisted : record ∈ get_user_channels (uid_of update) (db w')).
  { apply get_user_channels_spec. exists (chat_id chat). rewrite Hdb. split.
    - apply lookup_insert_eq.
    - simpl. left. }
  split; [exact Hlisted|]. split.
  - apply new_post_listed; [by rewrite Hm|].
    intros Hnil. rewrite Hnil in Hlisted. by apply not_elem_of_nil in Hlisted.
  - intros uid c Hne Hin. apply get_user_channels_spec in Hin as (cid & Hget & Hin).
    rewrite Hdb in Hget. unfold get_channel, save_channel in Hget. simpl in Hget.
    destruct (decide (cid = chat_id chat)) as [->|Hcid].
    + rewrite lookup_insert_eq in Hget. injection Hget as <-. simpl in Hin.
      by apply list_elem_of_singleton in Hin.
    + rewrite lookup_insert_ne in Hget by done. by exists cid.
Qed.

(** The theorem at Bob's claim of the channel Alice has claimed before. *)
Lemma a_claim_lists_the_channel_witness :
  let update := Samples.says Samples.bob (Samples.forwarded_from Samples.news_chat) in
  let w := world_of (handle_forwarded_message Samples.env_ok
             (Samples.says Samples.alice (Samples.forwarded_from Samples.news_chat))
             (Samples.adding [1%Z; 2%Z])) in
  let w' := world_of (handle_forwarded_message Samples.env_ok update w) in
  get_user_channels 1 (db w) ≠ [] ∧
  get_user_channels 1 (db w') = [] ∧
  new_post Samples.env_ok update w'
  = Ok (Some SELECTING_CHANNEL)
      (set_ui (ui w' ++ [reply_text 2 (Lit "Choose a channel to create a new post:")])
         w').
Proof.
  intros update w w'. split; [by vm_compute|]. split; [by vm_compute|].
  destruct (a_claim_lists_the_channel_for_the_claimant_only Samples.env_ok update w
              (Samples.forwarded_from Samples.news_chat) Samples.news_chat
              "administrator") as (_ & Hnew & _).
  - vm_compute. reflexivity.
  - reflexivity.
  - reflexivity.
  - apply list_elem_of_here.
  - reflexivity.
  - vm_compute. reflexivity.
  - exact Hnew.
Defined.

(** ** From the message received to the call made *)

Lemma truthy_Some (s : string) : str_truthy s = true → truthy (Some s) = Some s.
Proof. intros H. unfold truthy. by rewrite H. Qed.

(** X12: what the composer stores for a message is what the sending loop
    sends for it.  A photo message is sent as its largest photo, a video
    message as its video, both with the formatted caption (the plain one
    when there is no formatted one) and the caption entities of the
    message; a message with neither is sent as its formatted text (the
    Markdown text when there is no HTML text) with the entities of the
    message; and a message with no photo, no video and no text, whether it
    has a document or not, gives a block for which nothing is sent. *)
Theorem a_message_is_sent_as_it_was_received (token : string) (cid : Z)
    (m : Message) (date : Z) :
  let block := message_data_of m date in
  (∀ file_id,
     last (photo m) = Some file_id → str_truthy file_id = true →
     block_call token cid block
     = Some (send_photo token cid file_id (or_else (caption_html m) (caption m))
               (Some (caption_entities m)) None)) ∧
  (∀ file_id,
     photo m = [] → video m = Some file_id → str_truthy file_id = true →
     block_call token cid block
     = Some (send_video token cid file_id (or_else (caption_html m) (caption m))
               (Some (caption_entities m)) None)) ∧
  (∀ t,
     photo m = [] → video m = None →
     or_else (text_html m) (text_markdown m) = Some t → str_truthy t = true →
     block_call token cid block
     = Some (send_message token cid t (Some (entities m)) None)) ∧
  (photo m = [] → video m = None →
   truthy (or_else (text_html m) (text_markdown m)) = None →
   block_call token cid block = None).
Proof.
  intros block. subst block. unfold message_data_of, largest_photo, block_call.
  split; [|split; [|split]].
  - intros f Hlast Hf. rewrite Hlast. simpl. by rewrite Hf.
  - intros f -> -> Hf. simpl. by rewrite Hf.
  - intros t -> -> Ht Hs. simpl.
    destruct (document m); simpl; rewrite Ht; simpl; by rewrite Hs.
  - intros -> -> Ht. simpl. destruct (document m); simpl; by rewrite Ht.
Qed.

(** The theorem at a text message. *)
Lemma a_message_is_sent_as_it_was_received_witness :
  block_call "123456:T" Samples.news_id
    (message_data_of (Samples.text_message 7 "<b>Hello</b>") 1000)
  = Some (send_message "123456:T" Samples.news_id "<b>Hello</b>" (Some [Samples.bold]) None).
Proof.
  apply (proj1 (proj2 (proj2 (a_message_is_sent_as_it_was_received "123456:T"
                                 Samples.news_id
                                 (Samples.text_message 7 "<b>Hello</b>") 1000)))
           "<b>Hello</b>").
  - reflexivity.
  - reflexivity.
  - reflexivity.
  - reflexivity.
Defined.

(** X13: composing and then sending.  When a user composing for a channel
    registered with a bot token from which the bot can be built sends one
    more message and then presses "Send Now", and every call is accepted,
    the calls made are those of the
    blocks the session held, in order, followed by the call of the new
    message; the post stored holds the old blocks followed by the new
    block, and the session is cleared. *)
Theorem compose_then_send_delivers_old_blocks_then_the_new_one (env env' : Env)
    (user : User) (m : Message) (w : World) (cid : Z) (ch : Channel)
    (token : string) :
  flag (creating_post (session_of (user_id user) w)) = true →
  selected_channel (session_of (user_id user) w) = Some cid →
  get_channel cid (db w) = Some ch →
  truthy (c_bot_token ch) = Some token →
  valid_token token = true →
  accepting env' →
  let old := blocks_of (session_of (user_id user) w) in
  let block := message_data_of m (clock env (ticks w)) in
  let w1 := world_of (handle_text_message env (mkUpdate user (Some m) None) w) in
  let w2 := world_of (send_post_to_channel env' (press user "send_post") w1) in
  calls_made w1 w2 = calls_of token cid old ++ calls_of token cid [block] ∧
  (∃ p, posts (db w2) !! (cid, clock env' (S (ticks w))) = Some p ∧
        p_messages p = old ++ [block]) ∧
  blocks_of (session_of (user_id user) w2) = [].
Proof.
  intros Hflag Hsel Hch Htok Hvalid Hacc old block w1 w2.
  assert (Hrec : selected_channel_record (user_id user) w = Some ch).
  { unfold selected_channel_record. by rewrite Hsel. }
  destruct (handle_text_message_appends env (mkUpdate user (Some m) None) w m ch
              Hflag Hrec eq_refl) as [shown Heq].
  assert (Hw1 : w1 = mkWorld (db w)
            (<[user_id user := append_block block (session_of (user_id user) w)]>
               (user_data w))
            (ui w ++ [shown]) (wire w) (S (ticks w))).
  { subst w1. by rewrite Heq. }
  assert (Hs1 : session_of (user_id user) w1
                = append_block block (session_of (user_id user) w)).
  { rewrite Hw1. unfold session_of at 1. simpl. by rewrite lookup_insert_eq. }
  assert (Hdel : delivering (press user "send_post") w1 cid ch token (old ++ [block])).
  { unfold delivering, uid_of. simpl. rewrite Hs1. simpl.
    repeat split; try done.
    - by rewrite Hw1.
    - by destruct old. }
  destruct (send_loop_accepting env' token cid (old ++ [block]) Hacc [] w1)
    as [sent Hrun].
  destruct (send_post_completed env' (press user "send_post") w1 cid ch token
              (old ++ [block]) sent _ ltac:(by eexists) Hdel Hrun) as [_ Hsend].
  subst w2. rewrite Hsend. split; [|split].
  - rewrite <- calls_of_app. by apply calls_made_app.
  - eexists. simpl. rewrite Hw1. simpl. rewrite lookup_insert_eq.
    split; reflexivity.
  - unfold session_of at 1, uid_of. simpl. by rewrite lookup_insert_eq.
Qed.

(** The theorem at Alice who has composed "Hello" and adds "Bye". *)
Lemma compose_then_send_witness :
  let w := Samples.composing (Some "123456:T") [Samples.text_block "Hello"] in
  let w1 := world_of (handle_text_message Samples.env_ok
              (mkUpdate Samples.alice (Some (Samples.text_message 8 "Bye")) None) w) in
  let w2 := world_of (send_post_to_channel Samples.env_ok
              (press Samples.alice "send_post") w1) in
  calls_made w1 w2
  = calls_of "123456:T" Samples.news_id [Samples.text_block "Hello"]
    ++ calls_of "123456:T" Samples.news_id
         [message_data_of (Samples.text_message 8 "Bye") 1000].
Proof.
  intros w w1 w2.
  apply (compose_then_send_delivers_old_blocks_then_the_new_one Samples.env_ok
           Samples.env_ok Samples.alice (Samples.text_message 8 "Bye") w
           Samples.news_id (Samples.news (Some "123456:T")) "123456:T").
  - vm_compute. reflexivity.
  - vm_compute. reflexivity.
  - vm_compute. reflexivity.
  - reflexivity.
  - reflexivity.
  - intros history call. eexists. reflexivity.
Defined.

(** ** Buttons without a case *)

(** A press whose data no case of [handle_callback] is written for is
    answered and changes nothing else. *)
Lemma handle_callback_unhandled (env : Env) (user : User) (data : string) (w : World) :
  handled data = false →
  handle_callback env (press user data) w
  = Ok None (set_ui (ui w ++ [answer (user_id user) None false]) w).
Proof.
  unfold handled. intros H.
  repeat (apply orb_false_iff in H as [H ?]).
  unfold handle_callback. unfold bind at 1, query_answer, say, modify. simpl.
  repeat match goal with
         | Heq : _ = false |- _ => rewrite Heq; clear Heq
         end.
  reflexivity.
Qed.

(** X14: of all the buttons of the main menu, of the post creation keyboard
    and of the settings keyboard, only "Preview", "Schedule", "Send Now"
    and "Back"/"Cancel" do anything.  Pressing any other one ("Create
    Post", "My Channels", "Scheduled Posts", "Statistics", "Settings",
    "Help", "Add Media", "Add Buttons", "Clear All", "Change Language",
    "Manage Bots", "Post Settings") is answered and changes nothing: in
    particular "Clear All" leaves the blocks of the post in the session. *)
Theorem most_menu_buttons_do_nothing (env : Env) (user : User) (data : string)
    (w : World) :
  data ∈ concat (get_main_menu_keyboard ++ get_post_creation_keyboard
                 ++ settings_keyboard) →
  data ∉ ["post_preview"; "schedule_post"; "send_post"; "back_to_main"] →
  handle_callback env (press user data) w
  = Ok None (set_ui (ui w ++ [answer (user_id user) None false]) w).
Proof.
  intros Hin Hnot. apply handle_callback_unhandled.
  simpl in Hin.
  repeat (apply elem_of_cons in Hin as [->|Hin]; [try reflexivity|]).
  all: exfalso; apply Hnot; set_solver.
Qed.

(** The theorem at the button "Clear All". *)
Lemma most_menu_buttons_witness :
  let w := Samples.composing (Some "123456:T") [Samples.text_block "Hello"] in
  let w' := world_of (handle_callback Samples.env_ok
                        (press Samples.alice "clear_post") w) in
  blocks_of (session_of 1 w') = [Samples.text_block "Hello"].
Proof.
  intros w.
  rewrite (most_menu_buttons_do_nothing Samples.env_ok Samples.alice "clear_post" w).
  - reflexivity.
  - simpl. repeat constructor.
  - intros Hin.
    repeat (apply elem_of_cons in Hin as [Hin|Hin]; [discriminate|]).
    by apply not_elem_of_nil in Hin.
Defined.

(** X15: the buttons built with a channel id or a message id in their data
    have no case either, whatever the ids: the "manage" button [my_channels]
    builds for a channel, and the "Reply", "Forward", "Stats" and "Edit"
    buttons of [create_reply_keyboard].  Pressing one is answered and
    changes nothing; so no press ever reaches [handle_reply]. *)
Theorem buttons_with_ids_do_nothing (env : Env) (user : User) (w : World) :
  (∀ user_channels data,
     data ∈ my_channels_keyboard user_channels → data ≠ "back_to_main" →
     handle_callback env (press user data) w
     = Ok None (set_ui (ui w ++ [answer (user_id user) None false]) w)) ∧
  (∀ channel_id message_id data,
     data ∈ concat (create_reply_keyboard channel_id message_id) →
     handle_callback env (press user data) w
     = Ok None (set_ui (ui w ++ [answer (user_id user) None false]) w)).
Proof.
  split.
  - intros user_channels data Hin Hne. apply handle_callback_unhandled.
    unfold my_channels_keyboard in Hin. apply elem_of_app in Hin as [Hin|Hin].
    + apply list_elem_of_fmap in Hin as (c & -> & _). reflexivity.
    + by apply list_elem_of_singleton in Hin.
  - intros channel_id message_id data Hin. apply handle_callback_unhandled.
    simpl in Hin.
    repeat (apply elem_of_cons in Hin as [->|Hin]; [reflexivity|]).
    by apply not_elem_of_nil in Hin.
Qed.

(** The theorem at the "Reply" button of message 55 in channel -1001. *)
Lemma buttons_with_ids_witness :
  handle_callback Samples.env_ok (press Samples.alice "reply_-1001_55") World_init
  = Ok None (set_ui [answer 1 None false] World_init).
Proof.
  apply (proj2 (buttons_with_ids_do_nothing Samples.env_ok Samples.alice World_init)
           (-1001)%Z 55%Z).
  change (concat (create_reply_keyboard (-1001) 55))
    with ["reply_-1001_55"; "forward_-1001_55"; "stats_-1001_55"; "edit_-1001_55"].
  constructor.
Defined.

(** ** What reaches a handler *)

(** X16: the dispatcher hands [handle_text_message] only messages that have
    a text, are not forwarded and are no command.  A message that is no
    known command, is not forwarded and has no text (a photo, a video, a
    document, a sticker) or is an unknown command reaches no handler: the
    world stays exactly as it is, also while the sender is composing.  And
    a forwarded message that is no known command goes to
    [handle_forwarded_message] alone: unless the sender is adding a
    channel, the world stays exactly as it is. *)
Theorem dispatcher_drops_media_and_forwarded_messages (env : Env) (update : Update)
    (m : Message) (w : World) :
  message update = Some m →
  bot_command m ≫= command_handler = None →
  (forward_date m = None → truthy (text m) = None ∨ is_command m = true →
   dispatch env update w = Ok () w) ∧
  (is_Some (forward_date m) →
   flag (adding_channel (session_of (uid_of update) w)) = false →
   dispatch env update w = Ok () w).
Proof.
  intros Hm Hcmd. split.
  - intros Hfwd Htext. unfold dispatch, handler_for. rewrite Hm, Hcmd, Hfwd.
    rewrite bool_decide_eq_false_2 by (by intros [? ?]).
    destruct Htext as [-> | ->].
    + by rewrite bool_decide_eq_false_2 by (by intros [? ?]).
    + by rewrite andb_false_r.
  - intros Hfwd Hflag. unfold dispatch, handler_for. rewrite Hm, Hcmd.
    rewrite bool_decide_eq_true_2 by done.
    unfold try_except, bind at 1.
    unfold handle_forwarded_message, get_session, read. unfold bind at 1.
    fold (uid_of update). by rewrite Hflag.
Qed.

(** The theorem at a document Alice sends while composing. *)
Lemma dispatcher_drops_media_witness :
  let w := Samples.composing (Some "123456:T") [Samples.text_block "Hello"] in
  dispatch Samples.env_ok
    (Samples.says Samples.alice (Samples.document_message 10 "D1")) w
  = Ok () w.
Proof.
  intros w.
  apply (proj1 (dispatcher_drops_media_and_forwarded_messages Samples.env_ok
                  (Samples.says Samples.alice (Samples.document_message 10 "D1"))
                  (Samples.document_message 10 "D1") w eq_refl eq_refl)).
  - reflexivity.
  - left. reflexivity.
Defined.

(** ** Entries of the session nothing clears *)

Lemma leftover_frame_refl (w : World) : leftover_frame w w.
Proof. intros uid. split; [by left | done]. Qed.

Lemma leftover_frame_trans (w1 w2 w3 : World) :
  leftover_frame w1 w2 → leftover_frame w2 w3 → leftover_frame w1 w3.
Proof.
  intros H12 H23 uid. destruct (H12 uid) as [Hs12 Hr12], (H23 uid) as [Hs23 Hr23].
  split; [|by rewrite Hr23].
  destruct Hs23 as [-> | ->]; [exact Hs12 | by right].
Qed.

Lemma leftover_same_sessions {A} (c : M A) :
  (∀ w, user_data (world_of (c w)) = user_data w) → keeps leftover_frame c.
Proof.
  intros Hc w uid. unfold session_of. rewrite Hc. split; [by left | done].
Qed.

Lemma leftover_say (e : UiEvent) : keeps leftover_frame (say e).
Proof. by apply leftover_same_sessions. Qed.

Lemma leftover_now (env : Env) : keeps leftover_frame (now env).
Proof. by apply leftover_same_sessions. Qed.

Lemma leftover_channel_bot (env : Env) (call : TransportCall) :
  keeps leftover_frame (channel_bot env call).
Proof.
  apply leftover_same_sessions. intros w. unfold channel_bot.
  by destruct (transport env (wire w) call).
Qed.

Lemma leftover_modify_db (f : Database → Database) :
  keeps leftover_frame (modify_db f).
Proof. by apply leftover_same_sessions. Qed.

Lemma leftover_message_reply_text (update : Update) (t : Text) :
  keeps leftover_frame (message_reply_text update t).
Proof.
  apply leftover_same_sessions. intros w. unfold message_reply_text.
  by destruct (message update).
Qed.

Lemma leftover_query_answer (update : Update) (t : option string) (alert : bool) :
  keeps leftover_frame (query_answer update t alert).
Proof.
  apply leftover_same_sessions. intros w. unfold query_answer.
  by destruct (callback_query update).
Qed.

Lemma leftover_query_edit_message_text (update : Update) (t : Text) :
  keeps leftover_frame (query_edit_message_text update t).
Proof.
  apply leftover_same_sessions. intros w. unfold query_edit_message_text.
  by destruct (callback_query update).
Qed.

Lemma leftover_update_session (uid : Z) (f : Session → Session) :
  (∀ s, leftover s (f s)) → keeps leftover_frame (update_session uid f).
Proof.
  intros Hf w uid'. simpl. destruct (decide (uid = uid')) as [<-|Hne].
  - rewrite session_of_update_same. apply Hf.
  - rewrite session_of_update_other by done. split; [by left | done].
Qed.

Create HintDb leftover.

#[local] Hint Resolve leftover_say leftover_now leftover_channel_bot
  leftover_modify_db leftover_message_reply_text leftover_query_answer
  leftover_query_edit_message_text : leftover.

(** One step of a proof that a handler keeps [leftover_frame]. *)
Ltac leftover_step :=
  cbv zeta;
  first
    [ solve [auto 1 with leftover nocore]
    | apply (keeps_ret _ leftover_frame_refl)
    | apply (keeps_raise _ leftover_frame_refl)
    | apply (keeps_read _ leftover_frame_refl)
    | apply (keeps_TelegramBot _ leftover_frame_refl)
    | apply (keeps_channel_buttons _ leftover_frame_refl)
    | apply leftover_update_session; intros;
      (split; [first [left; reflexivity | right; reflexivity] | reflexivity])
    | apply (keeps_bind _ leftover_frame_trans); [|intros]
    | apply (keeps_try_except _ leftover_frame_trans);
      [|let e := fresh "e" in let h := fresh "h" in
        intros e h; unfold except_TelegramError, except_Exception;
        try destruct e; intros [= <-]]
    | match goal with
      | |- keeps _ (match ?x with _ => _ end) => destruct x
      | |- keeps _ (if ?b then _ else _) => destruct b
      end ].

Ltac leftover_auto := repeat leftover_step.

Lemma leftover_send_loop (env : Env) (token : string) (cid : Z)
    (blocks : list MessageData) (sent : list Z) :
  keeps leftover_frame (send_loop env token cid blocks sent).
Proof.
  revert sent. induction blocks as [|msg rest IH]; intros sent; simpl.
  - leftover_auto.
  - apply (keeps_bind _ leftover_frame_trans); [|intros; apply IH].
    unfold send_block. leftover_auto.
Qed.

#[local] Hint Resolve leftover_send_loop : leftover.

Lemma leftover_show_post_preview (env : Env) (update : Update) (is_callback : bool) :
  keeps leftover_frame (show_post_preview env update is_callback).
Proof. unfold show_post_preview, get_session. leftover_auto. Qed.

#[local] Hint Resolve leftover_show_post_preview : leftover.

Lemma leftover_send_post_to_channel (env : Env) (update : Update) :
  keeps leftover_frame (send_post_to_channel env update).
Proof.
  unfold send_post_to_channel, get_session, report_error, record_and_report,
    clear_post_data.
  leftover_auto.
Qed.

#[local] Hint Resolve leftover_send_post_to_channel : leftover.

Lemma leftover_dispatch (env : Env) (update : Update) :
  keeps leftover_frame (dispatch env update).
Proof.
  unfold dispatch, handler_for, error_handler.
  destruct (message update) as [m|].
  - destruct (bot_command m ≫= command_handler) as [h|] eqn:Hcmd.
    + destruct (bot_command m) as [c|]; [|done]. simpl in Hcmd.
      unfold command_handler in Hcmd.
      repeat match type of Hcmd with
             | (if ?b then _ else _) = _ => destruct b
             end;
        try discriminate; injection Hcmd as <-;
        unfold start, help_command, new_post, add_channel, my_channels, settings,
          change_language; leftover_auto.
    + destruct (bool_decide _).
      * unfold handle_forwarded_message, get_session. leftover_auto.
      * destruct (_ && _); [|leftover_auto].
        unfold handle_text_message, get_session, append_block. leftover_auto.
  - destruct (callback_query update); [|leftover_auto].
    unfold handle_callback, show_main_menu, schedule_post. leftover_auto.
Qed.

Lemma run_bot_leftover_frame (env : Env) (updates : list Update) :
  ∀ w, leftover_frame w (run_bot env updates w).
Proof.
  induction updates as [|u rest IH]; intros w; simpl.
  - apply leftover_frame_refl.
  - eapply leftover_frame_trans; [apply leftover_dispatch | apply IH].
Qed.

(** X17: two entries of the session are never cleaned up.  Once a user's
    ['scheduling_post'] flag is set (by pressing "Schedule") no update that
    arrives afterwards clears it, not even a delivery that goes through and
    clears the post from the session; and the ['replying_to'] entry is
    neither set nor changed nor removed by anything the dispatcher runs. *)
Theorem scheduling_flag_and_reply_context_are_never_cleared (env : Env)
    (updates : list Update) (w : World) (uid : Z) :
  let w' := run_bot env updates w in
  (flag (scheduling_post (session_of uid w)) = true →
   flag (scheduling_post (session_of uid w')) = true) ∧
  replying_to (session_of uid w') = replying_to (session_of uid w).
Proof.
  intros w'. destruct (run_bot_leftover_frame env updates w uid) as [Hs Hr].
  split; [|exact Hr]. fold w' in Hs. intros Hset.
  destruct Hs as [-> | ->]; done.
Qed.

(** The theorem at Alice who presses "Schedule" and then "Send Now". *)
Lemma scheduling_flag_witness :
  let w := world_of (schedule_post Samples.env_ok
             (press Samples.alice "schedule_post")
             (Samples.composing (Some "123456:T") [Samples.text_block "Hello"])) in
  let w' := run_bot Samples.env_ok [press Samples.alice "send_post"] w in
  flag (scheduling_post (session_of 1 w)) = true ∧
  blocks_of (session_of 1 w') = [] ∧
  flag (scheduling_post (session_of 1 w')) = true.
Proof.
  intros w w'. split; [by vm_compute|]. split; [by vm_compute|].
  apply (proj1 (scheduling_flag_and_reply_context_are_never_cleared Samples.env_ok
                  [press Samples.alice "send_post"] w 1)).
  by vm_compute.
Defined.
